(** * Verification of the CGIAR assistant chat front ends

    Shallow embedding of [src/app.py] (plain chat) and [src/chart_app.py]
    (chat with bar charts): the chart extractor [extract_chart_data], the
    session store kept in [st.session_state], and the assistant gateway
    [get_client] / [ensure_thread] / [call_assistant] together with the
    top-level submission handler of the Streamlit script.

    Conventions.
    - A Python [str] is a Rocq [string] holding its UTF-8 bytes.  The
      regular expression, [str.strip] and [int] work on the code points of
      the text ([chars]), with the classes of white space and of decimal
      digits that CPython takes from the Unicode database.
    - Python integers are [Z].
    - The remote assistant service is a parameter: a record of operations
      over an abstract service state, each of which may raise.
    - A computation returns, raises, or is still polling when its polling
      budget ([fuel]) is used up; the source polls without bound.  Results do
      not depend on the budget once it suffices ([call_assistant_enough_fuel]).
    - Every call to the service, with its result, every error message and
      every chart shown to the user is recorded in the trace of the
      computation.  The chat bubbles are not modelled. *)

From Stdlib Require Import String Ascii List ZArith NArith Lia Bool Arith.
Import ListNotations.
Local Open Scope string_scope.
Local Open Scope list_scope.

(** ** Strings *)

Module Str.

Fixpoint all (f : ascii -> bool) (s : string) : bool :=
  match s with
  | EmptyString => true
  | String c s' => f c && all f s'
  end.

Fixpoint rev_onto (s acc : string) : string :=
  match s with
  | EmptyString => acc
  | String c s' => rev_onto s' (String c acc)
  end.

Definition rev (s : string) : string := rev_onto s EmptyString.

Fixpoint repeat (c : ascii) (n : nat) : string :=
  match n with
  | O => EmptyString
  | S k => String c (repeat c k)
  end.

(** [sub in s]: Python's [sub in s] on strings. *)
Fixpoint contains (sub s : string) : bool :=
  String.prefix sub s ||
  match s with
  | EmptyString => false
  | String _ s' => contains sub s'
  end.

End Str.

(** ** Code points

    The characters of a [str].  A [string] of the model holds a [str] as the
    bytes of its UTF-8 encoding, a lone surrogate being written in three
    bytes like any other code point of its range, so that every [str] has its
    [string].  [decode] reads the code points back; a byte that starts no
    well-formed sequence is read as the code point U+DC00 + byte, as the
    error handler [surrogateescape] reads it. *)

Definition codepoint : Type := N.

Module Utf8.

Definition byte (n : N) : ascii := ascii_of_N n.

(** The bytes of one code point. *)
Definition encode_char (c : codepoint) : string :=
  (if c <? 0x80 then
     String (byte c) ""
   else if c <? 0x800 then
     String (byte (0xC0 + c / 64))
       (String (byte (0x80 + c mod 64)) "")
   else if c <? 0x10000 then
     String (byte (0xE0 + c / 4096))
       (String (byte (0x80 + (c / 64) mod 64))
          (String (byte (0x80 + c mod 64)) ""))
   else
     String (byte (0xF0 + c / 262144))
       (String (byte (0x80 + (c / 4096) mod 64))
          (String (byte (0x80 + (c / 64) mod 64))
             (String (byte (0x80 + c mod 64)) ""))))%N.

Fixpoint encode (cs : list codepoint) : string :=
  match cs with
  | [] => ""
  | c :: cs' => encode_char c ++ encode cs'
  end.

(** The six payload bits of a continuation byte. *)
Definition continuation (b : ascii) : option N :=
  let n := N_of_ascii b in
  (if (0x80 <=? n) && (n <? 0xC0) then Some (n - 0x80) else None)%N.

(** The code point that starts at the byte [b0], which [s1] follows, and
    the number of bytes of [s1] that belong to it.  Sequences longer than
    needed for their code point and code points past U+10FFFF are not
    well formed. *)
Definition head_char (b0 : ascii) (s1 : string) : codepoint * nat :=
  let n0 := N_of_ascii b0 in
  let stray := ((0xDC00 + n0)%N, 0) in
  if (n0 <? 0x80)%N then (n0, 0)
  else if (n0 <? 0xC2)%N then stray
  else if (n0 <? 0xE0)%N then
    match s1 with
    | String b1 _ =>
        match continuation b1 with
        | Some c1 => (((n0 - 0xC0) * 64 + c1)%N, 1)
        | None => stray
        end
    | _ => stray
    end
  else if (n0 <? 0xF0)%N then
    match s1 with
    | String b1 (String b2 _) =>
        match continuation b1, continuation b2 with
        | Some c1, Some c2 =>
            let c := ((n0 - 0xE0) * 4096 + c1 * 64 + c2)%N in
            if (0x800 <=? c)%N then (c, 2) else stray
        | _, _ => stray
        end
    | _ => stray
    end
  else if (n0 <? 0xF5)%N then
    match s1 with
    | String b1 (String b2 (String b3 _)) =>
        match continuation b1, continuation b2, continuation b3 with
        | Some c1, Some c2, Some c3 =>
            let c := ((n0 - 0xF0) * 262144 + c1 * 4096 + c2 * 64 + c3)%N in
            if ((0x10000 <=? c) && (c <? 0x110000))%N then (c, 3) else stray
        | _, _, _ => stray
        end
    | _ => stray
    end
  else stray.

(** [skip] counts the bytes ahead that belong to the code point just
    read. *)
Fixpoint decode_from (skip : nat) (s : string) : list codepoint :=
  match s with
  | EmptyString => []
  | String b0 s1 =>
      match skip with
      | S k => decode_from k s1
      | O => let '(c, k) := head_char b0 s1 in c :: decode_from k s1
      end
  end.

Definition decode (s : string) : list codepoint := decode_from 0 s.

End Utf8.

(** The code points of a text, and the text of a sequence of code points. *)
Definition chars (s : string) : list codepoint := Utf8.decode s.
Definition text_of (cs : list codepoint) : string := Utf8.encode cs.

(** A code point of Unicode. *)
Definition valid (c : codepoint) : Prop := (c < 0x110000)%N.

(** ** Character classes

    The tables are those of Unicode 14.0, the database of CPython 3.11. *)

(** The code points for which [Py_UNICODE_ISSPACE] holds. *)
Definition whitespace : list codepoint :=
  [0x09; 0x0A; 0x0B; 0x0C; 0x0D; 0x1C; 0x1D; 0x1E; 0x1F; 0x20; 0x85; 0xA0;
   0x1680; 0x2000; 0x2001; 0x2002; 0x2003; 0x2004; 0x2005; 0x2006; 0x2007;
   0x2008; 0x2009; 0x200A; 0x2028; 0x2029; 0x202F; 0x205F; 0x3000]%N.

(** [Py_UNICODE_ISSPACE]: the class of [\s] in a [str] pattern and the set
    removed by [str.strip()]. *)
Definition is_space (c : codepoint) : bool := existsb (N.eqb c) whitespace.

(** The decimal digits (general category Nd), as their first and last code
    points: each range is made of runs of ten digits, 0 to 9. *)
Definition decimal_ranges : list (codepoint * codepoint) :=
  [(0x30, 0x39); (0x660, 0x669); (0x6F0, 0x6F9); (0x7C0, 0x7C9);
    (0x966, 0x96F); (0x9E6, 0x9EF); (0xA66, 0xA6F); (0xAE6, 0xAEF);
    (0xB66, 0xB6F); (0xBE6, 0xBEF); (0xC66, 0xC6F); (0xCE6, 0xCEF);
    (0xD66, 0xD6F); (0xDE6, 0xDEF); (0xE50, 0xE59); (0xED0, 0xED9);
    (0xF20, 0xF29); (0x1040, 0x1049); (0x1090, 0x1099); (0x17E0, 0x17E9);
    (0x1810, 0x1819); (0x1946, 0x194F); (0x19D0, 0x19D9); (0x1A80, 0x1A89);
    (0x1A90, 0x1A99); (0x1B50, 0x1B59); (0x1BB0, 0x1BB9); (0x1C40, 0x1C49);
    (0x1C50, 0x1C59); (0xA620, 0xA629); (0xA8D0, 0xA8D9); (0xA900, 0xA909);
    (0xA9D0, 0xA9D9); (0xA9F0, 0xA9F9); (0xAA50, 0xAA59); (0xABF0, 0xABF9);
    (0xFF10, 0xFF19); (0x104A0, 0x104A9); (0x10D30, 0x10D39);
    (0x11066, 0x1106F); (0x110F0, 0x110F9); (0x11136, 0x1113F);
    (0x111D0, 0x111D9); (0x112F0, 0x112F9); (0x11450, 0x11459);
    (0x114D0, 0x114D9); (0x11650, 0x11659); (0x116C0, 0x116C9);
    (0x11730, 0x11739); (0x118E0, 0x118E9); (0x11950, 0x11959);
    (0x11C50, 0x11C59); (0x11D50, 0x11D59); (0x11DA0, 0x11DA9);
    (0x16A60, 0x16A69); (0x16AC0, 0x16AC9); (0x16B50, 0x16B59);
    (0x1D7CE, 0x1D7FF); (0x1E140, 0x1E149); (0x1E2F0, 0x1E2F9);
    (0x1E950, 0x1E959); (0x1FBF0, 0x1FBF9) ]%N.

(** [Py_UNICODE_TODECIMAL]: the value of a decimal digit. *)
Definition to_decimal (c : codepoint) : option N :=
  match find (fun r => (fst r <=? c) && (c <=? snd r))%N decimal_ranges with
  | Some r => Some ((c - fst r) mod 10)%N
  | None => None
  end.

(** [Py_UNICODE_ISDECIMAL]: the class of [\d] in a [str] pattern. *)
Definition is_digit (c : codepoint) : bool :=
  match to_decimal c with
  | Some _ => true
  | None => false
  end.

Definition colon : codepoint := 58%N.

Definition is_colon (c : codepoint) : bool := (c =? colon)%N.

(** [[^:]] *)
Definition is_not_colon (c : codepoint) : bool := negb (is_colon c).

(** No byte of the text is a colon. *)
Definition not_colon (c : ascii) : bool := negb (Ascii.eqb c ":"%char).

(** ** A backtracking matcher for sequences of quantified classes

    The fragment of Python's [re] that [extract_chart_data] uses: a pattern is
    a sequence of character classes, each taken once, or under a greedy [*]
    or [+], and possibly wrapped in a capturing group. *)

Module Re.

Inductive quant := Once | Star | Plus.

Record atom := Atom { cls : codepoint -> bool; rep : quant; captured : bool }.

Definition regex := list atom.

Section Greedy.
Context {R : Type}.
Variable c : codepoint -> bool.
(** continuation: text consumed by this atom, text that remains *)
Variable k : list codepoint -> list codepoint -> option R.

(** Greedy repetition: take the longest run first and give characters back
    one at a time while the rest of the pattern fails. *)
Fixpoint greedy (acc s : list codepoint) : option R :=
  match s with
  | a :: s' =>
      if c a then
        match greedy (acc ++ [a]) s' with
        | Some r => Some r
        | None => k acc s
        end
      else k acc s
  | [] => k acc s
  end.
End Greedy.

(** [match_here p s]: the match of [p] anchored at the start of [s], as the
    captured groups (in order) and the unconsumed rest of [s]. *)
Fixpoint match_here (p : regex) (s : list codepoint)
  : option (list (list codepoint) * list codepoint) :=
  match p with
  | [] => Some ([], s)
  | a :: p' =>
      let k := fun consumed rest =>
        match match_here p' rest with
        | Some (gs, r) => Some (if captured a then consumed :: gs else gs, r)
        | None => None
        end in
      match rep a with
      | Once =>
          match s with
          | x :: s' => if cls a x then k [x] s' else None
          | [] => None
          end
      | Star => greedy (cls a) k [] s
      | Plus =>
          match s with
          | x :: s' => if cls a x then greedy (cls a) k [x] s' else None
          | [] => None
          end
      end
  end.

(** Left-to-right scan for non-overlapping matches.  [skip] counts the
    characters of the current position's suffix that the previous match
    already consumed.  Exact for patterns that never match the empty string
    (see [chart_match_consumes]). *)
Fixpoint scan (p : regex) (skip : nat) (s : list codepoint)
  : list (list (list codepoint)) :=
  match skip with
  | S n =>
      match s with
      | _ :: s' => scan p n s'
      | [] => []
      end
  | O =>
      match match_here p s with
      | Some (gs, rest) =>
          gs :: match s with
                | _ :: s' => scan p (length s - length rest - 1) s'
                | [] => []
                end
      | None =>
          match s with
          | _ :: s' => scan p 0 s'
          | [] => []
          end
      end
  end.

(** [re.findall(p, s)]: the groups of every match, in order of appearance. *)
Definition findall (p : regex) (s : list codepoint)
  : list (list (list codepoint)) := scan p 0 s.

End Re.

(** ** Python built-ins used by the extractor *)

Fixpoint drop_while (f : codepoint -> bool) (s : list codepoint)
  : list codepoint :=
  match s with
  | c :: s' => if f c then drop_while f s' else s
  | [] => []
  end.

Definition lstrip (s : list codepoint) : list codepoint :=
  drop_while is_space s.

Definition rstrip (s : list codepoint) : list codepoint :=
  rev (lstrip (rev s)).

(** [str.strip()] *)
Definition strip (s : list codepoint) : list codepoint := rstrip (lstrip s).

Definition digit_value (c : codepoint) : Z :=
  match to_decimal c with
  | Some d => Z.of_N d
  | None => 0
  end.

(** [sys.int_info.default_max_str_digits]: CPython refuses to convert a
    decimal string with more digits than this. *)
Definition default_max_str_digits : nat := 4300.

(** A digit run read in base 10, most significant digit first. *)
Fixpoint decimal_from (acc : Z) (digits : list codepoint) : Z :=
  match digits with
  | [] => acc
  | d :: ds => decimal_from (acc * 10 + digit_value d) ds
  end.

Definition decimal_value (digits : list codepoint) : Z := decimal_from 0 digits.

(** The white space [int] skips at both ends: [PyLong_FromString] tests
    [Py_ISSPACE] after every non-ASCII white space was turned into a space,
    so the separators U+001C to U+001F do not count. *)
Definition is_int_space (c : codepoint) : bool :=
  is_space c && negb ((0x1C <=? c) && (c <=? 0x1F))%N.

(** The digits of an integer literal after its sign: decimal digits, with
    single underscores allowed between two digits, which are dropped.
    [prev_digit] tells whether the previous character was a digit. *)
Fixpoint int_digits (prev_digit : bool) (s : list codepoint)
  : option (list codepoint) :=
  match s with
  | [] => if prev_digit then Some [] else None
  | c :: s' =>
      if is_digit c then
        match int_digits true s' with
        | Some ds => Some (c :: ds)
        | None => None
        end
      else if (c =? 95)%N then
        if prev_digit then int_digits false s' else None
      else None
  end.

(** [int(s)] for a [str] argument, base 10: [None] stands for [ValueError].
    The digit count is checked against the limit before the value is
    computed. *)
Definition py_int (s : list codepoint) : option Z :=
  let t := rev (drop_while is_int_space (rev (drop_while is_int_space s))) in
  let '(neg, body) :=
    match t with
    | c :: r =>
        if (c =? 45)%N then (true, r)
        else if (c =? 43)%N then (false, r)
        else (false, t)
    | [] => (false, t)
    end in
  match int_digits false body with
  | Some digits =>
      if Nat.ltb default_max_str_digits (length digits) then None
      else Some (if neg then (- decimal_value digits)%Z else decimal_value digits)
  | None => None
  end.

(** ** Chart extractor ([chart_app.py], [extract_chart_data]) *)

(** [r'([^:]+):\s*(\d+)'] *)
Definition chart_pattern : Re.regex :=
  [ Re.Atom is_not_colon Re.Plus true;
    Re.Atom is_colon Re.Once false;
    Re.Atom is_space Re.Star false;
    Re.Atom is_digit Re.Plus true ].

(** A row of the data frame with columns [Label] and [Value]. *)
Record ChartRow := Row { Label : string; Value : Z }.

Section Extract.
(** The integer conversion, a parameter so that the [try]/[except] guard
    can be studied for any conversion that may fail. *)
Variable to_int : list codepoint -> option Z.

(** The list comprehension
    [[[label.strip(), int(value)] for label, value in matches]]:
    the first conversion that raises aborts the whole comprehension. *)
Fixpoint build_rows (matches : list (list (list codepoint)))
  : option (list ChartRow) :=
  match matches with
  | [] => Some []
  | [label; value] :: ms =>
      match to_int value with
      | Some v =>
          match build_rows ms with
          | Some rows => Some (Row (text_of (strip label)) v :: rows)
          | None => None
          end
      | None => None
      end
  | _ :: _ => None
  end.

(** The first component of the returned pair (the data frame), [None] for
    the [(None, None)] result.  The second component, [str(data)], is
    dropped by every caller and is not modelled. *)
Definition extract_chart_data_with (text : string) : option (list ChartRow) :=
  let matches := Re.findall chart_pattern (chars text) in
  match matches with
  | [] => None
  | _ => build_rows matches
  end.
End Extract.

Definition extract_chart_data : string -> option (list ChartRow) :=
  extract_chart_data_with py_int.

(** ** Session store, remote service and effects *)

(** One entry of [st.session_state.messages]:
    [{"role": "user"|"assistant", "content": str}]. *)
Record Message := Msg { role : string; content : string }.

(** The two keys of [st.session_state] the programs use; [None] is an absent
    key. *)
Record SessionState := Session {
  thread_id : option string;
  messages : option (list Message)
}.

Inductive exn :=
| IndexError
| AttributeError
| APIError (msg : string).

(** A run object as the programs read it: [run.id], [run.status]. *)
Record Run := mkRun { run_id : string; run_status : string }.

(** The content union of a thread message in the client library, by its
    [type] tag: "text", "image_file", "image_url", "refusal". *)
Inductive ContentBlock :=
| TextContentBlock (value : string)
| ImageFileContentBlock (file_id : string)
| ImageURLContentBlock (url : string)
| RefusalContentBlock (refusal : string).

Definition block_type (c : ContentBlock) : string :=
  match c with
  | TextContentBlock _ => "text"
  | ImageFileContentBlock _ => "image_file"
  | ImageURLContentBlock _ => "image_url"
  | RefusalContentBlock _ => "refusal"
  end.

Record ThreadMessage := mkThreadMessage {
  tm_role : string;
  tm_content : list ContentBlock
}.

(** The remote operations reached through an [OpenAI] client, over the state
    [R] of the service and network.  Each may raise instead of answering. *)
Record OpenAI (R : Type) := mkOpenAI {
  (** [client.beta.threads.create().id] *)
  threads_create : R -> (exn + string) * R;
  (** [client.beta.threads.messages.create(thread_id, role, content)] *)
  threads_messages_create : string -> string -> string -> R -> (exn + unit) * R;
  (** [client.beta.threads.runs.create(thread_id, assistant_id)] *)
  threads_runs_create : string -> string -> R -> (exn + Run) * R;
  (** [client.beta.threads.runs.retrieve(thread_id, run_id)] *)
  threads_runs_retrieve : string -> string -> R -> (exn + Run) * R;
  (** [client.beta.threads.messages.list(thread_id, order, limit).data] *)
  threads_messages_list :
    string -> string -> nat -> R -> (exn + list ThreadMessage) * R
}.
Arguments threads_create {R}.
Arguments threads_messages_create {R}.
Arguments threads_runs_create {R}.
Arguments threads_runs_retrieve {R}.
Arguments threads_messages_list {R}.

(** What a run of the program does to the outside, in order. *)
Inductive event :=
| StError (msg : string)
| StBarChart (df : list ChartRow)
| Sleep
| ThreadsCreate (res : exn + string)
| MessagesCreate (thread role content : string) (res : exn + unit)
| RunsCreate (thread assistant : string) (res : exn + Run)
| RunsRetrieve (thread run : string) (res : exn + Run)
| MessagesList (thread order : string) (limit : nat)
    (res : exn + list ThreadMessage).

Definition is_network_call (e : event) : bool :=
  match e with
  | StError _ | StBarChart _ | Sleep => false
  | _ => true
  end.

Record World (R : Type) := mkWorld {
  OPENAI_API_KEY : option string;   (* the process environment *)
  session_state : SessionState;
  remote : R
}.
Arguments mkWorld {R}.
Arguments OPENAI_API_KEY {R}.
Arguments session_state {R}.
Arguments remote {R}.

Inductive outcome (A : Type) :=
| Ret (a : A)
| Raise (e : exn)
| StillPolling.
Arguments Ret {A}.
Arguments Raise {A}.
Arguments StillPolling {A}.

(** Computations over the world that return, raise, or exhaust the polling
    budget, and emit a trace of events. *)
Definition M (R A : Type) : Type := World R -> outcome A * World R * list event.

Section Monad.
Context {R : Type}.

Definition ret {A} (a : A) : M R A := fun w => (Ret a, w, []).

Definition bind {A B} (m : M R A) (f : A -> M R B) : M R B :=
  fun w =>
    match m w with
    | (Ret a, w1, t1) => let '(o, w2, t2) := f a w1 in (o, w2, t1 ++ t2)
    | (Raise e, w1, t1) => (Raise e, w1, t1)
    | (StillPolling, w1, t1) => (StillPolling, w1, t1)
    end.

Definition raise {A} (e : exn) : M R A := fun w => (Raise e, w, []).
(** An expression that touches neither the world nor the outside. *)
Definition pure {A} (o : outcome A) : M R A := fun w => (o, w, []).
Definition still_polling {A} : M R A := fun w => (StillPolling, w, []).
Definition emit (e : event) : M R unit := fun w => (Ret tt, w, [e]).
Definition get_session : M R SessionState := fun w => (Ret (session_state w), w, []).
Definition put_session (s : SessionState) : M R unit :=
  fun w => (Ret tt, mkWorld (OPENAI_API_KEY w) s (remote w), []).
Definition getenv_api_key : M R (option string) :=
  fun w => (Ret (OPENAI_API_KEY w), w, []).

(** A remote call: the service answers or raises, and the call is traced
    with its result. *)
Definition call {A} (op : R -> (exn + A) * R) (ev : exn + A -> event) : M R A :=
  fun w =>
    let '(res, r') := op (remote w) in
    (match res with inl e => Raise e | inr a => Ret a end,
     mkWorld (OPENAI_API_KEY w) (session_state w) r',
     [ev res]).
End Monad.

Notation "x <- m ;; k" := (bind m (fun x => k))
  (at level 61, m at next level, right associativity).
Notation "m ;; k" := (bind m (fun _ => k))
  (at level 61, right associativity).

Section ForEach.
Context {R A : Type}.
Variable body : A -> M R unit.
(** [for x in xs: body(x)] *)
Fixpoint for_each (xs : list A) : M R unit :=
  match xs with
  | [] => ret tt
  | x :: xs' => body x ;; for_each xs'
  end.
End ForEach.

(** ** Assistant gateway *)

Definition assistant_id : string := "asst_i9gadw6w4Xd0swmScH5jH4Pv".

Definition terminal_statuses : list string :=
  ["completed"; "failed"; "cancelled"; "expired"].

Definition is_terminal (status : string) : bool :=
  existsb (String.eqb status) terminal_statuses.

Definition nl : string := String "010"%char EmptyString.
Definition dquote : string := String "034"%char EmptyString.

Section Gateway.
Context {R : Type}.
(** The constructor [OpenAI(api_key=...)]. *)
Variable OpenAI_new : string -> OpenAI R.

(** [st.session_state.messages.append({"role": r, "content": c})] *)
Definition append_message (r c : string) : M R unit :=
  ss <- get_session ;;
  match messages ss with
  | Some ms => put_session (Session (thread_id ss) (Some (ms ++ [Msg r c])))
  | None => raise AttributeError
  end.

(** [get_client], the same in both programs.  [not api_key] holds for an
    unset variable and for an empty one. *)
Definition get_client : M R (option (OpenAI R)) :=
  api_key <- getenv_api_key ;;
  match api_key with
  | None | Some EmptyString =>
      emit (StError "Please set the OPENAI_API_KEY environment variable ✨") ;;
      ret None
  | Some key => ret (Some (OpenAI_new key))
  end.

(** The body of the loop over the stored messages in [ensure_thread]. *)
Definition replay (client : OpenAI R) (thread : string) (msg : Message)
  : M R unit :=
  if String.eqb (role msg) "user" then
    call (threads_messages_create client thread "user" (content msg))
         (MessagesCreate thread "user" (content msg))
  else ret tt.

(** [ensure_thread], the same in both programs. *)
Definition ensure_thread (client : OpenAI R) (assistant_id : string) : M R string :=
  ss <- get_session ;;
  match thread_id ss with
  | Some t => ret t
  | None =>
      thread <- call (threads_create client) ThreadsCreate ;;
      put_session (Session (Some thread) (messages ss)) ;;
      ss' <- get_session ;;
      match messages ss' with
      | Some ms => for_each (replay client thread) ms
      | None => ret tt
      end ;;
      ret thread
  end.

(** The polling loop
    [while run.status not in {...}: time.sleep(0.5); run = retrieve(...)].
    [fuel] bounds the number of polls; the source has no bound. *)
Fixpoint poll (fuel : nat) (client : OpenAI R) (thread : string) (run : Run)
  : M R Run :=
  if is_terminal (run_status run) then ret run
  else
    match fuel with
    | O => still_polling
    | S fuel' =>
        emit Sleep ;;
        run' <- call (threads_runs_retrieve client thread (run_id run))
                     (RunsRetrieve thread (run_id run)) ;;
        poll fuel' client thread run'
    end.

Definition status_message (status : string) : string :=
  "⚠️ Assistant run ended with status **" ++ status ++ "**.".

Definition no_response : string := "(No assistant response)".

(** The part the two [call_assistant] share: [prompt] is the content
    pushed for the user's text and [reply_of] reads the reply out of the
    newest message of the thread. *)
Definition call_assistant_with
    (prompt : string -> string) (reply_of : ThreadMessage -> M R string)
    (fuel : nat) (user_text : string) : M R string :=
  client <- get_client ;;
  match client with
  | None => ret ""
  | Some client =>
      thread <- ensure_thread client assistant_id ;;
      call (threads_messages_create client thread "user" (prompt user_text))
           (MessagesCreate thread "user" (prompt user_text)) ;;
      run <- call (threads_runs_create client thread assistant_id)
                  (RunsCreate thread assistant_id) ;;
      run <- poll fuel client thread run ;;
      if negb (String.eqb (run_status run) "completed") then
        ret (status_message (run_status run))
      else
        data <- call (threads_messages_list client thread "desc" 1)
                     (MessagesList thread "desc" 1) ;;
        match data with
        | message :: _ => reply_of message
        | [] => ret no_response
        end
  end.

(** The part the two scripts share, for one rerun of the script: the
    history is initialised when absent, and a non-empty [user_input] is
    appended, answered, and the answer appended.  Rendering of the bubbles
    is not modelled. *)
Definition script_with
    (call_assistant : string -> M R string) (show : string -> M R unit)
    (user_input : option string) : M R unit :=
  ss <- get_session ;;
  match messages ss with
  | None => put_session (Session (thread_id ss) (Some []))
  | Some _ => ret tt
  end ;;
  match user_input with
  | None | Some EmptyString => ret tt
  | Some user_input =>
      append_message "user" user_input ;;
      assistant_reply <- call_assistant user_input ;;
      append_message "assistant" assistant_reply ;;
      show assistant_reply
  end.

(** A session: the script rerun once per input, the session state and the
    service carried from one rerun to the next. *)
Fixpoint session_with (script : option string -> M R unit)
    (inputs : list (option string)) : M R unit :=
  match inputs with
  | [] => ret tt
  | i :: inputs' => script i ;; session_with script inputs'
  end.
End Gateway.

(** *** [app.py] *)

Module App.
Section Program.
Context {R : Type}.
Variable OpenAI_new : string -> OpenAI R.

(** [messages.data[0].content[0].text.value]: [IndexError] on an empty
    content list, [AttributeError] on a block without a [text] field. *)
Definition first_text_value (message : ThreadMessage) : outcome string :=
  match tm_content message with
  | [] => Raise IndexError
  | TextContentBlock value :: _ => Ret value
  | _ :: _ => Raise AttributeError
  end.

Definition first_text (message : ThreadMessage) : M R string :=
  pure (first_text_value message).

Definition call_assistant (fuel : nat) (user_text : string) : M R string :=
  client <- get_client OpenAI_new ;;
  match client with
  | None => ret ""
  | Some client =>
      thread <- ensure_thread client assistant_id ;;
      call (threads_messages_create client thread "user" user_text)
           (MessagesCreate thread "user" user_text) ;;
      run <- call (threads_runs_create client thread assistant_id)
                  (RunsCreate thread assistant_id) ;;
      run <- poll fuel client thread run ;;
      if negb (String.eqb (run_status run) "completed") then
        ret (status_message (run_status run))
      else
        data <- call (threads_messages_list client thread "desc" 1)
                     (MessagesList thread "desc" 1) ;;
        match data with
        | message :: _ => first_text message
        | [] => ret "(No assistant response)"
        end
  end.

(** One rerun of the script.  Drawing again the bubbles of earlier messages
    reads the history and is not modelled. *)
Definition script (fuel : nat) (user_input : option string) : M R unit :=
  ss <- get_session ;;
  match messages ss with
  | None => put_session (Session (thread_id ss) (Some []))
  | Some _ => ret tt
  end ;;
  match user_input with
  | None | Some EmptyString => ret tt
  | Some user_input =>
      append_message "user" user_input ;;
      assistant_reply <- call_assistant fuel user_input ;;
      append_message "assistant" assistant_reply ;;
      ret tt
  end.
End Program.
End App.

(** *** [chart_app.py] *)

Module ChartApp.
Section Program.
Context {R : Type}.
Variable OpenAI_new : string -> OpenAI R.

(** The f-string [enhanced_prompt]. *)
Definition enhanced_prompt (user_text : string) : string :=
  nl ++ "    " ++ user_text ++ nl ++
  "    " ++ nl ++
  "    If the user's request involves data that could be visualized, please include a bar chart." ++ nl ++
  "    Format the data as a list of lists where each inner list contains [label, value]." ++ nl ++
  "    Example: [[" ++ dquote ++ "Category A" ++ dquote ++ ", 10], ["
    ++ dquote ++ "Category B" ++ dquote ++ ", 20]]" ++ nl ++
  "    ".

(** One turn of the loop over [message.content]. *)
Definition add_part (content_parts : list string) (content : ContentBlock)
  : list string :=
  match content with
  | TextContentBlock value => content_parts ++ [value]
  | ImageFileContentBlock _ => content_parts ++ ["[Image]"]
  | _ => content_parts
  end.

(** The loop from [content_parts = []] and [" ".join(content_parts)]. *)
Definition joined_value (message : ThreadMessage) : string :=
  let content_parts := fold_left add_part (tm_content message) [] in
  String.concat " " content_parts.

Definition joined_parts (message : ThreadMessage) : M R string :=
  ret (joined_value message).

Definition call_assistant (fuel : nat) (user_text : string) : M R string :=
  client <- get_client OpenAI_new ;;
  match client with
  | None => ret ""
  | Some client =>
      let enhanced_prompt := enhanced_prompt user_text in
      thread <- ensure_thread client assistant_id ;;
      call (threads_messages_create client thread "user" enhanced_prompt)
           (MessagesCreate thread "user" enhanced_prompt) ;;
      run <- call (threads_runs_create client thread assistant_id)
                  (RunsCreate thread assistant_id) ;;
      run <- poll fuel client thread run ;;
      if negb (String.eqb (run_status run) "completed") then
        ret (status_message (run_status run))
      else
        data <- call (threads_messages_list client thread "desc" 1)
                     (MessagesList thread "desc" 1) ;;
        match data with
        | message :: _ => joined_parts message
        | [] => ret "(No assistant response)"
        end
  end.

(** [create_bar_chart(df)] after [df, _ = extract_chart_data(reply)]. *)
Definition show_chart (assistant_reply : string) : M R unit :=
  match extract_chart_data assistant_reply with
  | Some df => emit (StBarChart df)
  | None => ret tt
  end.

(** One rerun of the script.  Drawing again the bubbles and the charts of
    earlier messages reads the history and is not modelled. *)
Definition script (fuel : nat) (user_input : option string) : M R unit :=
  ss <- get_session ;;
  match messages ss with
  | None => put_session (Session (thread_id ss) (Some []))
  | Some _ => ret tt
  end ;;
  match user_input with
  | None | Some EmptyString => ret tt
  | Some user_input =>
      append_message "user" user_input ;;
      assistant_reply <- call_assistant fuel user_input ;;
      append_message "assistant" assistant_reply ;;
      show_chart assistant_reply
  end.
End Program.
End ChartApp.

(** ** Reading traces and histories *)

(** The messages of a session, an absent key counting as no message. *)
Definition history (ss : SessionState) : list Message :=
  match messages ss with
  | Some ms => ms
  | None => []
  end.

(** The statuses the service reported for runs, in order. *)
Fixpoint observed_statuses (tr : list event) : list string :=
  match tr with
  | [] => []
  | RunsCreate _ _ (inr run) :: tr'
  | RunsRetrieve _ _ (inr run) :: tr' => run_status run :: observed_statuses tr'
  | _ :: tr' => observed_statuses tr'
  end.

Definition is_runs_create (e : event) : bool :=
  match e with RunsCreate _ _ _ => true | _ => false end.

Definition is_messages_list (e : event) : bool :=
  match e with MessagesList _ _ _ _ => true | _ => false end.

(** No credential: the variable is unset or empty. *)
Definition no_key {R} (w : World R) : Prop :=
  OPENAI_API_KEY w = None \/ OPENAI_API_KEY w = Some "".

(** The configuration error shown to the user. *)
Definition config_error : event :=
  StError "Please set the OPENAI_API_KEY environment variable ✨".

(** The contents of the stored user messages, in order. *)
Definition user_contents (ms : list Message) : list string :=
  map content (filter (fun m => String.eqb (role m) "user") ms).

(** The contents pushed as user turns, in order. *)
Fixpoint pushed_contents (tr : list event) : list string :=
  match tr with
  | [] => []
  | MessagesCreate _ _ c _ :: tr' => c :: pushed_contents tr'
  | _ :: tr' => pushed_contents tr'
  end.

(** What a content segment contributes to the joined reply. *)
Definition segment_text (c : ContentBlock) : list string :=
  match c with
  | TextContentBlock value => [value]
  | ImageFileContentBlock _ => ["[Image]"]
  | ImageURLContentBlock _ | RefusalContentBlock _ => []
  end.

(** The reply as the contract words it: every segment in order, text
    verbatim and anything else as the placeholder, joined by one space. *)
Definition placeholder_or_text (c : ContentBlock) : string :=
  match c with
  | TextContentBlock value => value
  | _ => "[Image]"
  end.

Definition spec_joined_reply (segments : list ContentBlock) : string :=
  String.concat " " (map placeholder_or_text segments).

(** The reply of the chart program: segments that are neither text nor an
    image file contribute nothing. *)
Definition joined_reply (segments : list ContentBlock) : string :=
  String.concat " " (flat_map segment_text segments).

(** Segments the chart program renders. *)
Definition rendered (c : ContentBlock) : bool :=
  match c with
  | TextContentBlock _ | ImageFileContentBlock _ => true
  | _ => false
  end.

(** The world a submission leaves when no key is configured. *)
Definition after_no_key {R} (text : string) (w : World R) : World R :=
  mkWorld (OPENAI_API_KEY w)
    (Session (thread_id (session_state w))
       (Some (history (session_state w)
                ++ [Msg "user" text; Msg "assistant" ""])))
    (remote w).

(** [r2] is what [r1] becomes with a larger polling budget: the same, unless
    [r1] had exhausted the budget. *)
Definition refines {R A} (r1 r2 : outcome A * World R * list event) : Prop :=
  fst (fst r1) = StillPolling \/ r1 = r2.

(** [N] submissions and their replies as a history: user, assistant, user,
    assistant, ... *)
Fixpoint interleave (texts replies : list string) : list Message :=
  match texts, replies with
  | u :: texts', a :: replies' =>
      Msg "user" u :: Msg "assistant" a :: interleave texts' replies'
  | _, _ => []
  end.

(** ** The shape of a call's trace

    Every exit of [call_assistant], as the outcome and the trace it leaves.
    [content] is what the call pushes as the user turn and [reply] how it
    reads the reply out of the newest message. *)

(** Events of thread set-up and events of polling. *)
Definition setup_event (e : event) : Prop :=
  match e with
  | ThreadsCreate _ | MessagesCreate _ _ _ _ => True
  | _ => False
  end.

Definition poll_event (e : event) : Prop :=
  match e with
  | Sleep | RunsRetrieve _ _ _ => True
  | _ => False
  end.

Definition is_failure {A} (o : outcome A) : Prop :=
  match o with
  | Ret _ => False
  | _ => True
  end.

Section TraceShape.
Variable content : string.
Variable reply : ThreadMessage -> outcome string.

(** After the polling loop has seen the terminal status of [run]. *)
Inductive finish (thread : string) (run : Run)
  : outcome string -> list event -> Prop :=
| fin_status :
    run_status run <> "completed" ->
    finish thread run (Ret (status_message (run_status run))) []
| fin_list_failed e :
    run_status run = "completed" ->
    finish thread run (Raise e) [MessagesList thread "desc" 1 (inl e)]
| fin_empty :
    run_status run = "completed" ->
    finish thread run (Ret no_response) [MessagesList thread "desc" 1 (inr [])]
| fin_reply message rest :
    run_status run = "completed" ->
    finish thread run (reply message)
      [MessagesList thread "desc" 1 (inr (message :: rest))].

(** From the answer to [runs.create] on. *)
Inductive run_from (thread : string)
  : exn + Run -> outcome string -> list event -> Prop :=
| rf_create_failed e :
    run_from thread (inl e) (Raise e) []
| rf_poll_stopped run0 o t_poll :
    Forall poll_event t_poll ->
    is_terminal (last (observed_statuses t_poll) (run_status run0)) = false ->
    is_failure o ->
    run_from thread (inr run0) o t_poll
| rf_polled run0 run o t_poll t_fin :
    Forall poll_event t_poll ->
    is_terminal (run_status run) = true ->
    last (observed_statuses t_poll) (run_status run0) = run_status run ->
    finish thread run o t_fin ->
    run_from thread (inr run0) o (t_poll ++ t_fin).

(** A whole call; [handle] is the thread identifier the session holds
    when the call ends. *)
Inductive gateway_run (handle : option string)
  : outcome string -> list event -> Prop :=
| gr_no_key :
    gateway_run handle (Ret "") [config_error]
| gr_setup_failed o t_ens :
    Forall setup_event t_ens -> is_failure o ->
    gateway_run handle o t_ens
| gr_push_failed t_ens thread e :
    Forall setup_event t_ens ->
    handle = Some thread ->
    gateway_run handle (Raise e)
      (t_ens ++ [MessagesCreate thread "user" content (inl e)])
| gr_started t_ens thread r o t_tail :
    Forall setup_event t_ens ->
    handle = Some thread ->
    run_from thread r o t_tail ->
    gateway_run handle o
      (t_ens ++ MessagesCreate thread "user" content (inr tt)
             :: RunsCreate thread assistant_id r :: t_tail).
End TraceShape.

(** ** The service's side of a call

    What the service does when it is asked, stated on its operations and
    its state, not on what a call made of it. *)

Section ServiceSide.
Context {R : Type}.
Variable client : OpenAI R.

(** The service accepts the user turns [contents], pushed on [thread] one
    after the other from the state [r], and is left in the state [r']. *)
Inductive pushes_accepted (thread : string) : list string -> R -> R -> Prop :=
| pa_none r : pushes_accepted thread [] r r
| pa_push c cs r r1 r' :
    threads_messages_create client thread "user" c r = (inr tt, r1) ->
    pushes_accepted thread cs r1 r' ->
    pushes_accepted thread (c :: cs) r r'.

(** The service ends the run: asked for the status of [run] from the state
    [r], it answers [polls] times before the status it reports is terminal,
    and that status is [status]. *)
Inductive run_ends (thread : string) : Run -> R -> nat -> string -> R -> Prop :=
| re_ended run r :
    is_terminal (run_status run) = true ->
    run_ends thread run r 0 (run_status run) r
| re_polled run r run' r1 polls status r' :
    is_terminal (run_status run) = false ->
    threads_runs_retrieve client thread (run_id run) r = (inr run', r1) ->
    run_ends thread run' r1 polls status r' ->
    run_ends thread run r (S polls) status r'.

(** The thread a call works on from the world [w]: the one the session
    holds, or one the service creates, on which the stored user messages
    are then pushed again. *)
Definition handle_opened (w : World R) (thread : string) (r0 : R)
    (replayed : list string) : Prop :=
  match thread_id (session_state w) with
  | Some t => thread = t /\ r0 = remote w /\ replayed = []
  | None =>
      threads_create client (remote w) = (inr thread, r0) /\
      replayed = user_contents (history (session_state w))
  end.

(** From the world [w] the service opens the thread, accepts the turns
    pushed on it, the last of which is [content], starts a run and ends it
    with [status] after [polls] polls. *)
Definition service_ends_run (w : World R) (content status : string)
    (polls : nat) : Prop :=
  exists thread r0 replayed r1 run r2 r3,
    handle_opened w thread r0 replayed /\
    pushes_accepted thread (replayed ++ [content]) r0 r1 /\
    threads_runs_create client thread assistant_id r1 = (inr run, r2) /\
    run_ends thread run r2 polls status r3.
End ServiceSide.

(** ** A scripted service

    A service that answers every call: it hands out one thread, reports the
    run statuses of a script one after the other, and lists a fixed reply. *)

Module Scripted.

Record service := mkService {
  statuses : list string;
  latest : list ThreadMessage;
  posted : list (string * string)
}.

Definition next_run (s : service) : (exn + Run) * service :=
  (inr (mkRun "run_1" (hd "completed" (statuses s))),
   mkService (tl (statuses s)) (latest s) (posted s)).

Definition client (api_key : string) : OpenAI service :=
  mkOpenAI service
    (fun s => (inr "thread_1", s))
    (fun thread _ content s =>
       (inr tt, mkService (statuses s) (latest s) (posted s ++ [(thread, content)])))
    (fun _ _ s => next_run s)
    (fun _ _ s => next_run s)
    (fun _ _ limit s => (inr (firstn limit (latest s)), s)).

Definition world (key : option string) (ss : SessionState)
    (script : list string) (reply : list ContentBlock) : World service :=
  mkWorld key ss (mkService script [mkThreadMessage "assistant" reply] []).

End Scripted.

(** ** Concrete sessions and texts, to run the programs on *)

Module Fixtures.
Import Scripted.

(** A configured session with its handle in place. *)
Definition ready (script : list string) (reply : list ContentBlock)
  : World service :=
  world (Some "sk-test") (Session (Some "thread_0") (Some [])) script reply.

(** A session without a credential, holding an earlier exchange. *)
Definition keyless : World service :=
  world None (Session None (Some [Msg "user" "a"; Msg "assistant" "b"]))
    ["completed"] [TextContentBlock "x"].

(** A reply of two text segments around an image file. *)
Definition mixed_reply : list ContentBlock :=
  [TextContentBlock "Totals"; ImageFileContentBlock "file_1";
   TextContentBlock "A: 3"].

(** A configured session that lost its handle after three messages. *)
Definition rehydrated : World service :=
  world (Some "sk-test")
    (Session None
       (Some [Msg "user" "a"; Msg "assistant" "b"; Msg "user" "c"]))
    [] [].

(** A fresh session of the chart program. *)
Definition fresh : World service :=
  world (Some "sk-test") (Session None None)
    ["queued"; "completed"; "in_progress"; "failed"]
    [TextContentBlock "Wheat: 12"].


(** A configured session that lost its handle; the next run is cancelled
    after one poll. *)
Definition lapsed : World service :=
  world (Some "sk-test")
    (Session None (Some [Msg "user" "a"; Msg "assistant" "b"]))
    ["in_progress"; "cancelled"] [TextContentBlock "late"].

(** A no-break space, U+00A0. *)
Definition nbsp : string := String "194"%char (String "160"%char EmptyString).

(** A label between two no-break spaces. *)
Definition padded_label : string := (nbsp ++ "Rice" ++ nbsp)%string.

(** The number 53 written with a European five and an Arabic-Indic three. *)
Definition arabic_value : string := "5٣".

Definition arabic_text : string :=
  (padded_label ++ ":" ++ nbsp ++ arabic_value)%string.

End Fixtures.

(** ** The extractor's contract in words *)

(** One occurrence of "non-colon characters, colon, optional white space,
    one or more digits". *)
Definition is_occurrence (label ws digits : list codepoint) : Prop :=
  label <> [] /\ forallb is_not_colon label = true /\
  forallb is_space ws = true /\
  digits <> [] /\ forallb is_digit digits = true.

Definition occurs_in (text : string) : Prop :=
  exists pre label ws digits post,
    chars text = pre ++ label ++ [colon] ++ ws ++ digits ++ post /\
    is_occurrence label ws digits.


(** ** More readings of the extractor's result *)

(** The text is empty, or neither its first nor its last character is
    white space. *)
Definition trimmed (s : string) : Prop :=
  match chars s with
  | [] => True
  | c :: _ => is_space c = false
  end /\
  match rev (chars s) with
  | [] => True
  | c :: _ => is_space c = false
  end.

(** An occurrence starts at the head of [t]. *)
Definition starts_occurrence (t : list codepoint) : Prop :=
  exists label ws digits post,
    t = label ++ [colon] ++ ws ++ digits ++ post /\
    is_occurrence label ws digits.

Definition starts_with_digit (s : list codepoint) : bool :=
  match s with
  | d :: _ => is_digit d
  | [] => false
  end.

(** ** More on calls and their traces *)

(** The exception a recorded call ended with, if it did. *)
Definition failure_of (e : event) : option exn :=
  match e with
  | ThreadsCreate (inl x)
  | MessagesCreate _ _ _ (inl x)
  | RunsCreate _ _ (inl x)
  | RunsRetrieve _ _ (inl x)
  | MessagesList _ _ _ (inl x) => Some x
  | _ => None
  end.

Definition raised {A} (o : outcome A) : option exn :=
  match o with
  | Raise x => Some x
  | _ => None
  end.

(** The event creates no thread and, if it names a thread, names [t]. *)
Definition addressed_to (t : string) (e : event) : Prop :=
  match e with
  | ThreadsCreate _ => False
  | MessagesCreate t' _ _ _ | RunsCreate t' _ _
  | RunsRetrieve t' _ _ | MessagesList t' _ _ _ => t' = t
  | StError _ | StBarChart _ | Sleep => True
  end.

Definition is_sleep (e : event) : bool :=
  match e with Sleep => true | _ => false end.

Definition is_retrieve (e : event) : bool :=
  match e with RunsRetrieve _ _ _ => true | _ => false end.

(** The part of [call_assistant] after the handle is resolved: push the
    user's turn, start the run, poll, read the reply. *)
Definition exchange {R} (client : OpenAI R) (content : string)
    (reply_of : ThreadMessage -> M R string) (fuel : nat) (thread : string)
  : M R string :=
  call (threads_messages_create client thread "user" content)
       (MessagesCreate thread "user" content) ;;
  run <- call (threads_runs_create client thread assistant_id)
              (RunsCreate thread assistant_id) ;;
  run <- poll fuel client thread run ;;
  if negb (String.eqb (run_status run) "completed") then
    ret (status_message (run_status run))
  else
    data <- call (threads_messages_list client thread "desc" 1)
                 (MessagesList thread "desc" 1) ;;
    match data with
    | message :: _ => reply_of message
    | [] => ret no_response
    end.

(** The polling loop from [run] on: what it does and how it ends. *)
Inductive poll_trace (thread : string)
  : Run -> list event -> outcome Run -> Prop :=
| pt_done run :
    is_terminal (run_status run) = true ->
    poll_trace thread run [] (Ret run)
| pt_budget run :
    is_terminal (run_status run) = false ->
    poll_trace thread run [] StillPolling
| pt_raise run x :
    is_terminal (run_status run) = false ->
    poll_trace thread run
      [Sleep; RunsRetrieve thread (run_id run) (inl x)] (Raise x)
| pt_step run run' tr o :
    is_terminal (run_status run) = false ->
    poll_trace thread run' tr o ->
    poll_trace thread run
      (Sleep :: RunsRetrieve thread (run_id run) (inr run') :: tr) o.

(** The exits of [exchange]. *)
Inductive exchange_run (content : string)
    (reply : ThreadMessage -> outcome string) (thread : string)
  : outcome string -> list event -> Prop :=
| xr_push_failed x :
    exchange_run content reply thread (Raise x)
      [MessagesCreate thread "user" content (inl x)]
| xr_create_failed x :
    exchange_run content reply thread (Raise x)
      [MessagesCreate thread "user" content (inr tt);
       RunsCreate thread assistant_id (inl x)]
| xr_poll_raised run0 t_poll x :
    poll_trace thread run0 t_poll (Raise x) ->
    exchange_run content reply thread (Raise x)
      (MessagesCreate thread "user" content (inr tt)
         :: RunsCreate thread assistant_id (inr run0) :: t_poll)
| xr_still_polling run0 t_poll :
    poll_trace thread run0 t_poll StillPolling ->
    exchange_run content reply thread StillPolling
      (MessagesCreate thread "user" content (inr tt)
         :: RunsCreate thread assistant_id (inr run0) :: t_poll)
| xr_polled run0 run t_poll o t_fin :
    poll_trace thread run0 t_poll (Ret run) ->
    finish reply thread run o t_fin ->
    exchange_run content reply thread o
      (MessagesCreate thread "user" content (inr tt)
         :: RunsCreate thread assistant_id (inr run0) :: t_poll ++ t_fin).

(** The event shows the user nothing. *)
Definition shows_nothing (e : event) : Prop :=
  match e with
  | StError _ | StBarChart _ => False
  | _ => True
  end.

(** Every sleep is directly followed by a status request and every status
    request directly preceded by a sleep. *)
Fixpoint sleeps_paired (tr : list event) : bool :=
  match tr with
  | [] => true
  | Sleep :: RunsRetrieve _ _ _ :: tr' => sleeps_paired tr'
  | Sleep :: _ => false
  | RunsRetrieve _ _ _ :: _ => false
  | _ :: tr' => sleeps_paired tr'
  end.

(** No status but the last is terminal. *)
Fixpoint stops_at_terminal (statuses : list string) : bool :=
  match statuses with
  | [] => true
  | s :: rest =>
      match rest with
      | [] => true
      | _ :: _ => negb (is_terminal s) && stops_at_terminal rest
      end
  end.

(** A trace in which only the last call may have failed, the computation
    then raising what that call raised. *)
Definition clean (tr : list event) : Prop :=
  Forall (fun e => failure_of e = None) tr.

Definition orderly (raised_by : option exn) (tr : list event) : Prop :=
  clean tr \/
  exists pre ev x,
    tr = pre ++ [ev] /\ clean pre /\ failure_of ev = Some x /\
    raised_by = Some x.

(** The world in which [call_assistant] runs during a submission: the
    user's message is already in the history. *)
Definition with_user_message {R} (text : string) (w : World R) : World R :=
  mkWorld (OPENAI_API_KEY w)
    (Session (thread_id (session_state w))
       (Some (history (session_state w) ++ [Msg "user" text])))
    (remote w).

(** The world after the reply was appended as well. *)
Definition with_reply {R} (reply : string) (w : World R) : World R :=
  mkWorld (OPENAI_API_KEY w)
    (Session (thread_id (session_state w))
       (Some (history (session_state w) ++ [Msg "assistant" reply])))
    (remote w).

(** A service on which no run ever reaches a terminal status: creating a
    run and asking for its status always answer, with a status that is not
    terminal. *)
Definition never_done {R} (client : OpenAI R) : Prop :=
  (forall thread aid r,
     exists run r',
       threads_runs_create client thread aid r = (inr run, r') /\
       is_terminal (run_status run) = false) /\
  (forall thread rid r,
     exists run r',
       threads_runs_retrieve client thread rid r = (inr run, r') /\
       is_terminal (run_status run) = false).

(** The session after a rerun with nothing submitted. *)
Definition rested {R} (w : World R) : World R :=
  mkWorld (OPENAI_API_KEY w)
    (Session (thread_id (session_state w)) (Some (history (session_state w))))
    (remote w).

(** ** The whole page

    One rerun of each script from its first line: the sidebar, the
    initialisation of the history, in the chart program the charts of the
    stored replies, and the handling of the input.  The bubbles, the logo and
    the titles are not modelled; nor is the encoding of the export as JSON. *)

(** The dictionary [data] of the sidebar, offered for download. *)
Record Export := mkExport {
  export_assistant_id : string;
  exported_at : string;
  export_messages : list Message
}.

(** The charts the stored replies give, in order. *)
Definition charts_of (ms : list Message) : list (list ChartRow) :=
  flat_map (fun msg =>
              if String.eqb (role msg) "assistant" then
                match extract_chart_data (content msg) with
                | Some df => [df]
                | None => []
                end
              else []) ms.

(** The charts drawn in a trace, in order. *)
Fixpoint shown_charts (tr : list event) : list (list ChartRow) :=
  match tr with
  | [] => []
  | StBarChart df :: tr' => df :: shown_charts tr'
  | _ :: tr' => shown_charts tr'
  end.

Section Page.
Context {R : Type}.
Variable OpenAI_new : string -> OpenAI R.
(** [datetime.datetime.utcnow().isoformat()] at this rerun *)
Variable utcnow : string.

(** The sidebar: ["messages": st.session_state.messages if "messages" in
    st.session_state else []]. *)
Definition sidebar : M R Export :=
  ss <- get_session ;;
  ret (mkExport assistant_id (utcnow ++ "Z") (history ss)).

(** [if "messages" not in st.session_state: st.session_state.messages = []] *)
Definition init_messages : M R unit :=
  ss <- get_session ;;
  match messages ss with
  | None => put_session (Session (thread_id ss) (Some []))
  | Some _ => ret tt
  end.

(** The loop of [chart_app.py] that draws the charts of earlier replies. *)
Definition redraw_charts : M R unit :=
  ss <- get_session ;;
  match messages ss with
  | Some ms =>
      for_each (fun msg =>
                  if String.eqb (role msg) "assistant" then
                    ChartApp.show_chart (content msg)
                  else ret tt) ms
  | None => raise AttributeError
  end.

(** The block [if user_input: ...]. *)
Definition submission (call_assistant : string -> M R string)
    (show : string -> M R unit) (user_input : option string) : M R unit :=
  match user_input with
  | None | Some EmptyString => ret tt
  | Some user_input =>
      append_message "user" user_input ;;
      assistant_reply <- call_assistant user_input ;;
      append_message "assistant" assistant_reply ;;
      show assistant_reply
  end.

(** [app.py] from top to bottom; the result is the export of the sidebar. *)
Definition app_page (fuel : nat) (user_input : option string) : M R Export :=
  data <- sidebar ;;
  init_messages ;;
  submission (App.call_assistant OpenAI_new fuel) (fun _ => ret tt) user_input ;;
  ret data.

(** [chart_app.py] from top to bottom. *)
Definition chart_page (fuel : nat) (user_input : option string) : M R Export :=
  data <- sidebar ;;
  init_messages ;;
  redraw_charts ;;
  submission (ChartApp.call_assistant OpenAI_new fuel) ChartApp.show_chart
    user_input ;;
  ret data.
End Page.

(** The outcome of a page whose script ended with [o]. *)
Definition page_outcome (data : Export) (o : outcome unit) : outcome Export :=
  match o with
  | Ret _ => Ret data
  | Raise x => Raise x
  | StillPolling => StillPolling
  end.

(** The export a rerun offers when it starts in [w]. *)
Definition export_of {R} (utcnow : string) (w : World R) : Export :=
  mkExport assistant_id (utcnow ++ "Z") (history (session_state w)).

(** ** Services that misbehave *)

(** A service whose runs never leave "in_progress". *)
Module Stuck.

Definition client (api_key : string) : OpenAI unit :=
  mkOpenAI unit
    (fun s => (inr "thread_1", s))
    (fun _ _ _ s => (inr tt, s))
    (fun _ _ s => (inr (mkRun "run_1" "in_progress"), s))
    (fun _ _ s => (inr (mkRun "run_1" "in_progress"), s))
    (fun _ _ _ s => (inr [], s)).

Definition world (ss : SessionState) : World unit :=
  mkWorld (Some "sk-test") ss tt.

End Stuck.

(** A service that answers a given number of calls and then loses the
    connection: every later call raises. *)
Module Flaky.

Definition answer {A} (a : A) (calls_left : nat) : (exn + A) * nat :=
  match calls_left with
  | O => (inl (APIError "connection lost"), O)
  | S n => (inr a, n)
  end.

Definition client (api_key : string) : OpenAI nat :=
  mkOpenAI nat
    (answer "thread_1")
    (fun _ _ _ => answer tt)
    (fun _ _ => answer (mkRun "run_1" "completed"))
    (fun _ _ => answer (mkRun "run_1" "completed"))
    (fun _ _ _ => answer [mkThreadMessage "assistant" [TextContentBlock "ok"]]).

Definition world (ss : SessionState) (calls_left : nat) : World nat :=
  mkWorld (Some "sk-test") ss calls_left.

End Flaky.

(** ** More concrete sessions *)

Module Cases.

(** Two stored user messages, and a connection good for two calls. *)
Definition interrupted : World nat :=
  Flaky.world (Session None (Some [Msg "user" "a"; Msg "user" "b"])) 2.

(** A first visit, and a connection good for two calls. *)
Definition short_lived : World nat :=
  Flaky.world (Session None None) 2.

(** A configured first visit to a service that answers. *)
Definition first_visit : World Scripted.service :=
  Scripted.world (Some "sk-test") (Session None None) ["completed"]
    [TextContentBlock "Hello"].

(** A completed run on a thread that lists no message. *)
Definition silent : World Scripted.service :=
  mkWorld (Some "sk-test") (Session (Some "thread_0") (Some []))
    (Scripted.mkService ["completed"] [] []).

(** A reply of two text segments. *)
Definition two_parts : World Scripted.service :=
  Scripted.world (Some "sk-test") (Session (Some "thread_0") (Some []))
    ["completed"] [TextContentBlock "a"; TextContentBlock "b"].

(** A run that is queued, then in progress, then completed. *)
Definition slow : World Scripted.service :=
  Scripted.world (Some "sk-test") (Session (Some "thread_0") (Some []))
    ["queued"; "in_progress"; "completed"] [TextContentBlock "done"].

(** A session on the service whose runs never end. *)
Definition waiting : World unit :=
  Stuck.world (Session (Some "thread_0") (Some [])).

(** A session that already holds a reply with figures. *)
Definition charted : World Scripted.service :=
  Scripted.world (Some "sk-test")
    (Session (Some "thread_0")
       (Some [Msg "user" "Rice: 1"; Msg "assistant" "Rice: 40, Maize: 7"]))
    ["completed"] [TextContentBlock "Wheat: 12"].

End Cases.

(** ** Facts about strings *)

Module StrFacts.
Import Str.
Local Open Scope string_scope.

Lemma app_nil_r (s : string) : s ++ "" = s.
Proof. induction s; simpl; congruence. Qed.

Lemma app_assoc (a b c : string) : (a ++ b) ++ c = a ++ b ++ c.
Proof. induction a; simpl; congruence. Qed.

Lemma length_app (a b : string) :
  String.length (a ++ b) = String.length a + String.length b.
Proof. induction a; simpl; congruence. Qed.

Lemma all_app f (a b : string) : all f (a ++ b) = all f a && all f b.
Proof.
  induction a as [|x a IH]; simpl; [reflexivity|].
  rewrite IH. now rewrite andb_assoc.
Qed.

Lemma rev_onto_app (s acc : string) : rev_onto s acc = rev s ++ acc.
Proof.
  unfold rev. revert acc.
  induction s as [|x s IH]; intro acc; simpl; [reflexivity|].
  rewrite IH, (IH (String x "")), app_assoc. reflexivity.
Qed.

Lemma rev_cons x (s : string) : rev (String x s) = rev s ++ String x "".
Proof. unfold rev at 1. simpl. apply rev_onto_app. Qed.

Lemma rev_app (a b : string) : rev (a ++ b) = rev b ++ rev a.
Proof.
  induction a as [|x a IH]; simpl.
  - now rewrite app_nil_r.
  - now rewrite !rev_cons, IH, app_assoc.
Qed.

Lemma rev_involutive (s : string) : rev (rev s) = s.
Proof.
  induction s as [|x s IH]; [reflexivity|].
  now rewrite rev_cons, rev_app, IH.
Qed.

Lemma all_rev f (s : string) : all f (rev s) = all f s.
Proof.
  induction s as [|x s IH]; [reflexivity|].
  rewrite rev_cons, all_app, IH. simpl.
  rewrite andb_true_r. apply andb_comm.
Qed.

Lemma prefix_app (a b : string) : String.prefix a (a ++ b) = true.
Proof.
  induction a as [|x a IH]; simpl.
  - now destruct b.
  - destruct (ascii_dec x x); [assumption | congruence].
Qed.

Lemma contains_app (pre sub post : string) :
  contains sub (pre ++ sub ++ post) = true.
Proof.
  induction pre as [|x pre IH]; simpl.
  - assert (H : forall s, String.prefix sub s = true -> contains sub s = true).
    { intros s H. destruct s; cbn [contains]; rewrite H; reflexivity. }
    apply H, prefix_app.
  - rewrite IH. apply orb_true_r.
Qed.

End StrFacts.

(** ** Code points and their bytes *)

Module Utf8Facts.
Import Str Utf8.

Local Ltac to_props :=
  repeat match goal with
  | H : (_ && _) = true |- _ => apply andb_true_iff in H as [? ?]
  | H : (_ && _) = false |- _ => apply andb_false_iff in H
  | H : (_ <? _)%N = true |- _ => apply N.ltb_lt in H
  | H : (_ <? _)%N = false |- _ => apply N.ltb_ge in H
  | H : (_ <=? _)%N = true |- _ => apply N.leb_le in H
  | H : (_ <=? _)%N = false |- _ => apply N.leb_gt in H
  | H : Some _ = Some _ |- _ => injection H as H
  end.

Lemma N_of_byte (n : N) : (n < 256)%N -> N_of_ascii (byte n) = n.
Proof. intro H. unfold byte. now apply N_ascii_embedding. Qed.

Lemma byte_bounded (b : ascii) : (N_of_ascii b < 256)%N.
Proof. apply N_ascii_bounded. Qed.

Lemma continuation_lt (b : ascii) (c : N) :
  continuation b = Some c -> (c < 64)%N.
Proof.
  unfold continuation.
  destruct ((128 <=? N_of_ascii b) && (N_of_ascii b <? 192))%N eqn:E;
    [|discriminate].
  intro H. to_props. lia.
Qed.

Local Ltac head_cases :=
  unfold head_char;
  repeat match goal with
  | |- context [if ?b then _ else _] => destruct b eqn:?
  | |- context [match ?s with EmptyString => _ | String _ _ => _ end] =>
      destruct s
  | |- context [match continuation ?b with Some _ => _ | None => _ end] =>
      let E := fresh "E" in
      destruct (continuation b) eqn:E; [apply continuation_lt in E|]
  end.

(** Only the byte of a colon is read as a colon. *)
Lemma head_char_colon (b0 : ascii) (s1 : string) :
  fst (head_char b0 s1) = colon -> b0 = ":"%char.
Proof.
  pose proof (byte_bounded b0) as Hb.
  assert (Hc : N_of_ascii b0 = colon -> b0 = ":"%char).
  { intro E. rewrite <- (ascii_N_embedding b0), E. reflexivity. }
  unfold colon in *.
  head_cases; cbn [fst]; to_props; intro Ec; try (exfalso; lia); auto.
Qed.

Lemma head_char_valid (b0 : ascii) (s1 : string) :
  valid (fst (head_char b0 s1)).
Proof.
  pose proof (byte_bounded b0) as Hb. unfold valid.
  head_cases; cbn [fst]; to_props; lia.
Qed.

Lemma decode_from_no_colon (s : string) (skip : nat) :
  all not_colon s = true ->
  forallb is_not_colon (decode_from skip s) = true.
Proof.
  revert skip. induction s as [|b0 s1 IH]; intros skip H; [reflexivity|].
  cbn [all] in H. apply andb_true_iff in H as [Hb H].
  destruct skip; cbn [decode_from]; [|now apply IH].
  pose proof (head_char_colon b0 s1) as Hc.
  destruct (head_char b0 s1) as [c k]. cbn [forallb fst] in *.
  rewrite IH by assumption. rewrite andb_true_r.
  unfold is_not_colon, is_colon.
  destruct (N.eqb_spec c colon) as [E|]; [|reflexivity].
  rewrite (Hc E) in Hb. discriminate.
Qed.

(** A text without the byte of a colon has no colon. *)
Lemma chars_no_colon (s : string) :
  all not_colon s = true -> forallb is_not_colon (chars s) = true.
Proof. apply decode_from_no_colon. Qed.

Lemma decode_from_valid (s : string) (skip : nat) :
  Forall valid (decode_from skip s).
Proof.
  revert skip. induction s as [|b0 s1 IH]; intro skip; [constructor|].
  destruct skip; cbn [decode_from]; [|apply IH].
  pose proof (head_char_valid b0 s1) as Hv.
  destruct (head_char b0 s1) as [c k]. constructor; [exact Hv|apply IH].
Qed.

Lemma chars_valid (s : string) : Forall valid (chars s).
Proof. apply decode_from_valid. Qed.

Lemma continuation_byte (m : N) :
  (m < 64)%N -> continuation (byte (0x80 + m)) = Some m.
Proof.
  intro H. unfold continuation. rewrite N_of_byte by lia.
  destruct (N.leb_spec 0x80 (0x80 + m)); [|lia].
  destruct (N.ltb_spec (0x80 + m) 0xC0); [|lia].
  cbn [andb]. f_equal. lia.
Qed.

Local Ltac test_is b :=
  match goal with
  | |- context [(?x <? ?y)%N] =>
      replace (x <? y)%N with b
        by (symmetry; first [apply N.ltb_lt; lia | apply N.ltb_ge; lia]);
      cbv iota
  | |- context [(?x <=? ?y)%N] =>
      replace (x <=? y)%N with b
        by (symmetry; first [apply N.leb_le; lia | apply N.leb_gt; lia]);
      cbv iota
  end.

Lemma head_char1 (c : N) (s : string) :
  (c < 0x80)%N -> head_char (byte c) s = (c, 0).
Proof.
  intro H. unfold head_char. rewrite N_of_byte by lia. cbv zeta.
  test_is true. reflexivity.
Qed.

Lemma head_char2 (q m : N) (s : string) :
  (2 <= q < 32)%N -> (m < 64)%N ->
  head_char (byte (0xC0 + q)) (String (byte (0x80 + m)) s)
    = ((q * 64 + m)%N, 1).
Proof.
  intros Hq Hm. unfold head_char. rewrite N_of_byte by lia. cbv zeta.
  test_is false. test_is false. test_is true.
  rewrite continuation_byte by lia. f_equal. lia.
Qed.

Lemma head_char3 (q m1 m0 : N) (s : string) :
  (q < 16)%N -> (m1 < 64)%N -> (m0 < 64)%N ->
  (0x800 <= q * 4096 + m1 * 64 + m0)%N ->
  head_char (byte (0xE0 + q))
    (String (byte (0x80 + m1)) (String (byte (0x80 + m0)) s))
    = ((q * 4096 + m1 * 64 + m0)%N, 2).
Proof.
  intros Hq H1 H0 Hmin. unfold head_char. rewrite N_of_byte by lia. cbv zeta.
  test_is false. test_is false. test_is false. test_is true.
  rewrite !continuation_byte by lia.
  replace (0xE0 + q - 0xE0)%N with q by lia.
  test_is true. reflexivity.
Qed.

Lemma head_char4 (q m2 m1 m0 : N) (s : string) :
  (q < 5)%N -> (m2 < 64)%N -> (m1 < 64)%N -> (m0 < 64)%N ->
  (0x10000 <= q * 262144 + m2 * 4096 + m1 * 64 + m0 < 0x110000)%N ->
  head_char (byte (0xF0 + q))
    (String (byte (0x80 + m2))
       (String (byte (0x80 + m1)) (String (byte (0x80 + m0)) s)))
    = ((q * 262144 + m2 * 4096 + m1 * 64 + m0)%N, 3).
Proof.
  intros Hq H2 H1 H0 Hc. unfold head_char. rewrite N_of_byte by lia. cbv zeta.
  test_is false. test_is false. test_is false. test_is false. test_is true.
  rewrite !continuation_byte by lia.
  replace (0xF0 + q - 0xF0)%N with q by lia.
  test_is true. test_is true. reflexivity.
Qed.

Lemma div_bound (c d b : N) : (d <> 0 -> c < d * b -> c / d < b)%N.
Proof. intros Hd H. now apply N.Div0.div_lt_upper_bound. Qed.

(** Reading back the bytes of a code point. *)
Lemma decode_encode_char (c : codepoint) (s : string) :
  valid c -> decode (encode_char c ++ s) = c :: decode s.
Proof.
  unfold valid, decode, encode_char. intro Hc.
  pose proof (N.mod_lt c 64) as M0.
  pose proof (N.mod_lt (c / 64) 64) as M1.
  pose proof (N.mod_lt (c / 4096) 64) as M2.
  pose proof (N.div_mod c 64) as D0.
  pose proof (N.div_mod (c / 64) 64) as D1.
  pose proof (N.div_mod (c / 4096) 64) as D2.
  assert (E1 : (c / 64 / 64 = c / 4096)%N) by (now rewrite N.Div0.div_div).
  assert (E2 : (c / 4096 / 64 = c / 262144)%N) by (now rewrite N.Div0.div_div).
  rewrite E1 in D1. rewrite E2 in D2. clear E1 E2.
  set (q1 := (c / 64)%N) in *. set (q2 := (c / 4096)%N) in *.
  set (q3 := (c / 262144)%N) in *. set (m0 := (c mod 64)%N) in *.
  set (m1 := (q1 mod 64)%N) in *. set (m2 := (q2 mod 64)%N) in *.
  clearbody q1 q2 q3 m0 m1 m2.
  destruct (N.ltb_spec c 0x80) as [H1|H1].
  { cbn [append decode_from]. now rewrite head_char1. }
  destruct (N.ltb_spec c 0x800) as [H2|H2].
  { cbn [append decode_from]. rewrite head_char2 by lia.
    cbn [decode_from]. f_equal. lia. }
  destruct (N.ltb_spec c 0x10000) as [H3|H3].
  { cbn [append decode_from]. rewrite head_char3 by lia.
    cbn [decode_from]. f_equal. lia. }
  cbn [append decode_from]. rewrite head_char4 by lia.
  cbn [decode_from]. f_equal. lia.
Qed.

(** A sequence of code points is read back from its text. *)
Lemma chars_text_of (cs : list codepoint) :
  Forall valid cs -> chars (text_of cs) = cs.
Proof.
  unfold chars, text_of. induction 1 as [|c cs Hc _ IH]; [reflexivity|].
  cbn [encode]. rewrite decode_encode_char by assumption. now rewrite IH.
Qed.

Lemma encode_char_no_colon (c : codepoint) :
  valid c -> is_not_colon c = true -> all not_colon (encode_char c) = true.
Proof.
  unfold valid, is_not_colon, is_colon, colon. intros Hc Hn.
  destruct (N.eqb_spec c 58) as [|Hne]; [discriminate|].
  assert (Hb : forall n, (n < 256)%N -> n <> 58%N -> not_colon (byte n) = true).
  { intros n Hn1 Hn2. unfold not_colon.
    destruct (Ascii.eqb_spec (byte n) ":"%char) as [E|]; [|reflexivity].
    exfalso. apply Hn2. rewrite <- (N_of_byte n Hn1), E. reflexivity. }
  pose proof (N.mod_lt c 64).
  pose proof (N.mod_lt (c / 64) 64).
  pose proof (N.mod_lt (c / 4096) 64).
  pose proof (div_bound c 64 32).
  pose proof (div_bound c 4096 16).
  pose proof (div_bound c 262144 5).
  unfold encode_char.
  set (q1 := (c / 64)%N) in *. set (q2 := (c / 4096)%N) in *.
  set (q3 := (c / 262144)%N) in *. set (m0 := (c mod 64)%N) in *.
  set (m1 := (q1 mod 64)%N) in *. set (m2 := (q2 mod 64)%N) in *.
  clearbody q1 q2 q3 m0 m1 m2.
  destruct (N.ltb_spec c 0x80); [cbn [all]; rewrite Hb by lia; reflexivity|].
  destruct (N.ltb_spec c 0x800); [cbn [all]; rewrite !Hb by lia; reflexivity|].
  destruct (N.ltb_spec c 0x10000);
    cbn [all]; rewrite !Hb by lia; reflexivity.
Qed.

(** The text of a sequence without colon has no byte of a colon. *)
Lemma text_of_no_colon (cs : list codepoint) :
  Forall valid cs -> forallb is_not_colon cs = true ->
  all not_colon (text_of cs) = true.
Proof.
  unfold text_of. induction 1 as [|c cs Hc _ IH]; [reflexivity|].
  cbn [forallb encode]. intro H. apply andb_true_iff in H as [H1 H2].
  rewrite StrFacts.all_app, encode_char_no_colon, IH by assumption.
  reflexivity.
Qed.

End Utf8Facts.

(** ** The matcher against the pattern read declaratively *)

Module ReFacts.
Import Re.

Section GreedyFacts.
Context {R : Type}.
Variable c : codepoint -> bool.
Variable k : list codepoint -> list codepoint -> option R.

(** A greedy repetition that succeeds consumed some run of the class and
    the continuation accepted what was left. *)
Lemma greedy_sound (s acc : list codepoint) (r : R) :
  greedy c k acc s = Some r ->
  exists run rest,
    s = run ++ rest /\ forallb c run = true /\ k (acc ++ run) rest = Some r.
Proof.
  revert acc. induction s as [|a s IH]; intros acc H; simpl in H.
  - exists [], []. rewrite !app_nil_r. auto.
  - destruct (c a) eqn:Ca.
    + destruct (greedy c k (acc ++ [a]) s) eqn:G.
      * inversion H; subst. apply IH in G.
        destruct G as (run & rest & -> & Hall & Hk).
        exists (a :: run), rest. simpl. rewrite Ca, Hall.
        rewrite <- app_assoc in Hk. auto.
      * exists [], (a :: s). rewrite !app_nil_r. auto.
    + exists [], (a :: s). rewrite !app_nil_r. auto.
Qed.

(** The longest run is tried first: when the continuation accepts after a
    run that cannot be extended, that is the result. *)
Lemma greedy_longest (run rest acc : list codepoint) (r : R) :
  forallb c run = true ->
  match rest with x :: _ => c x = false | [] => True end ->
  k (acc ++ run) rest = Some r ->
  greedy c k acc (run ++ rest) = Some r.
Proof.
  revert acc. induction run as [|a run IH]; intros acc Hall Hrest Hk.
  - rewrite app_nil_r in Hk. simpl.
    destruct rest as [|x rest]; simpl; [assumption|].
    now rewrite Hrest.
  - simpl in Hall. apply andb_true_iff in Hall as [Ca Hall].
    simpl. rewrite Ca, (IH (acc ++ [a])); auto.
    now rewrite <- app_assoc.
Qed.

(** A greedy repetition fails only if the continuation can fail. *)
Lemma greedy_some (s acc : list codepoint) :
  (forall a b, k a b <> None) -> greedy c k acc s <> None.
Proof.
  intro Hk. revert acc. induction s as [|a s IH]; intro acc; simpl.
  - apply Hk.
  - destruct (c a); [|apply Hk].
    destruct (greedy c k (acc ++ [a]) s) eqn:G; [discriminate|].
    now apply IH in G.
Qed.

(** A greedy repetition whose continuation cannot fail keeps the longest
    run. *)
Lemma greedy_keeps_longest (s acc : list codepoint) (r : R) :
  (forall a b, k a b <> None) ->
  greedy c k acc s = Some r ->
  exists run rest,
    s = run ++ rest /\ forallb c run = true /\
    match rest with x :: _ => c x = false | [] => True end /\
    k (acc ++ run) rest = Some r.
Proof.
  intro Hk. revert acc. induction s as [|a s IH]; intros acc H; simpl in H.
  - exists [], []. rewrite !app_nil_r. auto.
  - destruct (c a) eqn:Ca.
    + destruct (greedy c k (acc ++ [a]) s) eqn:G.
      * inversion H; subst. apply IH in G.
        destruct G as (run & rest & -> & Hall & Hrest & Hk').
        exists (a :: run), rest. simpl. rewrite Ca, Hall.
        rewrite <- app_assoc in Hk'. auto.
      * exfalso. revert G. now apply greedy_some.
    + exists [], (a :: s). rewrite !app_nil_r. simpl. auto.
Qed.
End GreedyFacts.

Section ScanFacts.
Variable p : regex.

Lemma scan_In (s : list codepoint) (skip : nat) gs :
  In gs (scan p skip s) ->
  exists pre t rest, s = pre ++ t /\ match_here p t = Some (gs, rest).
Proof.
  revert skip.
  assert (Hcons : forall a s',
    (exists pre t rest, s' = pre ++ t /\ match_here p t = Some (gs, rest)) ->
    exists pre t rest,
      a :: s' = pre ++ t /\ match_here p t = Some (gs, rest)).
  { intros a s' (pre & t & rest & -> & Hm).
    exists (a :: pre), t, rest. auto. }
  induction s as [|a s IH]; intros skip H.
  - destruct skip; simpl in H; [|contradiction].
    destruct (match_here p []) as [[g rest]|] eqn:Hm; [|contradiction].
    destruct H as [<-|[]]. exists [], [], rest. auto.
  - destruct skip; simpl in H.
    + destruct (match_here p (a :: s)) as [[g rest]|] eqn:Hm.
      * destruct H as [<-|H].
        -- exists [], (a :: s), rest. auto.
        -- apply Hcons. eapply IH; eassumption.
      * apply Hcons. eapply IH; eassumption.
    + apply Hcons. eapply IH; eassumption.
Qed.

Lemma scan_nil (s : list codepoint) :
  scan p 0 s = [] <->
  (forall pre t, s = pre ++ t -> match_here p t = None).
Proof.
  induction s as [|a s IH].
  - simpl. destruct (match_here p []) as [[g rest]|] eqn:Hm; split.
    + discriminate.
    + intro H. now rewrite (H [] [] eq_refl) in Hm.
    + intros _ pre t E. destruct pre; [|discriminate].
      simpl in E. now subst.
    + reflexivity.
  - cbn [scan]. destruct (match_here p (a :: s)) as [[g rest]|] eqn:Hm; split.
    + discriminate.
    + intro H. now rewrite (H [] _ eq_refl) in Hm.
    + intros H pre t E. destruct pre as [|x pre]; simpl in E.
      * now subst.
      * inversion E; subst. eapply IH; eauto.
    + intro H. apply IH. intros pre t ->. apply (H (a :: pre)). reflexivity.
Qed.

Lemma scan_skip (a b : list codepoint) :
  scan p (length a) (a ++ b) = scan p 0 b.
Proof. induction a as [|x a IH]; [reflexivity|]. simpl. exact IH. Qed.

(** The first match reported is the leftmost, and the scan goes on after
    it, when no match of the pattern is empty. *)
Lemma scan_first (s : list codepoint) gs more :
  (forall t g r, match_here p t = Some (g, r) ->
     exists x consumed, t = (x :: consumed) ++ r) ->
  scan p 0 s = gs :: more ->
  exists pre t rest,
    s = pre ++ t /\ match_here p t = Some (gs, rest) /\
    (forall a b, pre = a ++ b -> b <> [] -> match_here p (b ++ t) = None) /\
    more = scan p 0 rest.
Proof.
  intro Hcons. induction s as [|x s IH]; intro H.
  - simpl in H. destruct (match_here p []) as [[g r]|] eqn:Hm; [|discriminate].
    destruct (Hcons _ _ _ Hm) as (y & consumed & E). discriminate.
  - cbn [scan] in H.
    destruct (match_here p (x :: s)) as [[g r]|] eqn:Hm.
    + injection H as -> <-. exists [], (x :: s), r.
      split; [reflexivity|]. split; [assumption|]. split.
      * intros a b E Hb. destruct a; destruct b; try discriminate. congruence.
      * destruct (Hcons _ _ _ Hm) as (y & consumed & E).
        simpl in E. injection E as <- ->. clear IH.
        assert (Hlen : length (x :: consumed ++ r) - length r - 1
                       = length consumed)
          by (cbn [length]; rewrite length_app; lia).
        change (scan p (length (x :: consumed ++ r) - length r - 1)
                  (consumed ++ r)
                = scan p 0 r).
        rewrite Hlen. apply scan_skip.
    + destruct (IH H) as (pre & t & rest & -> & Ht & Hpre & Hmore).
      exists (x :: pre), t, rest.
      split; [reflexivity|]. split; [assumption|]. split; [|assumption].
      intros a b E Hb. destruct a as [|y a].
      * simpl in E. subst b. simpl. exact Hm.
      * simpl in E. injection E as _ E. now apply (Hpre a b).
Qed.
End ScanFacts.

End ReFacts.

(** ** The chart pattern *)

Module ChartFacts.
Import Re ReFacts.

Lemma digit_not_space c : is_digit c = true -> is_space c = false.
Proof.
  intro H. destruct (is_space c) eqn:E; [|reflexivity].
  unfold is_space in E. apply existsb_exists in E.
  destruct E as (x & Hin & Hx). apply N.eqb_eq in Hx. subst x.
  revert H. unfold whitespace in Hin. cbn [In] in Hin.
  repeat (destruct Hin as [<-|Hin]; [vm_compute; intro X; discriminate X|]).
  contradiction.
Qed.

Lemma is_colon_eq c : is_colon c = true -> c = colon.
Proof. unfold is_colon. apply N.eqb_eq. Qed.

(** A match of the pattern at the start of [s] is an occurrence in the
    sense of [is_occurrence], and its groups are the label and the digits. *)
Lemma chart_match_sound (s : list codepoint) gs rest :
  match_here chart_pattern s = Some (gs, rest) ->
  exists label ws digits,
    s = label ++ [colon] ++ ws ++ digits ++ rest /\
    gs = [label; digits] /\ is_occurrence label ws digits.
Proof.
  unfold chart_pattern. cbn [match_here rep cls captured].
  destruct s as [|x s]; [discriminate|].
  destruct (is_not_colon x) eqn:Hx; [|discriminate].
  intro H. apply greedy_sound in H.
  destruct H as (l & r1 & -> & Hl & H).
  destruct r1 as [|y r1]; [discriminate|].
  destruct (is_colon y) eqn:Hy; [|discriminate].
  apply is_colon_eq in Hy. subst y.
  destruct (greedy is_space _ [] r1) as [[g2 rest2]|] eqn:G2; [|discriminate].
  apply greedy_sound in G2.
  destruct G2 as (ws & r2 & -> & Hws & G2).
  destruct r2 as [|d r2]; [discriminate|].
  destruct (is_digit d) eqn:Hd; [|discriminate].
  destruct (greedy is_digit _ [d] r2) as [[g3 rest3]|] eqn:G3;
    [|discriminate].
  apply greedy_sound in G3.
  destruct G3 as (ds & r3 & -> & Hds & G3).
  inversion G3; subst. inversion G2; subst. inversion H; subst.
  exists (x :: l), ws, (d :: ds). simpl.
  split; [reflexivity|]. split; [reflexivity|].
  unfold is_occurrence. simpl. rewrite Hx, Hl, Hd, Hds.
  repeat split; try discriminate; assumption.
Qed.

(** The digits of a match are followed by something that is not a digit. *)
Lemma chart_match_digits_maximal (s : list codepoint) gs rest :
  match_here chart_pattern s = Some (gs, rest) ->
  starts_with_digit rest = false.
Proof.
  unfold chart_pattern. cbn [match_here rep cls captured].
  destruct s as [|x s]; [discriminate|].
  destruct (is_not_colon x) eqn:Hx; [|discriminate].
  intro H. apply greedy_sound in H.
  destruct H as (l & r1 & -> & Hl & H).
  destruct r1 as [|y r1]; [discriminate|].
  destruct (is_colon y) eqn:Hy; [|discriminate].
  destruct (greedy is_space _ [] r1) as [[g2 rest2]|] eqn:G2; [|discriminate].
  apply greedy_sound in G2.
  destruct G2 as (ws & r2 & -> & Hws & G2).
  destruct r2 as [|d r2]; [discriminate|].
  destruct (is_digit d) eqn:Hd; [|discriminate].
  destruct (greedy is_digit _ [d] r2) as [[g3 rest3]|] eqn:G3;
    [|discriminate].
  apply greedy_keeps_longest in G3; [|discriminate].
  destruct G3 as (ds & r3 & -> & Hds & Hmax & G3).
  inversion G3; subst. inversion G2; subst. inversion H; subst.
  destruct rest as [|c rest]; [reflexivity|exact Hmax].
Qed.

(** Conversely the matcher finds every occurrence that starts where it
    looks. *)
Lemma chart_match_complete (label ws digits post : list codepoint) :
  is_occurrence label ws digits ->
  match_here chart_pattern (label ++ [colon] ++ ws ++ digits ++ post) <> None.
Proof.
  intros (Hne & Hl & Hws & Hdne & Hds).
  destruct label as [|x l]; [congruence|].
  destruct digits as [|d ds]; [congruence|].
  simpl in Hl, Hds.
  apply andb_true_iff in Hl as [Hx Hl].
  apply andb_true_iff in Hds as [Hd Hds].
  unfold chart_pattern. cbn [match_here rep cls captured].
  cbn [app]. rewrite Hx.
  destruct (greedy is_digit
              (fun consumed rest0 => Some ([consumed], rest0))
              [d] (ds ++ post)) as [r4|] eqn:G4.
  2:{ exfalso. revert G4. apply greedy_some. discriminate. }
  destruct r4 as [g4 rest4].
  rewrite (greedy_longest is_not_colon _ l _ [x]
             ((x :: l) :: g4, rest4));
    [discriminate | assumption | reflexivity |].
  cbn [app]. replace (is_colon colon) with true by reflexivity.
  rewrite (greedy_longest is_space _ ws _ [] (g4, rest4));
    [reflexivity | assumption | now apply digit_not_space |].
  cbn [app]. rewrite Hd, G4. reflexivity.
Qed.

(** A match consumes at least one character. *)
Lemma chart_match_consumes (s : list codepoint) gs rest :
  match_here chart_pattern s = Some (gs, rest) ->
  length rest < length s.
Proof.
  intro H. apply chart_match_sound in H.
  destruct H as (label & ws & digits & -> & _ & Hne & _).
  rewrite !length_app. destruct label; [congruence|]. simpl. lia.
Qed.

(** [re.findall] finds nothing exactly when the text has no occurrence. *)
Lemma findall_nil_iff (text : string) :
  findall chart_pattern (chars text) = [] <-> ~ occurs_in text.
Proof.
  unfold findall, occurs_in. rewrite scan_nil. split.
  - intros H (pre & label & ws & digits & post & E & Hocc).
    eapply chart_match_complete; [eassumption|].
    eapply H. exact E.
  - intros H pre t E.
    destruct (match_here chart_pattern t) as [[gs rest]|] eqn:Hm; [|reflexivity].
    exfalso. apply H. apply chart_match_sound in Hm.
    destruct Hm as (label & ws & digits & -> & _ & Hocc).
    now exists pre, label, ws, digits, rest.
Qed.

(** Every match [re.findall] reports is a label and a non-empty digit run,
    both made of characters of the text. *)
Lemma findall_occurrence (s : list codepoint) gs :
  In gs (findall chart_pattern s) ->
  exists label ws digits,
    gs = [label; digits] /\ is_occurrence label ws digits /\
    incl label s.
Proof.
  intro H. apply scan_In in H. destruct H as (pre & t & rest & -> & Hm).
  apply chart_match_sound in Hm.
  destruct Hm as (label & ws & digits & -> & -> & Hocc).
  exists label, ws, digits. split; [reflexivity|]. split; [assumption|].
  intros c Hc. apply in_or_app. right. apply in_or_app. now left.
Qed.


End ChartFacts.

(** ** Integer conversion of digit runs *)

Module IntFacts.

Lemma forallb_rev {A} (f : A -> bool) (l : list A) :
  forallb f (rev l) = forallb f l.
Proof.
  induction l as [|x l IH]; [reflexivity|].
  simpl. rewrite forallb_app, IH. simpl.
  rewrite andb_true_r. apply andb_comm.
Qed.

Lemma digit_not_int_space c : is_digit c = true -> is_int_space c = false.
Proof.
  intro H. unfold is_int_space.
  now rewrite (ChartFacts.digit_not_space c H).
Qed.

Lemma drop_while_digits f (s : list codepoint) :
  (forall c, is_digit c = true -> f c = false) ->
  forallb is_digit s = true -> drop_while f s = s.
Proof.
  intros Hf H. destruct s as [|d s]; [reflexivity|].
  simpl in *. apply andb_true_iff in H as [Hd _]. now rewrite (Hf d Hd).
Qed.

Lemma int_digits_run (s : list codepoint) :
  forallb is_digit s = true -> int_digits true s = Some s.
Proof.
  induction s as [|d s IH]; intro H; simpl; [reflexivity|].
  simpl in H. apply andb_true_iff in H as [Hd H].
  now rewrite Hd, IH.
Qed.

(** [int] on a non-empty digit run: the run's value when it has no more
    digits than the interpreter allows, [ValueError] otherwise. *)
Lemma py_int_digits (s : list codepoint) :
  s <> [] -> forallb is_digit s = true ->
  py_int s =
    if Nat.ltb default_max_str_digits (length s) then None
    else Some (decimal_value s).
Proof.
  intros Hne H. unfold py_int.
  rewrite (drop_while_digits is_int_space s digit_not_int_space H).
  rewrite (drop_while_digits is_int_space (rev s) digit_not_int_space)
    by now rewrite forallb_rev.
  rewrite rev_involutive.
  destruct s as [|d s]; [congruence|].
  cbn [forallb] in H. apply andb_true_iff in H as [Hd H].
  assert (E45 : (d =? 45)%N = false).
  { destruct (N.eqb_spec d 45) as [->|]; [discriminate Hd|reflexivity]. }
  assert (E43 : (d =? 43)%N = false).
  { destruct (N.eqb_spec d 43) as [->|]; [discriminate Hd|reflexivity]. }
  rewrite E45, E43. cbn [int_digits]. rewrite Hd, int_digits_run by assumption.
  reflexivity.
Qed.

End IntFacts.

(** ** The extractor *)

Module ExtractFacts.
Import Re ChartFacts IntFacts.

Section Rows.
Variable to_int : list codepoint -> option Z.




Lemma build_rows_some (ms : list (list (list codepoint)))
    (rows : list ChartRow) :
  build_rows to_int ms = Some rows ->
  Forall2 (fun gs r =>
             exists l v z,
               gs = [l; v] /\ to_int v = Some z /\
               r = Row (text_of (strip l)) z)
          ms rows.
Proof.
  revert rows. induction ms as [|m ms IH]; intros rows H.
  - injection H as <-. constructor.
  - destruct m as [|l [|v [|x m]]]; try discriminate H.
    simpl in H. destruct (to_int v) as [z|] eqn:Hv; [|discriminate].
    destruct (build_rows to_int ms) as [rs|] eqn:Hb; [|discriminate].
    injection H as <-. constructor; [|now apply IH].
    exists l, v, z. auto.
Qed.
End Rows.


End ExtractFacts.

(** ** Claims about the chart extractor *)

Module ExtractorClaims.
Import Re ChartFacts IntFacts ExtractFacts Fixtures.

(** C1 (as amended).  On "Category A: 71, Category B: 5" the extractor
    returns two rows in order of appearance.  The first is ("Category A", 71).
    The second match starts right after the digits of the first, so its
    label is the text from there to the second colon, ", Category B", which
    begins with the comma and has no white space to trim; its value is 5. *)
Theorem C1_extract_example :
  chars "Category A: 71, Category B: 5"
    = chars "Category A" ++ [colon] ++ chars " " ++ chars "71"
        ++ chars ", Category B" ++ [colon] ++ chars " " ++ chars "5" /\
  findall chart_pattern (chars "Category A: 71, Category B: 5")
    = [[chars "Category A"; chars "71"]; [chars ", Category B"; chars "5"]] /\
  strip (chars ", Category B") = chars ", Category B" /\
  decimal_value (chars "71") = 71%Z /\ decimal_value (chars "5") = 5%Z /\
  extract_chart_data "Category A: 71, Category B: 5"
    = Some [Row "Category A" 71; Row ", Category B" 5].
Proof. repeat split; vm_compute; reflexivity. Qed.

(** C1 as stated fails: the second row's label is not "Category B". *)
Lemma C1_second_label_keeps_separator :
  extract_chart_data "Category A: 71, Category B: 5"
    <> Some [Row "Category A" 71; Row "Category B" 5].
Proof. vm_compute. discriminate. Qed.

(** C8.  A text with no occurrence of "non-colon characters, colon, optional
    white space, one or more digits" yields no chart. *)
Theorem C8_no_occurrence_no_chart (text : string) :
  ~ occurs_in text -> extract_chart_data text = None.
Proof.
  intro H. apply findall_nil_iff in H.
  unfold extract_chart_data, extract_chart_data_with. now rewrite H.
Qed.

Lemma C8_no_chart_examples :
  (~ occurs_in "no numbers here" /\
   extract_chart_data "no numbers here" = None) /\
  (~ occurs_in "Bad: abc" /\ extract_chart_data "Bad: abc" = None).
Proof.
  assert (H1 : ~ occurs_in "no numbers here")
    by (apply findall_nil_iff; vm_compute; reflexivity).
  assert (H2 : ~ occurs_in "Bad: abc")
    by (apply findall_nil_iff; vm_compute; reflexivity).
  split; (split; [assumption|]).
  - exact (C8_no_occurrence_no_chart "no numbers here" H1).
  - exact (C8_no_occurrence_no_chart "Bad: abc" H2).
Defined.




End ExtractorClaims.

(** ** Running monadic code backwards *)

Module MonadFacts.

Section Inversion.
Context {R : Type}.

Lemma bind_inv {A B} (m : M R A) (f : A -> M R B) w o w' tr :
  bind m f w = (o, w', tr) ->
  (exists a w1 t1 t2,
     m w = (Ret a, w1, t1) /\ f a w1 = (o, w', t2) /\ tr = t1 ++ t2) \/
  (exists e, m w = (Raise e, w', tr) /\ o = Raise e) \/
  (m w = (StillPolling, w', tr) /\ o = StillPolling).
Proof.
  unfold bind. destruct (m w) as [[[a|e|] w1] t1].
  - destruct (f a w1) as [[o2 w2] t2] eqn:F. intro H. inversion H; subst.
    left. exists a, w1, t1, t2. auto.
  - intro H. inversion H; subst. right. left. eauto.
  - intro H. inversion H; subst. right. right. auto.
Qed.

Lemma bind_ret {A B} (m : M R A) (f : A -> M R B) w a w1 t1 :
  m w = (Ret a, w1, t1) ->
  bind m f w = (let '(o, w2, t2) := f a w1 in (o, w2, t1 ++ t2)).
Proof. intro H. unfold bind. now rewrite H. Qed.

Lemma call_inv {A} (op : R -> (exn + A) * R) ev w (o : outcome A) w' tr :
  call op ev w = (o, w', tr) ->
  exists res,
    tr = [ev res] /\
    session_state w' = session_state w /\
    OPENAI_API_KEY w' = OPENAI_API_KEY w /\
    o = match res with inl e => Raise e | inr a => Ret a end.
Proof.
  unfold call. destruct (op (remote w)) as [res r']. intro H.
  inversion H; subst. exists res. auto.
Qed.
End Inversion.

(** Split a hypothesis [bind m f w = (o, w', tr)] into the run of [m] and,
    when [m] returned, the run of [f]. *)
Ltac subst_or_keep E :=
  match type of E with
  | ?x = _ => first [ is_var x; subst x | idtac ]
  end.

Ltac bind_cases H H1 H2 :=
  apply bind_inv in H;
  let a := fresh "a" in
  let w1 := fresh "w" in
  let t1 := fresh "tr" in
  let t2 := fresh "tr" in
  let E := fresh "E" in
  destruct H as [(a & w1 & t1 & t2 & H1 & H2 & E) | [(? & H1 & E) | (H1 & E)]];
  subst_or_keep E.

Section Primitive.
Context {R : Type}.

Lemma ret_run {A} (a : A) (w : World R) o w' tr :
  ret a w = (o, w', tr) -> o = Ret a /\ w' = w /\ tr = [].
Proof. intro H. inversion H. auto. Qed.

Lemma get_session_run (w : World R) o w' tr :
  get_session w = (o, w', tr) -> o = Ret (session_state w) /\ w' = w /\ tr = [].
Proof. intro H. inversion H. auto. Qed.

Lemma put_session_run s (w : World R) o w' tr :
  put_session s w = (o, w', tr) ->
  o = Ret tt /\ w' = mkWorld (OPENAI_API_KEY w) s (remote w) /\ tr = [].
Proof. intro H. inversion H. auto. Qed.

Lemma emit_run e (w : World R) o w' tr :
  emit e w = (o, w', tr) -> o = Ret tt /\ w' = w /\ tr = [e].
Proof. intro H. inversion H. auto. Qed.
End Primitive.

(** Invert the run of a primitive: the outcome, the world and the trace. *)
Ltac run_inv H :=
  first [ apply ret_run in H
        | apply get_session_run in H
        | apply put_session_run in H ];
  let E := fresh "E" in
  destruct H as (E & -> & ->);
  first [ match type of E with ?x = _ => is_var x; subst x end
        | discriminate E | injection E as -> | injection E as <- | clear E ].

End MonadFacts.

(** ** The gateway *)

Module GatewayFacts.
Import MonadFacts.

Lemma observed_statuses_app (a b : list event) :
  observed_statuses (a ++ b) = observed_statuses a ++ observed_statuses b.
Proof.
  induction a as [|e a IH]; [reflexivity|].
  destruct e as [| | | | |? ? [|]|? ? [|]|]; simpl; rewrite IH; reflexivity.
Qed.

Lemma setup_no_status (tr : list event) :
  Forall setup_event tr -> observed_statuses tr = [].
Proof.
  induction 1 as [|e tr He _ IH]; [reflexivity|].
  destruct e; simpl in *; try contradiction; assumption.
Qed.

Section Gateway.
Context {R : Type}.
Variable OpenAI_new : string -> OpenAI R.

(** *** [get_client] *)

Lemma get_client_no_key (w : World R) :
  no_key w -> get_client OpenAI_new w = (Ret None, w, [config_error]).
Proof.
  unfold get_client, bind, getenv_api_key. intros [H|H]; rewrite H; reflexivity.
Qed.

Lemma get_client_inv (w : World R) o w' tr :
  get_client OpenAI_new w = (o, w', tr) ->
  w' = w /\
  ((no_key w /\ o = Ret None /\ tr = [config_error]) \/
   (exists key, OPENAI_API_KEY w = Some key /\ key <> "" /\
      o = Ret (Some (OpenAI_new key)) /\ tr = [])).
Proof.
  unfold get_client, bind, getenv_api_key, no_key.
  destruct (OPENAI_API_KEY w) as [[|c k]|]; cbn; intro H; inversion H; subst;
    split; auto.
  right. exists (String c k). repeat split; congruence.
Qed.

(** *** [ensure_thread] *)

Variable client : OpenAI R.

Lemma replay_inv (thread : string) (ms : list Message) w o w' tr :
  for_each (replay client thread) ms w = (o, w', tr) ->
  session_state w' = session_state w /\
  OPENAI_API_KEY w' = OPENAI_API_KEY w /\
  Forall setup_event tr /\
  (exists k, pushed_contents tr = firstn k (user_contents ms)) /\
  (o = Ret tt ->
   tr = map (fun c => MessagesCreate thread "user" c (inr tt)) (user_contents ms)).
Proof.
  revert w o w' tr. induction ms as [|m ms IH]; intros w o w' tr H.
  - run_inv H. refine (conj eq_refl (conj eq_refl (conj _ (conj _ _)))).
    + constructor.
    + exists 0. reflexivity.
    + reflexivity.
  - cbn [for_each] in H. unfold user_contents. cbn [filter].
    unfold replay at 1 in H.
    destruct (String.eqb (role m) "user").
    + bind_cases H H1 H2;
        apply call_inv in H1; destruct H1 as (res & -> & Hs & Hk & Ho).
      * destruct res as [e|[]]; [discriminate|].
        apply IH in H2. destruct H2 as (Hs2 & Hk2 & Hf & (k & Hp) & Hr).
        refine (conj _ (conj _ (conj _ (conj _ _)))); try congruence.
        -- constructor; [exact I|assumption].
        -- exists (S k). simpl. now rewrite Hp.
        -- intro E. simpl. now rewrite (Hr E).
      * refine (conj Hs (conj Hk (conj _ (conj _ _)))).
        -- repeat constructor.
        -- exists 1. reflexivity.
        -- discriminate.
      * destruct res; discriminate.
    + bind_cases H H1 H2; run_inv H1.
      apply IH in H2. exact H2.
Qed.

Lemma ensure_thread_present (aid t : string) (w : World R) :
  thread_id (session_state w) = Some t ->
  ensure_thread client aid w = (Ret t, w, []).
Proof.
  intro H. unfold ensure_thread, bind, get_session. now rewrite H.
Qed.

Lemma ensure_thread_inv (aid : string) (w : World R) o w' tr :
  ensure_thread client aid w = (o, w', tr) ->
  messages (session_state w') = messages (session_state w) /\
  OPENAI_API_KEY w' = OPENAI_API_KEY w /\
  Forall setup_event tr /\
  (forall t, o = Ret t -> thread_id (session_state w') = Some t) /\
  (thread_id (session_state w) = None ->
   (exists res k,
      tr = ThreadsCreate res :: skipn 1 tr /\
      pushed_contents tr = firstn k (user_contents (history (session_state w)))) /\
   (forall t, o = Ret t ->
      tr = ThreadsCreate (inr t) ::
           map (fun c => MessagesCreate t "user" c (inr tt))
               (user_contents (history (session_state w))))).
Proof.
  intro H. unfold ensure_thread in H.
  bind_cases H H1 H2; [|discriminate|discriminate].
  run_inv H1. cbn [app].
  destruct (thread_id (session_state w)) as [t|] eqn:Ht.
  { run_inv H2.
    refine (conj eq_refl (conj eq_refl (conj _ (conj _ _)))).
    - constructor.
    - intros t' E. now inversion E; subst.
    - discriminate. }
  bind_cases H2 H1 H2;
    apply call_inv in H1; destruct H1 as (res & -> & Hs & Hk & Ho).
  2,3: rewrite Hs;
       refine (conj eq_refl (conj Hk (conj _ (conj _ (fun _ => conj _ _)))));
       [ repeat constructor | intros; discriminate
       | exists res, 0; split; reflexivity | intros; discriminate ].
  destruct res as [e|t]; [discriminate|]. injection Ho as ->.
  bind_cases H2 H1 H3; [|discriminate|discriminate].
  run_inv H1. cbn [app].
  bind_cases H3 H1 H3; [|discriminate|discriminate].
  run_inv H1. cbn [session_state messages app] in H3 |- *.
  unfold history.
  destruct (messages (session_state w)) as [ms|] eqn:Hm.
  - assert (Hreplay : forall wx o1 w2 t1,
      session_state wx = Session (Some t) (Some ms) ->
      OPENAI_API_KEY wx = OPENAI_API_KEY w ->
      for_each (replay client t) ms wx = (o1, w2, t1) ->
      session_state w2 = Session (Some t) (Some ms) /\
      OPENAI_API_KEY w2 = OPENAI_API_KEY w /\
      Forall setup_event t1 /\
      (exists k, pushed_contents t1 = firstn k (user_contents ms)) /\
      (o1 = Ret tt ->
       t1 = map (fun c => MessagesCreate t "user" c (inr tt)) (user_contents ms))).
    { intros wx o1 w2' t1' Hsx Hkx Hr. apply replay_inv in Hr.
      destruct Hr as (A & B & C & D & E).
      rewrite Hsx in A. rewrite Hkx in B. auto. }
    bind_cases H3 H1 H3;
      (eapply Hreplay in H1; [|reflexivity|exact Hk]);
      destruct H1 as (Hs1 & Hk1 & Hf & (k & Hp) & Hr).
    + run_inv H3. rewrite Hs1, app_nil_r. cbn [messages thread_id].
      refine (conj eq_refl (conj Hk1 (conj _ (conj _ (fun _ => conj _ _))))).
      * constructor; [exact I|assumption].
      * intros t' E. now inversion E.
      * exists (inr t), k. split; [reflexivity|exact Hp].
      * intros t' E. inversion E; subst.
        match type of Hr with Ret ?u = _ -> _ => destruct u end.
        now rewrite (Hr eq_refl).
    + rewrite Hs1. cbn [messages thread_id].
      refine (conj eq_refl (conj Hk1 (conj _ (conj _ (fun _ => conj _ _))))).
      * constructor; [exact I|assumption].
      * discriminate.
      * exists (inr t), k. split; [reflexivity|exact Hp].
      * discriminate.
    + rewrite Hs1. cbn [messages thread_id].
      refine (conj eq_refl (conj Hk1 (conj _ (conj _ (fun _ => conj _ _))))).
      * constructor; [exact I|assumption].
      * discriminate.
      * exists (inr t), k. split; [reflexivity|exact Hp].
      * discriminate.
  - bind_cases H3 H1 H3; [|discriminate|discriminate].
    run_inv H1. run_inv H3. cbn.
    refine (conj eq_refl (conj Hk (conj _ (conj _ (fun _ => conj _ _))))).
    + repeat constructor.
    + intros t' E. now inversion E.
    + exists (inr t), 0. split; reflexivity.
    + intros t' E. now inversion E.
Qed.

(** *** The polling loop *)

Lemma last_cons {A} (a d : A) (l : list A) : last (a :: l) d = last l a.
Proof.
  revert a d. induction l as [|b l IH]; intros a d; [reflexivity|].
  change (last (a :: b :: l) d) with (last (b :: l) d).
  now rewrite !IH.
Qed.

Lemma poll_inv (fuel : nat) (thread : string) (run : Run) w o w' tr :
  poll fuel client thread run w = (o, w', tr) ->
  session_state w' = session_state w /\
  OPENAI_API_KEY w' = OPENAI_API_KEY w /\
  Forall poll_event tr /\
  match o with
  | Ret run' =>
      is_terminal (run_status run') = true /\
      last (observed_statuses tr) (run_status run) = run_status run'
  | _ => is_terminal (last (observed_statuses tr) (run_status run)) = false
  end.
Proof.
  revert run w o w' tr.
  induction fuel as [|fuel IH]; intros run w o w' tr H; cbn [poll] in H;
    destruct (is_terminal (run_status run)) eqn:Hterm.
  - run_inv H. repeat split; auto.
  - inversion H; subst. repeat split; auto.
  - run_inv H. repeat split; auto.
  - bind_cases H H1 H2; apply emit_run in H1; destruct H1 as (E & -> & ->);
      try discriminate E.
    bind_cases H2 H1 H3;
      apply call_inv in H1; destruct H1 as (res & -> & Hs & Hk & Ho).
    + destruct res as [e|run']; [discriminate|]. injection Ho as ->.
      apply IH in H3. destruct H3 as (Hs3 & Hk3 & Hf & Hlast).
      refine (conj _ (conj _ (conj _ _))); try congruence.
      * constructor; [exact I|]. constructor; [exact I|assumption].
      * cbn [app observed_statuses]. rewrite last_cons. exact Hlast.
    + destruct res as [e|run']; [|discriminate].
      refine (conj Hs (conj Hk (conj _ _))).
      * repeat constructor.
      * subst. exact Hterm.
    + destruct res; discriminate.
Qed.
End Gateway.

(** *** [call_assistant] *)

(** The history and the environment are as they were, and a key was there. *)
Ltac world_kept :=
  split; [congruence | split; [congruence | intro; exfalso; auto]].

(** The session still holds the handle [ensure_thread] returned. *)
Ltac handle_kept :=
  match goal with
  | Hret : thread_id (session_state _) = Some ?t |- _ = Some ?t =>
      rewrite <- Hret; congruence
  end.

Section Call.
Context {R : Type}.
Variable OpenAI_new : string -> OpenAI R.
Variable prompt : string -> string.
Variable reply_of : ThreadMessage -> M R string.
Variable reply : ThreadMessage -> outcome string.
Hypothesis reply_of_pure : forall m w, reply_of m w = (reply m, w, []).

Let call_assistant := call_assistant_with OpenAI_new prompt reply_of.

Lemma call_assistant_no_key fuel text (w : World R) :
  no_key w -> call_assistant fuel text w = (Ret "", w, [config_error]).
Proof.
  intro H. unfold call_assistant, call_assistant_with.
  rewrite (bind_ret _ _ _ _ _ _ (get_client_no_key OpenAI_new w H)).
  reflexivity.
Qed.

(** Whatever the service does, a call ends at one of the exits of
    [gateway_run], leaves the history and the environment as they were,
    and, once it has pushed the user's turn, has stored the handle it
    pushed it on. *)
Lemma call_assistant_inv fuel text (w : World R) o w' tr :
  call_assistant fuel text w = (o, w', tr) ->
  gateway_run (prompt text) reply (thread_id (session_state w')) o tr /\
  messages (session_state w') = messages (session_state w) /\
  OPENAI_API_KEY w' = OPENAI_API_KEY w /\
  (no_key w -> o = Ret "" /\ w' = w /\ tr = [config_error]).
Proof.
  intro H. unfold call_assistant, call_assistant_with in H.
  bind_cases H H1 H2; apply get_client_inv in H1;
    destruct H1 as (-> & [(Hnk & E & ->) | (key & Hkey & Hne & E & ->)]);
    try discriminate E.
  { injection E as ->. run_inv H2.
    repeat split; auto. constructor. }
  injection E as ->. cbn [app].
  assert (Hno : ~ no_key w).
  { intros [N|N]; rewrite Hkey in N; [discriminate|]. now injection N. }
  bind_cases H2 H1 H3;
    apply ensure_thread_inv in H1; destruct H1 as (Hm & Hk & Hf & Hret & _);
    try specialize (Hret _ eq_refl).
  2,3: split; [now apply gr_setup_failed | world_kept].
  bind_cases H3 H1 H4;
    apply call_inv in H1; destruct H1 as (res & -> & Hs1 & Hk1 & Ho).
  2:{ destruct res as [e|[]]; [injection Ho as ->|discriminate].
      split; [apply gr_push_failed; [assumption|handle_kept]|]. world_kept. }
  2:{ destruct res; discriminate. }
  destruct res as [e|[]]; [discriminate|]. clear Ho.
  bind_cases H4 H1 H5;
    apply call_inv in H1; destruct H1 as (res & -> & Hs2 & Hk2 & Ho).
  2:{ destruct res as [e|run0]; [injection Ho as ->|discriminate].
      split; [apply gr_started; [assumption|handle_kept|constructor]|].
      world_kept. }
  2:{ destruct res; discriminate. }
  destruct res as [e|run0]; [discriminate|]. injection Ho as ->.
  cbn [app].
  bind_cases H5 H1 H6;
    apply poll_inv in H1; destruct H1 as (Hs3 & Hk3 & Hp & Hlast).
  2,3: split;
       [ apply gr_started; [assumption|handle_kept|];
         apply rf_poll_stopped; [assumption|assumption|exact I]
       | world_kept ].
  destruct Hlast as (Hterm & Hlast).
  match type of Hterm with
  | is_terminal (run_status ?r) = true =>
      destruct (String.eqb (run_status r) "completed") eqn:Hc
  end; cbn [negb] in H6.
  - apply String.eqb_eq in Hc.
    bind_cases H6 H1 H7;
      apply call_inv in H1; destruct H1 as (res & -> & Hs4 & Hk4 & Ho).
    + destruct res as [e|data]; [discriminate|]. injection Ho as ->.
      destruct data as [|message rest].
      * run_inv H7. split; [|world_kept].
        apply gr_started; [assumption|handle_kept|].
        eapply rf_polled; eauto. now apply fin_empty.
      * rewrite reply_of_pure in H7. inversion H7; subst.
        split; [|world_kept].
        apply gr_started; [assumption|handle_kept|].
        eapply rf_polled; eauto. now apply fin_reply.
    + destruct res as [e|data]; [injection Ho as ->|discriminate].
      split; [|world_kept].
      apply gr_started; [assumption|handle_kept|].
      eapply rf_polled; eauto. now apply fin_list_failed.
    + destruct res; discriminate.
  - apply String.eqb_neq in Hc. run_inv H6.
    split; [|world_kept].
    apply gr_started; [assumption|handle_kept|].
    eapply rf_polled; eauto. now apply fin_status.
Qed.
End Call.

(** *** Reading the trace of a call *)

Section TraceFacts.
Variable content : string.
Variable reply : ThreadMessage -> outcome string.

Lemma finish_no_status thread run o t :
  finish reply thread run o t -> observed_statuses t = [].
Proof. destruct 1; reflexivity. Qed.

Lemma setup_not_run t thread a r :
  Forall setup_event t -> ~ In (RunsCreate thread a r) t.
Proof.
  intros H Hin. rewrite Forall_forall in H. exact (H _ Hin).
Qed.

Lemma setup_not_list t thread ord lim r :
  Forall setup_event t -> ~ In (MessagesList thread ord lim r) t.
Proof.
  intros H Hin. rewrite Forall_forall in H. exact (H _ Hin).
Qed.

Lemma poll_not_run t thread a r :
  Forall poll_event t -> ~ In (RunsCreate thread a r) t.
Proof.
  intros H Hin. rewrite Forall_forall in H. exact (H _ Hin).
Qed.

Lemma poll_not_list t thread ord lim r :
  Forall poll_event t -> ~ In (MessagesList thread ord lim r) t.
Proof.
  intros H Hin. rewrite Forall_forall in H. exact (H _ Hin).
Qed.

Lemma run_from_no_create thread r o t thread' a r' :
  run_from reply thread r o t -> ~ In (RunsCreate thread' a r') t.
Proof.
  destruct 1 as [e | run0 o t_poll Hp _ _ | run0 run o t_poll t_fin Hp _ _ Hfin].
  - intros [].
  - now apply poll_not_run.
  - intro Hin. apply in_app_or in Hin. destruct Hin as [Hin|Hin].
    + revert Hin. now apply poll_not_run.
    + destruct Hfin; simpl in Hin; intuition discriminate.
Qed.

(** A run is started at most once, on the session's handle, and right
    after the user's turn was pushed on that handle. *)
Lemma run_preceded_by_push handle o tr thread a r :
  gateway_run content reply handle o tr ->
  In (RunsCreate thread a r) tr ->
  exists pre post,
    tr = pre ++ MessagesCreate thread "user" content (inr tt)
             :: RunsCreate thread a r :: post /\
    handle = Some thread /\
    Forall setup_event pre /\
    (forall thread' a' r', ~ In (RunsCreate thread' a' r') post).
Proof.
  destruct 1 as [| o t_ens Hf _ | t_ens th e Hf Hh | t_ens th r0 o t_tail Hf Hh Hrun];
    intro Hin.
  - destruct Hin as [Hin|[]]. discriminate.
  - exfalso. revert Hin. now apply setup_not_run.
  - exfalso. apply in_app_or in Hin. destruct Hin as [Hin|[Hin|[]]].
    + revert Hin. now apply setup_not_run.
    + discriminate.
  - apply in_app_or in Hin. destruct Hin as [Hin|[Hin|[Hin|Hin]]].
    + exfalso. revert Hin. now apply setup_not_run.
    + discriminate.
    + injection Hin as -> -> ->. exists t_ens, t_tail.
      repeat split; auto.
      intros. eapply run_from_no_create; eassumption.
    + exfalso. revert Hin. eapply run_from_no_create; eassumption.
Qed.

(** When the newest message was listed, the call's outcome is what
    [reply] reads out of it. *)
Lemma listed_message_is_reply handle o tr thread ord lim message rest :
  gateway_run content reply handle o tr ->
  In (MessagesList thread ord lim (inr (message :: rest))) tr ->
  o = reply message.
Proof.
  destruct 1 as [| o t_ens Hf _ | t_ens th e Hf Hh | t_ens th r0 o t_tail Hf Hh Hrun];
    intro Hin.
  - destruct Hin as [Hin|[]]. discriminate.
  - exfalso. revert Hin. now apply setup_not_list.
  - exfalso. apply in_app_or in Hin. destruct Hin as [Hin|[Hin|[]]].
    + revert Hin. now apply setup_not_list.
    + discriminate.
  - apply in_app_or in Hin. destruct Hin as [Hin|[Hin|[Hin|Hin]]].
    + exfalso. revert Hin. now apply setup_not_list.
    + discriminate.
    + discriminate.
    + destruct Hrun as [e | run0 o t_poll Hp _ _
                        | run0 run o t_poll t_fin Hp _ _ Hfin].
      * destruct Hin.
      * exfalso. revert Hin. now apply poll_not_list.
      * apply in_app_or in Hin. destruct Hin as [Hin|Hin].
        -- exfalso. revert Hin. now apply poll_not_list.
        -- destruct Hfin; simpl in Hin; try contradiction;
             destruct Hin as [Hin|[]]; try discriminate.
           injection Hin as _ _ _ E. now subst.
Qed.

(** When the last status the service reported is terminal and is not
    "completed", the call returns the status message. *)
Lemma unsuccessful_run_is_reported handle o tr status :
  gateway_run content reply handle o tr ->
  last (observed_statuses tr) "" = status ->
  is_terminal status = true ->
  status <> "completed" ->
  o = Ret (status_message status).
Proof.
  destruct 1 as [| o t_ens Hf _ | t_ens th e Hf Hh | t_ens th r0 o t_tail Hf Hh Hrun];
    intros Hlast Hterm Hnc.
  - simpl in Hlast. subst. discriminate.
  - rewrite (setup_no_status _ Hf) in Hlast. simpl in Hlast.
    subst. discriminate.
  - rewrite observed_statuses_app, (setup_no_status _ Hf) in Hlast.
    simpl in Hlast. subst. discriminate.
  - rewrite observed_statuses_app, (setup_no_status _ Hf) in Hlast.
    cbn [app observed_statuses] in Hlast.
    destruct Hrun as [e | run0 o t_poll Hp Hstop _
                      | run0 run o t_poll t_fin Hp Ht Hl Hfin].
    + simpl in Hlast. subst. discriminate.
    + rewrite last_cons in Hlast. congruence.
    + rewrite last_cons, observed_statuses_app,
        (finish_no_status _ _ _ _ Hfin), app_nil_r, Hl in Hlast.
      destruct Hfin; congruence.
Qed.
End TraceFacts.

(** *** The script and the session *)

Section Script.
Context {R : Type}.
Variable call_assistant : string -> M R string.
Variable show : string -> M R unit.
Hypothesis call_kept : forall text w o w' tr,
  call_assistant text w = (o, w', tr) ->
  messages (session_state w') = messages (session_state w).
Hypothesis show_kept : forall reply w o w' tr,
  show reply w = (o, w', tr) -> session_state w' = session_state w.

Lemma append_message_inv (r c : string) (w : World R) o w' tr :
  append_message r c w = (o, w', tr) ->
  tr = [] /\
  OPENAI_API_KEY w' = OPENAI_API_KEY w /\
  remote w' = remote w /\
  thread_id (session_state w') = thread_id (session_state w) /\
  match messages (session_state w) with
  | Some ms => o = Ret tt /\ messages (session_state w') = Some (ms ++ [Msg r c])
  | None => o = Raise AttributeError /\ w' = w
  end.
Proof.
  unfold append_message, bind, get_session, put_session, raise.
  destruct (messages (session_state w)) as [ms|];
    intro H; inversion H; subst; cbn; auto 10.
Qed.

(** The first statement of the script leaves a history in place. *)
Lemma init_messages_inv (w : World R) o w' tr :
  (match messages (session_state w) with
   | None => put_session (Session (thread_id (session_state w)) (Some []))
   | Some _ => ret tt
   end) w = (o, w', tr) ->
  o = Ret tt /\ tr = [] /\
  messages (session_state w') = Some (history (session_state w)).
Proof.
  unfold history.
  destruct (messages (session_state w)) as [ms|] eqn:Hm; intro H; run_inv H;
    auto.
Qed.

(** One rerun of the script that ends normally on a non-empty input
    appends the input and then the reply, and nothing else. *)
Lemma script_step (text : string) (w : World R) w' tr :
  text <> "" ->
  script_with call_assistant show (Some text) w = (Ret tt, w', tr) ->
  exists reply,
    history (session_state w')
      = history (session_state w) ++ [Msg "user" text; Msg "assistant" reply].
Proof.
  intros Hne H. unfold script_with in H.
  bind_cases H H1 H2; [|discriminate|discriminate]. run_inv H1.
  bind_cases H2 H1 H3; [|discriminate|discriminate].
  apply init_messages_inv in H1. destruct H1 as (_ & -> & Hm0).
  destruct text as [|c text]; [congruence|].
  bind_cases H3 H1 H4; [|discriminate|discriminate].
  apply append_message_inv in H1. rewrite Hm0 in H1.
  destruct H1 as (-> & _ & _ & _ & _ & Hm1).
  bind_cases H4 H1 H5; [|discriminate|discriminate].
  apply call_kept in H1. rewrite Hm1 in H1.
  bind_cases H5 H2 H6; [|discriminate|discriminate].
  apply append_message_inv in H2. rewrite H1 in H2.
  destruct H2 as (-> & _ & _ & _ & _ & Hm2).
  apply show_kept in H6.
  match type of Hm2 with context [Msg "assistant" ?r] => exists r end.
  unfold history at 1. rewrite H6, Hm2, <- app_assoc. reflexivity.
Qed.

(** A rerun with nothing submitted leaves the history as it is. *)
Lemma script_idle (w : World R) o w' tr (i : option string) :
  i = None \/ i = Some "" ->
  script_with call_assistant show i w = (o, w', tr) ->
  o = Ret tt /\ tr = [] /\
  history (session_state w') = history (session_state w).
Proof.
  intros Hi H. unfold script_with in H.
  bind_cases H H1 H2; try discriminate H1. run_inv H1.
  bind_cases H2 H1 H3; apply init_messages_inv in H1;
    destruct H1 as (E & -> & Hm0); try discriminate E.
  destruct Hi as [-> | ->]; run_inv H3; repeat split; auto;
    unfold history at 1; now rewrite Hm0.
Qed.

(** [N] submissions, each processed to its end, leave the earlier history
    followed by the [N] inputs, each with its reply after it. *)
Lemma session_history (texts : list string) (w : World R) w' tr :
  Forall (fun text => text <> "") texts ->
  session_with (script_with call_assistant show) (map Some texts) w
    = (Ret tt, w', tr) ->
  exists replies,
    length replies = length texts /\
    history (session_state w')
      = history (session_state w) ++ interleave texts replies.
Proof.
  intro Hne. revert w tr. induction Hne as [|text texts Ht _ IH]; intros w tr H.
  - run_inv H. exists []. split; [reflexivity|]. simpl. now rewrite app_nil_r.
  - cbn [map session_with] in H.
    bind_cases H H1 H2; [|discriminate|discriminate].
    match type of H1 with _ = (Ret ?u, _, _) => destruct u end.
    apply script_step in H1; [|assumption]. destruct H1 as (reply & Hh).
    apply IH in H2. destruct H2 as (replies & Hlen & Hh2).
    exists (reply :: replies). split; [simpl; congruence|].
    rewrite Hh2, Hh, <- app_assoc. reflexivity.
Qed.

Lemma length_interleave (texts replies : list string) :
  length replies = length texts ->
  length (interleave texts replies) = 2 * length texts.
Proof.
  revert replies. induction texts as [|u texts IH]; intros [|a replies] H;
    simpl in *; try discriminate; [reflexivity|].
  rewrite IH by congruence. lia.
Qed.

Lemma roles_interleave (texts replies : list string) :
  length replies = length texts ->
  map role (interleave texts replies)
    = flat_map (fun _ => ["user"; "assistant"]) texts /\
  user_contents (interleave texts replies) = texts.
Proof.
  revert replies. induction texts as [|u texts IH]; intros [|a replies] H;
    simpl in *; try discriminate; [auto|].
  destruct (IH replies) as (E1 & E2); [congruence|].
  unfold user_contents in *. simpl. now rewrite E1, E2.
Qed.
End Script.

(** *** The polling budget

    The budget only cuts runs short: a run that ends within a budget ends the
    same way within any larger one. *)

Section Fuel.
Context {R : Type}.
Variable OpenAI_new : string -> OpenAI R.

Lemma refines_refl {A} (r : outcome A * World R * list event) : refines r r.
Proof. now right. Qed.

Lemma bind_refines {A B} (m1 m2 : M R A) (f1 f2 : A -> M R B) (w : World R) :
  refines (m1 w) (m2 w) ->
  (forall a w1, refines (f1 a w1) (f2 a w1)) ->
  refines (bind m1 f1 w) (bind m2 f2 w).
Proof.
  unfold refines, bind. intros [Hs|He] Hf.
  - left. destruct (m1 w) as [[[a|e|] w1] t1]; try discriminate. reflexivity.
  - rewrite He. destruct (m2 w) as [[[a|e|] w1] t1]; try (now right).
    destruct (Hf a w1) as [Hs|He2].
    + left. destruct (f1 a w1) as [[o1 w2] t2]. simpl in *. now subst.
    + right. now rewrite He2.
Qed.

Lemma poll_refines (client : OpenAI R) (thread : string)
    (fuel k : nat) (run : Run) (w : World R) :
  refines (poll fuel client thread run w) (poll (fuel + k) client thread run w).
Proof.
  revert run w. induction fuel as [|fuel IH]; intros run w.
  - cbn [Nat.add]. destruct k; cbn [poll];
      destruct (is_terminal (run_status run)); (now right) || (now left).
  - cbn [Nat.add poll]. destruct (is_terminal (run_status run)); [now right|].
    apply bind_refines; [apply refines_refl|]. intros _ w1.
    apply bind_refines; [apply refines_refl|]. intros run' w2. apply IH.
Qed.

Lemma call_assistant_refines
    (prompt : string -> string) (reply_of : ThreadMessage -> M R string)
    (fuel k : nat) (text : string) (w : World R) :
  refines (call_assistant_with OpenAI_new prompt reply_of fuel text w)
          (call_assistant_with OpenAI_new prompt reply_of (fuel + k) text w).
Proof.
  unfold call_assistant_with.
  apply bind_refines; [apply refines_refl|]. intros [client|] w1;
    [|apply refines_refl].
  apply bind_refines; [apply refines_refl|]. intros thread w2.
  apply bind_refines; [apply refines_refl|]. intros _ w3.
  apply bind_refines; [apply refines_refl|]. intros run w4.
  apply bind_refines; [apply poll_refines|]. intros run' w5.
  apply refines_refl.
Qed.

Lemma script_refines (call1 call2 : string -> M R string)
    (show : string -> M R unit) (i : option string) (w : World R) :
  (forall text w1, refines (call1 text w1) (call2 text w1)) ->
  refines (script_with call1 show i w) (script_with call2 show i w).
Proof.
  intro Hcall. unfold script_with.
  apply bind_refines; [apply refines_refl|]. intros ss w1.
  apply bind_refines; [apply refines_refl|]. intros _ w2.
  destruct i as [[|c text]|]; try apply refines_refl.
  apply bind_refines; [apply refines_refl|]. intros _ w3.
  apply bind_refines; [apply Hcall|]. intros reply w4.
  apply refines_refl.
Qed.

Lemma session_refines (script1 script2 : option string -> M R unit)
    (inputs : list (option string)) (w : World R) :
  (forall i w1, refines (script1 i w1) (script2 i w1)) ->
  refines (session_with script1 inputs w) (session_with script2 inputs w).
Proof.
  intro Hs. revert w. induction inputs as [|i inputs IH]; intro w;
    cbn [session_with]; [apply refines_refl|].
  apply bind_refines; [apply Hs|]. intros _ w1. apply IH.
Qed.

(** A call, and a session, that end within a polling budget end the same
    way within any larger one. *)
Lemma call_assistant_enough_fuel
    (prompt : string -> string) (reply_of : ThreadMessage -> M R string)
    (fuel k : nat) (text : string) (w : World R) o w' tr :
  call_assistant_with OpenAI_new prompt reply_of fuel text w = (o, w', tr) ->
  o <> StillPolling ->
  call_assistant_with OpenAI_new prompt reply_of (fuel + k) text w = (o, w', tr).
Proof.
  intros H Ho.
  destruct (call_assistant_refines prompt reply_of fuel k text w) as [Hs|He].
  - rewrite H in Hs. contradiction.
  - now rewrite <- He.
Qed.

Lemma session_enough_fuel
    (prompt : string -> string) (reply_of : ThreadMessage -> M R string)
    (show : string -> M R unit)
    (fuel k : nat) (inputs : list (option string)) (w : World R) o w' tr :
  session_with
    (script_with (call_assistant_with OpenAI_new prompt reply_of fuel) show)
    inputs w = (o, w', tr) ->
  o <> StillPolling ->
  session_with
    (script_with (call_assistant_with OpenAI_new prompt reply_of (fuel + k)) show)
    inputs w = (o, w', tr).
Proof.
  intros H Ho.
  destruct (session_refines
              (script_with (call_assistant_with OpenAI_new prompt reply_of fuel) show)
              (script_with (call_assistant_with OpenAI_new prompt reply_of (fuel + k)) show)
              inputs w) as [Hs|He].
  - intros i w1. apply script_refines. intros text w2.
    apply call_assistant_refines.
  - rewrite H in Hs. contradiction.
  - now rewrite <- He.
Qed.
End Fuel.

End GatewayFacts.

(** ** The two programs *)

Module ProgramFacts.
Import MonadFacts GatewayFacts.

Section Programs.
Context {R : Type}.
Variable OpenAI_new : string -> OpenAI R.

Lemma app_call_inv fuel text (w : World R) o w' tr :
  App.call_assistant OpenAI_new fuel text w = (o, w', tr) ->
  gateway_run text App.first_text_value (thread_id (session_state w')) o tr /\
  messages (session_state w') = messages (session_state w) /\
  OPENAI_API_KEY w' = OPENAI_API_KEY w /\
  (no_key w -> o = Ret "" /\ w' = w /\ tr = [config_error]).
Proof.
  exact (call_assistant_inv OpenAI_new (fun x => x) App.first_text
           App.first_text_value (fun _ _ => eq_refl) fuel text w o w' tr).
Qed.

Lemma chart_call_inv fuel text (w : World R) o w' tr :
  ChartApp.call_assistant OpenAI_new fuel text w = (o, w', tr) ->
  gateway_run (ChartApp.enhanced_prompt text)
    (fun m => Ret (ChartApp.joined_value m))
    (thread_id (session_state w')) o tr /\
  messages (session_state w') = messages (session_state w) /\
  OPENAI_API_KEY w' = OPENAI_API_KEY w /\
  (no_key w -> o = Ret "" /\ w' = w /\ tr = [config_error]).
Proof.
  exact (call_assistant_inv OpenAI_new ChartApp.enhanced_prompt
           ChartApp.joined_parts (fun m => Ret (ChartApp.joined_value m))
           (fun _ _ => eq_refl) fuel text w o w' tr).
Qed.

Lemma show_chart_kept reply (w : World R) o w' tr :
  ChartApp.show_chart reply w = (o, w', tr) ->
  session_state w' = session_state w.
Proof.
  unfold ChartApp.show_chart.
  destruct (extract_chart_data reply); intro H; inversion H; reflexivity.
Qed.

Lemma app_session_history fuel texts (w : World R) w' tr :
  Forall (fun text => text <> "") texts ->
  session_with (App.script OpenAI_new fuel) (map Some texts) w
    = (Ret tt, w', tr) ->
  exists replies,
    length replies = length texts /\
    history (session_state w')
      = history (session_state w) ++ interleave texts replies.
Proof.
  apply (session_history (App.call_assistant OpenAI_new fuel)
           (fun _ => ret tt)).
  - intros text w0 o w0' tr0 H. now apply app_call_inv in H.
  - intros reply w0 o w0' tr0 H. now inversion H.
Qed.

Lemma chart_session_history fuel texts (w : World R) w' tr :
  Forall (fun text => text <> "") texts ->
  session_with (ChartApp.script OpenAI_new fuel) (map Some texts) w
    = (Ret tt, w', tr) ->
  exists replies,
    length replies = length texts /\
    history (session_state w')
      = history (session_state w) ++ interleave texts replies.
Proof.
  apply (session_history (ChartApp.call_assistant OpenAI_new fuel)
           ChartApp.show_chart).
  - intros text w0 o w0' tr0 H. now apply chart_call_inv in H.
  - apply show_chart_kept.
Qed.

(** The loop over the segments, read as a whole. *)
Lemma fold_add_part (segments : list ContentBlock) (parts : list string) :
  fold_left ChartApp.add_part segments parts
    = parts ++ flat_map segment_text segments.
Proof.
  revert parts. induction segments as [|c segments IH]; intro parts; simpl.
  - now rewrite app_nil_r.
  - rewrite IH. destruct c; simpl; rewrite <- ?app_assoc; reflexivity.
Qed.

Lemma joined_value_spec (m : ThreadMessage) :
  ChartApp.joined_value m = joined_reply (tm_content m).
Proof. unfold ChartApp.joined_value, joined_reply. now rewrite fold_add_part. Qed.

Lemma app_script_no_key fuel text (w : World R) :
  no_key w -> text <> "" ->
  App.script OpenAI_new fuel (Some text) w
    = (Ret tt, after_no_key text w, [config_error]).
Proof.
  intros Hk Hne. destruct text as [|c text]; [congruence|].
  destruct w as [key [tid ms] rm]. unfold no_key in Hk. simpl in Hk.
  unfold after_no_key, history. simpl.
  destruct Hk as [-> | ->]; destruct ms as [ms|]; cbn;
    rewrite <- ?app_assoc; reflexivity.
Qed.

Lemma chart_script_no_key fuel text (w : World R) :
  no_key w -> text <> "" ->
  ChartApp.script OpenAI_new fuel (Some text) w
    = (Ret tt, after_no_key text w, [config_error]).
Proof.
  intros Hk Hne. destruct text as [|c text]; [congruence|].
  destruct w as [key [tid ms] rm]. unfold no_key in Hk. simpl in Hk.
  unfold after_no_key, history. simpl.
  destruct Hk as [-> | ->]; destruct ms as [ms|]; cbn;
    rewrite <- ?app_assoc; reflexivity.
Qed.
End Programs.

End ProgramFacts.

(** ** Running a call forwards, from what the service does *)

Module Progress.
Import MonadFacts GatewayFacts ProgramFacts.

Section Progress.
Context {R : Type}.
Variable OpenAI_new : string -> OpenAI R.

Lemma call_ok {A} (op : R -> (exn + A) * R) ev (w : World R) a r' :
  op (remote w) = (inr a, r') ->
  call op ev w
    = (Ret a, mkWorld (OPENAI_API_KEY w) (session_state w) r', [ev (inr a)]).
Proof. intro H. unfold call. now rewrite H. Qed.

Lemma get_client_key (w : World R) key :
  OPENAI_API_KEY w = Some key -> key <> "" ->
  get_client OpenAI_new w = (Ret (Some (OpenAI_new key)), w, []).
Proof.
  intros H Hne. unfold get_client, bind, getenv_api_key. rewrite H.
  destruct key; [congruence|reflexivity].
Qed.

Section Client.
Variable client : OpenAI R.

Lemma pushes_accepted_app thread a b r r' :
  pushes_accepted client thread (a ++ b) r r' ->
  exists rm,
    pushes_accepted client thread a r rm /\
    pushes_accepted client thread b rm r'.
Proof.
  revert r. induction a as [|c a IH]; intros r H.
  - exists r. split; [constructor|assumption].
  - inversion H as [|c' cs r0 r1 r'' Hc Hrest]; subst.
    destruct (IH _ Hrest) as (rm & Ha & Hb).
    exists rm. split; [econstructor; eassumption|assumption].
Qed.

Lemma replay_accepted thread (ms : list Message) key ss r r' :
  pushes_accepted client thread (user_contents ms) r r' ->
  exists tr,
    for_each (replay client thread) ms (mkWorld key ss r)
      = (Ret tt, mkWorld key ss r', tr) /\
    Forall setup_event tr.
Proof.
  revert r. induction ms as [|m ms IH]; intros r H.
  - inversion H; subst. exists []. split; [reflexivity|constructor].
  - unfold user_contents in H. cbn [filter] in H. cbn [for_each].
    unfold replay at 1.
    destruct (String.eqb (role m) "user") eqn:Hr.
    + cbn [map] in H.
      inversion H as [|c' cs r0 r1 r'' Hc Hrest]; subst.
      destruct (IH _ Hrest) as (tr & Hrun & Htr).
      rewrite (bind_ret _ _ _ tt (mkWorld key ss r1)
                 [MessagesCreate thread "user" (content m) (inr tt)]
                 (call_ok _ _ (mkWorld key ss r) tt r1 Hc)).
      rewrite Hrun. eexists. split; [reflexivity|].
      constructor; [exact I|assumption].
    + destruct (IH _ H) as (tr & Hrun & Htr).
      rewrite (bind_ret (ret tt) _ (mkWorld key ss r) tt _ [] eq_refl).
      rewrite Hrun. exists tr. split; [reflexivity|assumption].
Qed.

Lemma ensure_thread_opened (aid : string) (w : World R)
    thread r0 replayed rm :
  handle_opened client w thread r0 replayed ->
  pushes_accepted client thread replayed r0 rm ->
  exists ss tr,
    ensure_thread client aid w
      = (Ret thread, mkWorld (OPENAI_API_KEY w) ss rm, tr) /\
    Forall setup_event tr.
Proof.
  unfold handle_opened. destruct w as [key [tid ms] r].
  cbn [thread_id session_state remote OPENAI_API_KEY history messages].
  destruct tid as [t|].
  - intros (-> & -> & ->) H. inversion H; subst.
    exists (Session (Some t) ms), [].
    split; [now apply ensure_thread_present|constructor].
  - intros (Hc & ->) H. unfold ensure_thread.
    rewrite (bind_ret get_session _ (mkWorld key (Session None ms) r)
               (Session None ms) _ [] eq_refl).
    cbn [thread_id].
    rewrite (bind_ret _ _ _ thread
               (mkWorld key (Session None ms) r0) [ThreadsCreate (inr thread)]
               (call_ok _ _ (mkWorld key (Session None ms) r) thread r0 Hc)).
    rewrite (bind_ret (put_session (Session (Some thread) ms)) _
               (mkWorld key (Session None ms) r0) tt
               (mkWorld key (Session (Some thread) ms) r0) [] eq_refl).
    rewrite (bind_ret get_session _
               (mkWorld key (Session (Some thread) ms) r0)
               (Session (Some thread) ms) _ [] eq_refl).
    cbn [messages].
    assert (Hrep : exists tr,
              match ms with
              | Some ms0 => for_each (replay client thread) ms0
              | None => ret tt
              end (mkWorld key (Session (Some thread) ms) r0)
              = (Ret tt, mkWorld key (Session (Some thread) ms) rm, tr) /\
              Forall setup_event tr).
    { destruct ms as [ms0|].
      - now apply replay_accepted.
      - inversion H; subst. exists []. split; [reflexivity|constructor]. }
    destruct Hrep as (tr & Hrun & Htr).
    rewrite (bind_ret _ _ _ tt _ tr Hrun).
    exists (Session (Some thread) ms). eexists. split; [reflexivity|].
    cbn. constructor; [exact I|]. rewrite !app_nil_r. assumption.
Qed.

Lemma poll_ends thread run r polls status r' :
  run_ends client thread run r polls status r' ->
  forall fuel key ss, polls <= fuel ->
  exists final tr,
    poll fuel client thread run (mkWorld key ss r)
      = (Ret final, mkWorld key ss r', tr) /\
    run_status final = status /\ is_terminal status = true /\
    Forall poll_event tr.
Proof.
  induction 1 as [run r Ht | run r run' r1 polls status r' Ht Hr _ IH];
    intros fuel key ss Hle.
  - exists run, []. destruct fuel; cbn [poll]; rewrite Ht; auto.
  - destruct fuel as [|fuel]; [lia|].
    destruct (IH fuel key ss ltac:(lia)) as (final & tr & Hrun & Hs & Hterm & Htr).
    cbn [poll]. rewrite Ht.
    rewrite (bind_ret (emit Sleep) _ (mkWorld key ss r) tt _ [Sleep] eq_refl).
    rewrite (bind_ret _ _ _ run' (mkWorld key ss r1)
               [RunsRetrieve thread (run_id run) (inr run')]
               (call_ok _ _ (mkWorld key ss r) run' r1 Hr)).
    rewrite Hrun. exists final. eexists. split; [reflexivity|].
    split; [assumption|]. split; [assumption|].
    cbn. repeat (constructor; [exact I|]). assumption.
Qed.

Lemma exchange_reports (content : string)
    (reply_of : ThreadMessage -> M R string) (fuel : nat) (thread : string)
    key ss rm r1 run r2 polls status r3 :
  threads_messages_create client thread "user" content rm = (inr tt, r1) ->
  threads_runs_create client thread assistant_id r1 = (inr run, r2) ->
  run_ends client thread run r2 polls status r3 ->
  polls <= fuel -> status <> "completed" ->
  exists tr,
    exchange client content reply_of fuel thread (mkWorld key ss rm)
      = (Ret (status_message status), mkWorld key ss r3, tr) /\
    Forall (fun e => is_messages_list e = false) tr.
Proof.
  intros Hpush Hcreate Hends Hle Hnc.
  destruct (poll_ends _ _ _ _ _ _ Hends fuel key ss Hle)
    as (final & t_poll & Hpoll & Hs & _ & Htr).
  unfold exchange.
  rewrite (bind_ret _ _ _ tt (mkWorld key ss r1)
             [MessagesCreate thread "user" content (inr tt)]
             (call_ok _ _ (mkWorld key ss rm) tt r1 Hpush)).
  rewrite (bind_ret _ _ _ run (mkWorld key ss r2)
             [RunsCreate thread assistant_id (inr run)]
             (call_ok _ _ (mkWorld key ss r1) run r2 Hcreate)).
  rewrite (bind_ret _ _ _ final (mkWorld key ss r3) t_poll Hpoll).
  rewrite Hs. apply String.eqb_neq in Hnc. rewrite Hnc. cbn.
  eexists. split; [reflexivity|].
  repeat (constructor; [reflexivity|]).
  rewrite app_nil_r. eapply Forall_impl; [|exact Htr].
  intros [] He; try contradiction; reflexivity.
Qed.

End Client.

(** With a key, on a service that takes the call to a run that ends with a
    status other than "completed", the call returns the status message and
    never asks for the messages of the thread. *)
Lemma call_reports_status
    (prompt : string -> string) (reply_of : ThreadMessage -> M R string)
    (fuel polls : nat) (text : string) (w : World R) key status :
  OPENAI_API_KEY w = Some key -> key <> "" ->
  status <> "completed" -> polls <= fuel ->
  service_ends_run (OpenAI_new key) w (prompt text) status polls ->
  exists w' tr,
    call_assistant_with OpenAI_new prompt reply_of fuel text w
      = (Ret (status_message status), w', tr) /\
    Forall (fun e => is_messages_list e = false) tr.
Proof.
  intros Hkey Hne Hnc Hle
    (thread & r0 & replayed & r1 & run & r2 & r3 & Hopen & Hpush & Hcreate & Hends).
  change (call_assistant_with OpenAI_new prompt reply_of fuel text)
    with (c <- get_client OpenAI_new ;;
          match c with
          | None => ret ""
          | Some c =>
              thread <- ensure_thread c assistant_id ;;
              exchange c (prompt text) reply_of fuel thread
          end).
  rewrite (bind_ret _ _ _ _ _ _ (get_client_key w key Hkey Hne)).
  apply pushes_accepted_app in Hpush. destruct Hpush as (rm & Hrep & Hlast).
  inversion Hlast as [|c cs ra rb rc Hc Hnil]; subst.
  inversion Hnil; subst.
  destruct (ensure_thread_opened (OpenAI_new key) assistant_id w _ _ _ _ Hopen Hrep)
    as (ss & t_ens & Hens & Hsetup).
  rewrite (bind_ret _ _ _ _ _ _ Hens).
  destruct (exchange_reports (OpenAI_new key) (prompt text) reply_of fuel thread
              (OPENAI_API_KEY w) ss _ _ _ _ _ _ _ Hc Hcreate Hends Hle Hnc)
    as (t_x & Hx & Hquiet).
  rewrite Hx. cbn [app]. eexists. eexists. split; [reflexivity|].
  apply Forall_app. split; [|assumption].
  eapply Forall_impl; [|exact Hsetup].
  intros [] He; try contradiction; reflexivity.
Qed.
End Progress.

End Progress.

(** ** Claims about the gateway and the session store *)

Module GatewayClaims.
Import MonadFacts GatewayFacts ProgramFacts Progress Scripted Fixtures.

(** C2 (as amended).  Whenever a call starts a run, the event just before
    is the push of the user's turn on the same handle, which is the handle the
    session holds, and no other run is started.  The plain program pushes the
    given text verbatim; the chart program pushes the text wrapped in its
    fixed prompt template. *)
Theorem C2_user_turn_pushed_before_run
    {R : Type} (OpenAI_new : string -> OpenAI R)
    (fuel : nat) (text : string) (w : World R) o w' tr thread a r :
  In (RunsCreate thread a r) tr ->
  (App.call_assistant OpenAI_new fuel text w = (o, w', tr) ->
   exists pre post,
     tr = pre ++ MessagesCreate thread "user" text (inr tt)
              :: RunsCreate thread a r :: post /\
     thread_id (session_state w') = Some thread /\
     Forall setup_event pre /\
     (forall thread' a' r', ~ In (RunsCreate thread' a' r') post)) /\
  (ChartApp.call_assistant OpenAI_new fuel text w = (o, w', tr) ->
   exists pre post,
     tr = pre ++ MessagesCreate thread "user"
                   (ChartApp.enhanced_prompt text) (inr tt)
              :: RunsCreate thread a r :: post /\
     thread_id (session_state w') = Some thread /\
     Forall setup_event pre /\
     (forall thread' a' r', ~ In (RunsCreate thread' a' r') post)).
Proof.
  intro Hin. split; intro H.
  - apply app_call_inv in H. destruct H as (Hrun & _).
    eapply run_preceded_by_push; eassumption.
  - apply chart_call_inv in H. destruct H as (Hrun & _).
    eapply run_preceded_by_push; eassumption.
Qed.

Lemma C2_plain_push_witness :
  let '(o, w', tr) := App.call_assistant client 3 "hi" (ready ["completed"] []) in
  In (RunsCreate "thread_0" assistant_id (inr (mkRun "run_1" "completed"))) tr /\
  exists pre post,
    tr = pre ++ MessagesCreate "thread_0" "user" "hi" (inr tt)
             :: RunsCreate "thread_0" assistant_id
                  (inr (mkRun "run_1" "completed")) :: post /\
    thread_id (session_state w') = Some "thread_0" /\
    Forall setup_event pre /\
    (forall thread' a' r', ~ In (RunsCreate thread' a' r') post).
Proof.
  assert (Hin : In (RunsCreate "thread_0" assistant_id
                      (inr (mkRun "run_1" "completed")))
                   (snd (App.call_assistant client 3 "hi" (ready ["completed"] []))))
    by (vm_compute; auto).
  pose proof (proj1 (C2_user_turn_pushed_before_run client 3 "hi"
                       (ready ["completed"] []) _ _ _ _ _ _ Hin) eq_refl) as H.
  split; [exact Hin | exact H].
Defined.

(** C2 as stated fails in the chart program: the run is started and the
    text was never pushed as given. *)
Lemma C2_chart_pushes_template :
  let tr := snd (ChartApp.call_assistant client 3 "hi" (ready ["completed"] [])) in
  existsb is_runs_create tr = true /\
  pushed_contents tr = [ChartApp.enhanced_prompt "hi"] /\
  ChartApp.enhanced_prompt "hi" <> "hi".
Proof.
  split; [|split]; [vm_compute; reflexivity | vm_compute; reflexivity |].
  vm_compute. discriminate.
Qed.

(** C3 (as amended).  Without an API key a submission shows the
    configuration error, makes no network call, and leaves the service and
    the conversation handle as they were; the history keeps its earlier
    entries and gains the user's message followed by an assistant message
    with empty content. *)
Theorem C3_missing_key_submission
    {R : Type} (OpenAI_new : string -> OpenAI R)
    (fuel : nat) (text : string) (w : World R) o w' tr :
  no_key w -> text <> "" ->
  App.script OpenAI_new fuel (Some text) w = (o, w', tr) \/
  ChartApp.script OpenAI_new fuel (Some text) w = (o, w', tr) ->
  o = Ret tt /\
  In config_error tr /\
  Forall (fun e => is_network_call e = false) tr /\
  remote w' = remote w /\
  thread_id (session_state w') = thread_id (session_state w) /\
  history (session_state w')
    = history (session_state w) ++ [Msg "user" text; Msg "assistant" ""].
Proof.
  intros Hk Hne H.
  assert (E : (o, w', tr) = (Ret tt, after_no_key text w, [config_error])).
  { destruct H as [H|H]; rewrite <- H.
    - now apply app_script_no_key.
    - now apply chart_script_no_key. }
  injection E as -> -> ->.
  split; [reflexivity|]. split; [now left|].
  split; [repeat constructor|]. auto.
Qed.

Lemma C3_missing_key_witness :
  let '(o, w', tr) := ChartApp.script client 3 (Some "hi") keyless in
  o = Ret tt /\
  In config_error tr /\
  Forall (fun e => is_network_call e = false) tr /\
  remote w' = remote keyless /\
  thread_id (session_state w') = thread_id (session_state keyless) /\
  history (session_state w')
    = history (session_state keyless) ++ [Msg "user" "hi"; Msg "assistant" ""].
Proof.
  refine (C3_missing_key_submission client 3 "hi" keyless _ _ _ _ _ _).
  - left. reflexivity.
  - discriminate.
  - right. reflexivity.
Defined.

(** C3 as stated fails: the history is not left unchanged. *)
Lemma C3_history_grows_without_key :
  let w' := snd (fst (App.script client 3 (Some "hi") keyless)) in
  no_key keyless /\
  history (session_state w') <> history (session_state keyless) /\
  length (history (session_state w')) = 4.
Proof.
  split; [left; reflexivity|]. split; [|reflexivity].
  vm_compute. discriminate.
Qed.

(** C10.  Without an API key [call_assistant] returns the empty string,
    having only shown the configuration error, and the script appends the
    user's message and then that empty string as the assistant's: the history
    grows by two entries. *)
Theorem C10_empty_reply_is_appended
    {R : Type} (OpenAI_new : string -> OpenAI R)
    (fuel : nat) (text : string) (w : World R) :
  no_key w -> text <> "" ->
  App.call_assistant OpenAI_new fuel text w = (Ret "", w, [config_error]) /\
  ChartApp.call_assistant OpenAI_new fuel text w = (Ret "", w, [config_error]) /\
  exists w',
    App.script OpenAI_new fuel (Some text) w = (Ret tt, w', [config_error]) /\
    ChartApp.script OpenAI_new fuel (Some text) w = (Ret tt, w', [config_error]) /\
    history (session_state w')
      = history (session_state w) ++ [Msg "user" text; Msg "assistant" ""] /\
    length (history (session_state w')) = length (history (session_state w)) + 2.
Proof.
  intros Hk Hne. split; [|split].
  - exact (call_assistant_no_key OpenAI_new (fun x => x) App.first_text
             fuel text w Hk).
  - exact (call_assistant_no_key OpenAI_new ChartApp.enhanced_prompt
             ChartApp.joined_parts fuel text w Hk).
  - exists (after_no_key text w).
    split; [now apply app_script_no_key|].
    split; [now apply chart_script_no_key|].
    split; [reflexivity|].
    unfold after_no_key, history at 1. cbn [session_state messages].
    rewrite length_app. reflexivity.
Qed.

Lemma C10_empty_reply_witness :
  App.call_assistant client 3 "hi" keyless = (Ret "", keyless, [config_error]) /\
  ChartApp.call_assistant client 3 "hi" keyless
    = (Ret "", keyless, [config_error]) /\
  exists w',
    App.script client 3 (Some "hi") keyless = (Ret tt, w', [config_error]) /\
    ChartApp.script client 3 (Some "hi") keyless = (Ret tt, w', [config_error]) /\
    history (session_state w')
      = history (session_state keyless) ++ [Msg "user" "hi"; Msg "assistant" ""] /\
    length (history (session_state w'))
      = length (history (session_state keyless)) + 2.
Proof.
  refine (C10_empty_reply_is_appended client 3 "hi" keyless _ _).
  - left. reflexivity.
  - discriminate.
Defined.

Lemma joined_reply_rendered (segments : list ContentBlock) :
  forallb rendered segments = true ->
  joined_reply segments = spec_joined_reply segments.
Proof.
  unfold joined_reply, spec_joined_reply. intro H. f_equal.
  induction segments as [|c segments IH]; [reflexivity|].
  simpl in H. apply andb_true_iff in H as [Hc H].
  simpl. rewrite <- (IH H). now destruct c.
Qed.

(** C4 (as amended).  When a call has listed the newest message of the
    thread, the chart program returns its segments joined by single spaces in
    their order: text verbatim, an image file as "[Image]", a segment of any
    other type left out; on messages made of text and image files only this
    is the join with every non-text segment replaced by the placeholder.  On
    a message that is a single text segment the plain program returns that
    text. *)
Theorem C4_reply_joins_segments
    {R : Type} (OpenAI_new : string -> OpenAI R)
    (fuel : nat) (text : string) (w : World R) o w' tr
    thread ord lim message rest :
  In (MessagesList thread ord lim (inr (message :: rest))) tr ->
  (ChartApp.call_assistant OpenAI_new fuel text w = (o, w', tr) ->
   o = Ret (joined_reply (tm_content message)) /\
   (forallb rendered (tm_content message) = true ->
    o = Ret (spec_joined_reply (tm_content message)))) /\
  (App.call_assistant OpenAI_new fuel text w = (o, w', tr) ->
   forall value, tm_content message = [TextContentBlock value] ->
   o = Ret value /\ o = Ret (spec_joined_reply (tm_content message))).
Proof.
  intro Hin. split; intro H.
  - apply chart_call_inv in H. destruct H as (Hrun & _).
    apply (listed_message_is_reply _ _ _ _ _ _ _ _ _ _ Hrun) in Hin.
    rewrite joined_value_spec in Hin. split; [assumption|].
    intro Hr. now rewrite <- joined_reply_rendered.
  - intros value Hv. apply app_call_inv in H. destruct H as (Hrun & _).
    apply (listed_message_is_reply _ _ _ _ _ _ _ _ _ _ Hrun) in Hin.
    unfold App.first_text_value in Hin. rewrite Hv in *.
    split; assumption.
Qed.

Lemma C4_joined_reply_witness :
  let '(o, _, tr) :=
    ChartApp.call_assistant client 3 "hi" (ready ["queued"; "completed"] mixed_reply) in
  In (MessagesList "thread_0" "desc" 1
        (inr [mkThreadMessage "assistant" mixed_reply])) tr /\
  o = Ret "Totals [Image] A: 3".
Proof.
  assert (Hin : In (MessagesList "thread_0" "desc" 1
                      (inr [mkThreadMessage "assistant" mixed_reply]))
                   (snd (ChartApp.call_assistant client 3 "hi"
                           (ready ["queued"; "completed"] mixed_reply))))
    by (vm_compute; auto 10).
  split; [exact Hin|].
  exact (proj1 (proj1 (C4_reply_joins_segments client 3 "hi"
                         (ready ["queued"; "completed"] mixed_reply)
                         _ _ _ _ _ _ _ _ Hin) eq_refl)).
Defined.

(** C4 as stated fails: a segment that is neither text nor an image file is
    dropped by the chart program, not replaced by the placeholder. *)
Lemma C4_other_segment_is_dropped :
  let segments := [TextContentBlock "a"; ImageURLContentBlock "https://x/y.png"] in
  let o := fst (fst (ChartApp.call_assistant client 3 "hi"
                       (ready ["completed"] segments))) in
  o = Ret "a" /\
  spec_joined_reply segments = "a [Image]" /\
  o <> Ret (spec_joined_reply segments).
Proof.
  split; [|split]; [vm_compute; reflexivity | vm_compute; reflexivity |].
  vm_compute. discriminate.
Qed.

(** C5.  When the service ends the run of a call with the status "failed",
    "cancelled" or "expired", [call_assistant] returns the status message
    without raising, and does not ask for the messages of the thread; the
    status name occurs in the message.  The premise is on the service: it
    opens the thread, accepts the turns pushed, starts the run and answers
    the status requests, the first terminal answer being that status. *)
Theorem C5_unsuccessful_run_is_reported
    {R : Type} (OpenAI_new : string -> OpenAI R)
    (fuel polls : nat) (text : string) (w : World R) (key status : string) :
  OPENAI_API_KEY w = Some key -> key <> "" ->
  In status ["failed"; "cancelled"; "expired"] ->
  polls <= fuel ->
  (service_ends_run (OpenAI_new key) w text status polls ->
   exists w' tr,
     App.call_assistant OpenAI_new fuel text w
       = (Ret (status_message status), w', tr) /\
     Forall (fun e => is_messages_list e = false) tr) /\
  (service_ends_run (OpenAI_new key) w (ChartApp.enhanced_prompt text)
     status polls ->
   exists w' tr,
     ChartApp.call_assistant OpenAI_new fuel text w
       = (Ret (status_message status), w', tr) /\
     Forall (fun e => is_messages_list e = false) tr) /\
  Str.contains status (status_message status) = true.
Proof.
  intros Hkey Hne Hst Hle.
  assert (Hnc : status <> "completed").
  { simpl in Hst. destruct Hst as [<-|[<-|[<-|[]]]]; discriminate. }
  split; [|split].
  - exact (call_reports_status OpenAI_new (fun x => x) App.first_text
             fuel polls text w key status Hkey Hne Hnc Hle).
  - exact (call_reports_status OpenAI_new ChartApp.enhanced_prompt
             ChartApp.joined_parts fuel polls text w key status
             Hkey Hne Hnc Hle).
  - unfold status_message. apply StrFacts.contains_app.
Qed.

Lemma C5_expired_run_witness :
  (exists w' tr,
     App.call_assistant client 3 "hi" (ready ["queued"; "expired"] [])
       = (Ret (status_message "expired"), w', tr) /\
     Forall (fun e => is_messages_list e = false) tr) /\
  (exists w' tr,
     ChartApp.call_assistant client 3 "hi" lapsed
       = (Ret (status_message "cancelled"), w', tr) /\
     Forall (fun e => is_messages_list e = false) tr) /\
  Str.contains "expired" (status_message "expired") = true.
Proof.
  assert (Hne : "sk-test" <> "") by discriminate.
  assert (Hle : 1 <= 3) by lia.
  destruct (C5_unsuccessful_run_is_reported client 3 1 "hi"
              (ready ["queued"; "expired"] []) "sk-test" "expired"
              eq_refl Hne (or_intror (or_intror (or_introl eq_refl))) Hle)
    as (Happ & _ & Hin).
  destruct (C5_unsuccessful_run_is_reported client 3 1 "hi"
              lapsed "sk-test" "cancelled"
              eq_refl Hne (or_intror (or_introl eq_refl)) Hle)
    as (_ & Hchart & _).
  split; [|split; [|exact Hin]].
  - apply Happ.
    exists "thread_0", (remote (ready ["queued"; "expired"] [])), [].
    do 4 eexists. split; [|split; [|split]].
    + repeat split.
    + eapply pa_push; [reflexivity|apply pa_none].
    + reflexivity.
    + eapply re_polled; [reflexivity|reflexivity|].
      exact (re_ended _ _ (mkRun "run_1" "expired") _ eq_refl).
  - apply Hchart.
    exists "thread_1", (remote lapsed), ["a"].
    do 4 eexists. split; [|split; [|split]].
    + split; reflexivity.
    + eapply pa_push; [reflexivity|].
      eapply pa_push; [reflexivity|apply pa_none].
    + reflexivity.
    + eapply re_polled; [reflexivity|reflexivity|].
      exact (re_ended _ _ (mkRun "run_1" "cancelled") _ eq_refl).
Defined.

(** C6.  With a handle in the session, [ensure_thread] returns it and
    does nothing else.  Without one, it first creates a thread; what it then
    pushes is, in order, an initial part of the stored user messages, never an
    assistant message; and when it returns, the session holds the new handle,
    the history is as it was, and every stored user message was pushed on the
    new handle, in the order of the history. *)
Theorem C6_ensure_thread
    {R : Type} (client : OpenAI R) (aid : string) (w : World R) :
  (forall t, thread_id (session_state w) = Some t ->
     ensure_thread client aid w = (Ret t, w, [])) /\
  (thread_id (session_state w) = None ->
   forall o w' tr, ensure_thread client aid w = (o, w', tr) ->
     (exists res, hd_error tr = Some (ThreadsCreate res)) /\
     (exists k,
        pushed_contents tr
          = firstn k (user_contents (history (session_state w)))) /\
     messages (session_state w') = messages (session_state w) /\
     (forall t, o = Ret t ->
        thread_id (session_state w') = Some t /\
        tr = ThreadsCreate (inr t) ::
             map (fun c => MessagesCreate t "user" c (inr tt))
                 (user_contents (history (session_state w))))).
Proof.
  split.
  - intros t Ht. now apply ensure_thread_present.
  - intros Hnone o w' tr H. apply ensure_thread_inv in H.
    destruct H as (Hm & _ & _ & Hret & Hnew).
    destruct (Hnew Hnone) as ((res & k & Htr & Hp) & Hall).
    split; [|split; [|split]].
    + exists res. now rewrite Htr.
    + now exists k.
    + assumption.
    + intros t Ho. split; [now apply Hret | now apply Hall].
Qed.

Lemma C6_replay_witness :
  ensure_thread (client "sk-test") assistant_id (ready [] [])
    = (Ret "thread_0", ready [] [], []) /\
  let '(o, w', tr) := ensure_thread (client "sk-test") assistant_id rehydrated in
  thread_id (session_state w') = Some "thread_1" /\
  tr = [ThreadsCreate (inr "thread_1");
        MessagesCreate "thread_1" "user" "a" (inr tt);
        MessagesCreate "thread_1" "user" "c" (inr tt)].
Proof.
  split.
  - exact (proj1 (C6_ensure_thread (client "sk-test") assistant_id (ready [] []))
             "thread_0" eq_refl).
  - destruct (proj2 (C6_ensure_thread (client "sk-test") assistant_id rehydrated)
                eq_refl _ _ _ eq_refl) as (_ & _ & _ & H).
    exact (H "thread_1" eq_refl).
Defined.

(** C7.  [N] submissions, each processed to its end, leave the history
    that was there followed by the [N] inputs in order, each directly
    followed by its reply: the roles alternate user, assistant, and a session
    that started empty holds exactly [2 N] messages. *)
Theorem C7_history_after_submissions
    {R : Type} (OpenAI_new : string -> OpenAI R)
    (fuel : nat) (texts : list string) (w : World R) w' tr :
  Forall (fun text => text <> "") texts ->
  session_with (App.script OpenAI_new fuel) (map Some texts) w
    = (Ret tt, w', tr) \/
  session_with (ChartApp.script OpenAI_new fuel) (map Some texts) w
    = (Ret tt, w', tr) ->
  exists replies,
    length replies = length texts /\
    history (session_state w')
      = history (session_state w) ++ interleave texts replies /\
    map role (interleave texts replies)
      = flat_map (fun _ => ["user"; "assistant"]) texts /\
    user_contents (interleave texts replies) = texts /\
    (history (session_state w) = [] ->
     length (history (session_state w')) = 2 * length texts).
Proof.
  intros Hne H.
  assert (Hh : exists replies,
             length replies = length texts /\
             history (session_state w')
               = history (session_state w) ++ interleave texts replies).
  { destruct H as [H|H].
    - eapply app_session_history; eassumption.
    - eapply chart_session_history; eassumption. }
  destruct Hh as (replies & Hlen & Hh).
  exists replies.
  destruct (roles_interleave texts replies Hlen) as (Hroles & Husers).
  repeat split; try assumption.
  intro Hempty. rewrite Hh, Hempty. simpl.
  now apply length_interleave.
Qed.

Lemma C7_two_submissions_witness :
  let run :=
    session_with (ChartApp.script client 3) [Some "hi"; Some "and rice?"] fresh in
  fst (fst run) = Ret tt /\
  history (session_state (snd (fst run)))
    = [Msg "user" "hi"; Msg "assistant" "Wheat: 12";
       Msg "user" "and rice?";
       Msg "assistant" (status_message "failed")] /\
  exists replies,
    length replies = 2 /\
    history (session_state (snd (fst run)))
      = history (session_state fresh) ++ interleave ["hi"; "and rice?"] replies /\
    map role (interleave ["hi"; "and rice?"] replies)
      = ["user"; "assistant"; "user"; "assistant"] /\
    user_contents (interleave ["hi"; "and rice?"] replies) = ["hi"; "and rice?"] /\
    (history (session_state fresh) = [] ->
     length (history (session_state (snd (fst run)))) = 4).
Proof.
  intro run.
  assert (Hrun : run = (Ret tt, snd (fst run), snd run))
    by (vm_compute; reflexivity).
  split; [vm_compute; reflexivity|]. split; [vm_compute; reflexivity|].
  refine (C7_history_after_submissions client 3 ["hi"; "and rice?"] fresh
            (snd (fst run)) (snd run) _ (or_intror Hrun)).
  repeat constructor; discriminate.
Defined.

End GatewayClaims.

(** ** More about the chart extractor *)

Module ExtractorExtras.
Import Str Re ReFacts ChartFacts IntFacts ExtractFacts Utf8Facts Fixtures.

(** *** What [strip] leaves *)

Lemma lstrip_split (s : list codepoint) :
  exists sp, s = sp ++ lstrip s /\ forallb is_space sp = true.
Proof.
  unfold lstrip.
  induction s as [|c s (sp & E & Hsp)]; [now exists []|].
  simpl. destruct (is_space c) eqn:Hc.
  - exists (c :: sp). simpl. rewrite Hc, Hsp. now rewrite <- E.
  - now exists [].
Qed.

Lemma lstrip_head (s : list codepoint) :
  match lstrip s with
  | c :: _ => is_space c = false
  | [] => True
  end.
Proof.
  unfold lstrip. induction s as [|c s IH]; [exact I|].
  simpl. destruct (is_space c) eqn:Hc; [assumption|]. exact Hc.
Qed.

Lemma rstrip_split (s : list codepoint) :
  exists sp, s = rstrip s ++ sp /\ forallb is_space sp = true.
Proof.
  destruct (lstrip_split (List.rev s)) as (sp & E & Hsp).
  exists (List.rev sp). split.
  - unfold rstrip. rewrite <- rev_app_distr, <- E. symmetry.
    apply rev_involutive.
  - now rewrite forallb_rev.
Qed.

(** Taking white space off the right end leaves a first character that is
    not white space where it is. *)
Lemma rstrip_keeps_head (c : codepoint) (s : list codepoint) :
  is_space c = false ->
  exists r, rstrip (c :: s) = c :: r.
Proof.
  intro Hc. destruct (rstrip_split (c :: s)) as (sp & E & Hsp).
  destruct (rstrip (c :: s)) as [|c' r] eqn:Er.
  - simpl in E. subst sp. simpl in Hsp. now rewrite Hc in Hsp.
  - simpl in E. injection E as -> _. now exists r.
Qed.

(** What [strip] returns neither starts nor ends with white space. *)
Lemma strip_ends (s : list codepoint) :
  match strip s with
  | c :: _ => is_space c = false
  | [] => True
  end /\
  match List.rev (strip s) with
  | c :: _ => is_space c = false
  | [] => True
  end.
Proof.
  unfold strip. split.
  - pose proof (lstrip_head s) as Hh.
    destruct (lstrip s) as [|c t]; [exact I|].
    destruct (rstrip_keeps_head c t Hh) as (r & ->). exact Hh.
  - unfold rstrip. rewrite rev_involutive. apply lstrip_head.
Qed.

(** [strip] only removes characters. *)
Lemma strip_incl (s : list codepoint) : incl (strip s) s.
Proof.
  unfold strip. intros c Hc.
  destruct (rstrip_split (lstrip s)) as (sp & E & _).
  destruct (lstrip_split s) as (sp' & E' & _).
  rewrite E'. apply in_or_app. right.
  rewrite E. apply in_or_app. now left.
Qed.

(** *** Digit runs *)

Lemma digit_value_range (c : codepoint) :
  is_digit c = true -> (0 <= digit_value c <= 9)%Z.
Proof.
  unfold is_digit, digit_value, to_decimal. intros _.
  destruct (find (fun r => (fst r <=? c) && (c <=? snd r))%N decimal_ranges)
    as [r|]; [|lia].
  pose proof (N.mod_lt (c - fst r) 10) as Hm.
  set (m := ((c - fst r) mod 10)%N) in *. clearbody m. lia.
Qed.

Lemma decimal_from_nonneg (s : list codepoint) (acc : Z) :
  (0 <= acc)%Z -> forallb is_digit s = true -> (0 <= decimal_from acc s)%Z.
Proof.
  revert acc. induction s as [|d s IH]; intros acc Ha H; simpl; [assumption|].
  simpl in H. apply andb_true_iff in H as [Hd H].
  apply IH; [|assumption]. pose proof (digit_value_range d Hd). lia.
Qed.


(** *** The rows, read off the matches *)

Lemma rows_of_occurrences_clean (s : list codepoint)
    (ms : list (list (list codepoint))) (rows : list ChartRow) :
  Forall valid s ->
  (forall gs, In gs ms ->
     exists label ws digits,
       gs = [label; digits] /\ is_occurrence label ws digits /\
       incl label s) ->
  build_rows py_int ms = Some rows ->
  length rows = length ms /\
  Forall (fun r =>
            (0 <= Value r)%Z /\
            all not_colon (Label r) = true /\
            trimmed (Label r)) rows.
Proof.
  intros Hs Hocc Hb. apply build_rows_some in Hb.
  induction Hb as [|gs r ms rows (l & v & z & -> & Hv & ->) _ IH];
    [split; constructor|].
  destruct IH as (Hlen & Hrows); [intros; apply Hocc; now right|].
  split; [simpl; congruence|]. constructor; [|assumption].
  destruct (Hocc [l; v] (or_introl eq_refl))
    as (l' & ws & v' & E & (Hne & Hl & _ & Hvne & Hd) & Hincl).
  injection E as <- <-. cbn [Value Label].
  rewrite py_int_digits in Hv by assumption.
  destruct (Nat.ltb default_max_str_digits (length v)); [discriminate|].
  injection Hv as <-.
  assert (Hvalid : Forall valid (strip l)).
  { rewrite Forall_forall in *. intros c Hc.
    apply Hs, Hincl. now apply strip_incl. }
  split; [|split].
  - now apply decimal_from_nonneg.
  - apply text_of_no_colon; [assumption|].
    rewrite forallb_forall in *. intros c Hc. apply Hl. now apply strip_incl.
  - unfold trimmed. rewrite chars_text_of by assumption. apply strip_ends.
Qed.

(** X2.  When the extractor returns rows, there is one per match; every
    value is a non-negative integer, and every label is free of colons and
    neither starts nor ends with a white space character. *)
Theorem X2_rows_are_clean (text : string) (rows : list ChartRow) :
  extract_chart_data text = Some rows ->
  length rows = length (findall chart_pattern (chars text)) /\
  Forall (fun r =>
            (0 <= Value r)%Z /\
            all not_colon (Label r) = true /\
            trimmed (Label r)) rows.
Proof.
  unfold extract_chart_data, extract_chart_data_with. intro H.
  apply (rows_of_occurrences_clean (chars text)).
  - apply chars_valid.
  - apply findall_occurrence.
  - destruct (findall chart_pattern (chars text)); [discriminate|assumption].
Qed.

Lemma X2_rows_are_clean_witness :
  extract_chart_data arabic_text = Some [Row "Rice" 53] /\
  length [Row "Rice" 53]
    = length (findall chart_pattern (chars arabic_text)) /\
  Forall (fun r =>
            (0 <= Value r)%Z /\
            all not_colon (Label r) = true /\
            trimmed (Label r))
         [Row "Rice" 53].
Proof.
  assert (H : extract_chart_data arabic_text = Some [Row "Rice" 53])
    by (vm_compute; reflexivity).
  split; [exact H|].
  exact (X2_rows_are_clean arabic_text [Row "Rice" 53] H).
Defined.

(** *** Where the rows lie in the text *)

(** X3.  The first row comes from the leftmost occurrence in the text: no
    occurrence starts before it, and its digit run is as long as it can be.
    The remaining rows are the rows of the text after that digit run, so
    rows come in order of appearance and from parts of the text that do not
    overlap. *)
Theorem X3_rows_in_order_of_appearance
    (text : string) (r : ChartRow) (rows : list ChartRow) :
  extract_chart_data text = Some (r :: rows) ->
  exists pre label ws digits rest,
    chars text = pre ++ label ++ [colon] ++ ws ++ digits ++ rest /\
    is_occurrence label ws digits /\
    r = Row (text_of (strip label)) (decimal_value digits) /\
    (forall a b, pre = a ++ b -> b <> [] ->
       ~ starts_occurrence (b ++ label ++ [colon] ++ ws ++ digits ++ rest)) /\
    starts_with_digit rest = false /\
    extract_chart_data (text_of rest)
      = match rows with [] => None | _ :: _ => Some rows end.
Proof.
  unfold extract_chart_data at 1, extract_chart_data_with. intro H.
  destruct (findall chart_pattern (chars text)) as [|m ms] eqn:E;
    [discriminate|].
  unfold findall in E. apply scan_first in E.
  2:{ intros t g r0 Hm. apply chart_match_sound in Hm.
      destruct Hm as (label & ws & digits & -> & _ & Hne & _).
      destruct label as [|x label]; [congruence|].
      exists x, (label ++ [colon] ++ ws ++ digits). simpl.
      repeat (rewrite <- app_assoc; simpl). reflexivity. }
  destruct E as (pre & t & rest & Etext & Hm & Hpre & Hmore).
  pose proof (chart_match_digits_maximal _ _ _ Hm) as Hmax.
  pose proof Hm as Hocc. apply chart_match_sound in Hocc.
  destruct Hocc as (label & ws & digits & -> & -> & Hocc).
  pose proof Hocc as (_ & _ & _ & Hdne & Hd).
  cbn [build_rows] in H. rewrite py_int_digits in H by assumption.
  destruct (Nat.ltb default_max_str_digits (length digits)); [discriminate|].
  destruct (build_rows py_int ms) as [rs|] eqn:Hb; [|discriminate].
  injection H as <- <-.
  exists pre, label, ws, digits, rest.
  split; [assumption|]. split; [assumption|]. split; [reflexivity|].
  split; [|split; [assumption|]].
  - intros a b Ea Hb' (label' & ws' & digits' & post' & Eb & Hocc').
    apply (chart_match_complete label' ws' digits' post' Hocc').
    rewrite <- Eb. now apply (Hpre a b).
  - assert (Hrest : chars (text_of rest) = rest).
    { apply chars_text_of. pose proof (chars_valid text) as Hv.
      rewrite Etext in Hv. rewrite !Forall_app in Hv. tauto. }
    unfold extract_chart_data, extract_chart_data_with.
    rewrite Hrest. fold (findall chart_pattern rest) in Hmore.
    rewrite <- Hmore.
    destruct ms as [|m' ms].
    + injection Hb as <-. reflexivity.
    + destruct rs as [|r' rs]; [|assumption].
      exfalso. apply build_rows_some in Hb. inversion Hb.
Qed.

Lemma X3_rows_in_order_witness :
  exists pre label ws digits rest,
    chars "Yield - Rice: 40kg; Maize: 7"
      = pre ++ label ++ [colon] ++ ws ++ digits ++ rest /\
    is_occurrence label ws digits /\
    Row "Yield - Rice" 40
      = Row (text_of (strip label)) (decimal_value digits) /\
    (forall a b, pre = a ++ b -> b <> [] ->
       ~ starts_occurrence (b ++ label ++ [colon] ++ ws ++ digits ++ rest)) /\
    starts_with_digit rest = false /\
    extract_chart_data (text_of rest) = Some [Row "kg; Maize" 7].
Proof.
  exact (X3_rows_in_order_of_appearance "Yield - Rice: 40kg; Maize: 7"
           (Row "Yield - Rice" 40) [Row "kg; Maize" 7]
           ltac:(vm_compute; reflexivity)).
Defined.

(** *** Texts that cannot chart *)

Lemma no_colon_no_occurrence (text : string) :
  all not_colon text = true -> ~ occurs_in text.
Proof.
  intros H (pre & label & ws & digits & post & E & _).
  apply chars_no_colon in H. rewrite E in H.
  rewrite !forallb_app in H. cbn [forallb] in H.
  replace (is_not_colon colon) with false in H by reflexivity.
  cbn [andb] in H. rewrite !andb_false_r in H. discriminate.
Qed.

(** X4.  A text without a colon never charts.  So the message reporting a
    run that did not complete, whose status has no colon, and the placeholder
    for a missing reply yield no chart. *)
Theorem X4_no_colon_no_chart (text : string) :
  all not_colon text = true ->
  extract_chart_data text = None /\
  extract_chart_data (status_message text) = None /\
  extract_chart_data no_response = None.
Proof.
  intro H.
  assert (Hnone : forall t, all not_colon t = true -> extract_chart_data t = None).
  { intros t Ht. apply no_colon_no_occurrence, findall_nil_iff in Ht.
    unfold extract_chart_data, extract_chart_data_with. now rewrite Ht. }
  split; [now apply Hnone|]. split; apply Hnone.
  - unfold status_message. rewrite !StrFacts.all_app, H. reflexivity.
  - reflexivity.
Qed.

Lemma X4_no_colon_no_chart_witness :
  extract_chart_data "expired" = None /\
  extract_chart_data (status_message "expired") = None /\
  extract_chart_data no_response = None.
Proof. exact (X4_no_colon_no_chart "expired" eq_refl). Defined.

End ExtractorExtras.

(** ** The anatomy of a call *)

Module Anatomy.
Import MonadFacts GatewayFacts ProgramFacts.

Section Anatomy.
Context {R : Type}.
Variable OpenAI_new : string -> OpenAI R.
Variable client : OpenAI R.

Lemma poll_traced (fuel : nat) (thread : string) (run : Run) (w : World R) o w' tr :
  poll fuel client thread run w = (o, w', tr) ->
  poll_trace thread run tr o /\
  session_state w' = session_state w /\
  OPENAI_API_KEY w' = OPENAI_API_KEY w.
Proof.
  revert run w o w' tr.
  induction fuel as [|fuel IH]; intros run w o w' tr H; cbn [poll] in H;
    destruct (is_terminal (run_status run)) eqn:Hterm.
  - run_inv H. split; [now constructor|auto].
  - inversion H; subst. split; [now constructor|auto].
  - run_inv H. split; [now constructor|auto].
  - bind_cases H H1 H2; apply emit_run in H1; destruct H1 as (E & -> & ->);
      try discriminate E.
    bind_cases H2 H1 H3;
      apply call_inv in H1; destruct H1 as (res & -> & Hs & Hk & Ho).
    + destruct res as [ex|run']; [discriminate|]. injection Ho as ->.
      apply IH in H3. destruct H3 as (Hp & Hs3 & Hk3).
      split; [now constructor|]. split; congruence.
    + destruct res as [ex|run']; [|discriminate]. injection Ho as ->.
      split; [now constructor|auto].
    + destruct res; discriminate.
Qed.

Variable reply_of : ThreadMessage -> M R string.
Variable reply : ThreadMessage -> outcome string.
Hypothesis reply_of_pure : forall m w, reply_of m w = (reply m, w, []).

Lemma exchange_inv (content : string) (fuel : nat) (thread : string)
    (w : World R) o w' tr :
  exchange client content reply_of fuel thread w = (o, w', tr) ->
  exchange_run content reply thread o tr /\
  session_state w' = session_state w /\
  OPENAI_API_KEY w' = OPENAI_API_KEY w.
Proof.
  intro H. unfold exchange in H.
  bind_cases H H1 H4;
    apply call_inv in H1; destruct H1 as (res & -> & Hs1 & Hk1 & Ho).
  2:{ destruct res as [ex|[]]; [injection Ho as ->|discriminate].
      split; [constructor|auto]. }
  2:{ destruct res; discriminate. }
  destruct res as [ex|[]]; [discriminate|]. clear Ho.
  bind_cases H4 H1 H5;
    apply call_inv in H1; destruct H1 as (res & -> & Hs2 & Hk2 & Ho).
  2:{ destruct res as [ex|run0]; [injection Ho as ->|discriminate].
      split; [constructor|]. split; congruence. }
  2:{ destruct res; discriminate. }
  destruct res as [ex|run0]; [discriminate|]. injection Ho as ->.
  cbn [app].
  bind_cases H5 H1 H6;
    apply poll_traced in H1; destruct H1 as (Hp & Hs3 & Hk3).
  2:{ split; [now apply xr_poll_raised|]. split; congruence. }
  2:{ split; [now apply xr_still_polling|]. split; congruence. }
  match type of Hp with
  | poll_trace _ _ _ (Ret ?r) =>
      destruct (String.eqb (run_status r) "completed") eqn:Hc
  end; cbn [negb] in H6.
  - apply String.eqb_eq in Hc.
    bind_cases H6 H1 H7;
      apply call_inv in H1; destruct H1 as (res & -> & Hs4 & Hk4 & Ho).
    + destruct res as [ex|data]; [discriminate|]. injection Ho as ->.
      destruct data as [|message rest].
      * run_inv H7. split; [|split; congruence].
        eapply xr_polled; [eassumption|]. now apply fin_empty.
      * rewrite reply_of_pure in H7. inversion H7; subst.
        split; [|split; congruence].
        eapply xr_polled; [eassumption|]. now apply fin_reply.
    + destruct res as [ex|data]; [injection Ho as ->|discriminate].
      split; [|split; congruence].
      eapply xr_polled; [eassumption|]. now apply fin_list_failed.
    + destruct res; discriminate.
  - apply String.eqb_neq in Hc. run_inv H6.
    split; [|split; congruence].
    rewrite ?app_nil_r.
    match goal with
    | |- exchange_run _ _ _ _ (_ :: _ :: ?t) => rewrite <- (app_nil_r t)
    end.
    eapply xr_polled; [eassumption|]. now apply fin_status.
Qed.

(** A call is [get_client], then [ensure_thread], then [exchange]. *)
Lemma call_assistant_anatomy (prompt : string -> string)
    (fuel : nat) (text : string) (w : World R) o w' tr :
  call_assistant_with OpenAI_new prompt reply_of fuel text w = (o, w', tr) ->
  (no_key w /\ o = Ret "" /\ w' = w /\ tr = [config_error]) \/
  (exists key o_e w1 t_ens,
     OPENAI_API_KEY w = Some key /\ key <> "" /\
     ensure_thread (OpenAI_new key) assistant_id w = (o_e, w1, t_ens) /\
     match o_e with
     | Ret thread =>
         exists t_x,
           exchange (OpenAI_new key) (prompt text) reply_of fuel thread w1
             = (o, w', t_x) /\
           tr = t_ens ++ t_x
     | Raise x => o = Raise x /\ w' = w1 /\ tr = t_ens
     | StillPolling => o = StillPolling /\ w' = w1 /\ tr = t_ens
     end).
Proof.
  intro H.
  change (call_assistant_with OpenAI_new prompt reply_of fuel text)
    with (c <- get_client OpenAI_new ;;
          match c with
          | None => ret ""
          | Some c =>
              thread <- ensure_thread c assistant_id ;;
              exchange c (prompt text) reply_of fuel thread
          end) in H.
  bind_cases H H1 H2; apply get_client_inv in H1;
    destruct H1 as (-> & [(Hnk & E & ->) | (key & Hkey & Hne & E & ->)]);
    try discriminate E.
  { injection E as ->. run_inv H2. left. auto. }
  injection E as ->. cbn [app]. right.
  exists key.
  destruct (ensure_thread (OpenAI_new key) assistant_id w)
    as [[o_e w1] t_ens] eqn:He.
  exists o_e, w1, t_ens. split; [assumption|]. split; [assumption|].
  split; [reflexivity|].
  unfold bind in H2. rewrite He in H2.
  destruct o_e as [thread|x|].
  - destruct (exchange (OpenAI_new key) (prompt text) reply_of fuel thread w1)
      as [[o2 w2] t_x] eqn:Hx.
    injection H2 as <- <- <-. exists t_x. auto.
  - injection H2 as <- <- <-. auto.
  - injection H2 as <- <- <-. auto.
Qed.
End Anatomy.

End Anatomy.

(** ** What the traces of the parts have in common *)

Module TraceProps.
Import MonadFacts GatewayFacts ProgramFacts Anatomy.

Lemma clean_app (a b : list event) : clean (a ++ b) <-> clean a /\ clean b.
Proof. apply Forall_app. Qed.

Lemma orderly_after_clean (r : option exn) (a b : list event) :
  clean a -> orderly r b -> orderly r (a ++ b).
Proof.
  intros Ha [Hb|(pre & ev & x & -> & Hpre & Hev & Hr)].
  - left. now apply clean_app.
  - right. exists (a ++ pre), ev, x. rewrite app_assoc.
    repeat split; auto. now apply clean_app.
Qed.

Lemma last_split {A} (pre' pre post : list A) (ev' ev : A) :
  pre' ++ [ev'] = pre ++ ev :: post ->
  (post = [] /\ ev = ev') \/ In ev pre'.
Proof.
  revert pre. induction pre' as [|a pre' IH]; intros pre E.
  - destruct pre as [|b pre]; simpl in E.
    + injection E as <- <-. now left.
    + injection E as _ E. destruct pre; discriminate.
  - destruct pre as [|b pre]; simpl in E.
    + injection E as <- _. right. now left.
    + injection E as _ E. destruct (IH _ E) as [H|H]; [now left|].
      right. now right.
Qed.

(** The readable form of [orderly]: a failed call is the last event, and
    the computation raised what it raised. *)
Lemma orderly_failure_is_last (r : option exn) (tr : list event) :
  orderly r tr ->
  forall pre ev post x,
    tr = pre ++ ev :: post -> failure_of ev = Some x ->
    post = [] /\ r = Some x.
Proof.
  intros [Hc|(pre' & ev' & x' & -> & Hpre & Hev & Hr)] pre ev post x E Hx.
  - exfalso. subst tr. apply clean_app in Hc as [_ Hc].
    inversion Hc; subst. congruence.
  - destruct (last_split _ _ _ _ _ E) as [(-> & ->)|Hin].
    + split; [reflexivity|]. congruence.
    + exfalso. unfold clean in Hpre. rewrite Forall_forall in Hpre.
      specialize (Hpre _ Hin). congruence.
Qed.

Lemma orderly_ret_clean (tr : list event) : orderly None tr -> clean tr.
Proof. intros [H|(pre & ev & x & _ & _ & _ & H)]; [assumption|discriminate]. Qed.

(** *** The polling loop *)

Section Poll.
Variable thread : string.

Lemma poll_addressed run tr o :
  poll_trace thread run tr o -> Forall (addressed_to thread) tr.
Proof.
  induction 1; repeat constructor; assumption.
Qed.

Lemma poll_orderly run tr o :
  poll_trace thread run tr o -> orderly (raised o) tr.
Proof.
  induction 1 as [run Ht|run Ht|run x Ht|run run' tr o Ht Hp IH].
  - left. constructor.
  - left. constructor.
  - right. exists [Sleep], (RunsRetrieve thread (run_id run) (inl x)), x.
    repeat split. repeat constructor.
  - change (Sleep :: RunsRetrieve thread (run_id run) (inr run') :: tr)
      with ([Sleep; RunsRetrieve thread (run_id run) (inr run')] ++ tr).
    apply orderly_after_clean; [repeat constructor|assumption].
Qed.

Lemma poll_no_push run tr o :
  poll_trace thread run tr o -> pushed_contents tr = [].
Proof. induction 1; simpl; auto. Qed.

Lemma poll_paired run tr o :
  poll_trace thread run tr o -> sleeps_paired tr = true.
Proof. induction 1; simpl; auto. Qed.

Lemma poll_stops run tr o :
  poll_trace thread run tr o ->
  stops_at_terminal (run_status run :: observed_statuses tr) = true.
Proof.
  induction 1 as [run Ht|run Ht|run x Ht|run run' tr o Ht Hp IH];
    try reflexivity.
  cbn [observed_statuses]. cbn [stops_at_terminal] in *.
  rewrite Ht. exact IH.
Qed.

Lemma poll_no_chart_or_error run tr o e :
  poll_trace thread run tr o -> In e tr ->
  e = Sleep \/ exists id res, e = RunsRetrieve thread id res.
Proof.
  induction 1 as [run Ht|run Ht|run x Ht|run run' tr o Ht Hp IH]; intro Hin;
    simpl in Hin; try contradiction.
  - destruct Hin as [<-|[<-|[]]]; eauto.
  - destruct Hin as [<-|[<-|Hin]]; eauto.
Qed.
End Poll.

(** *** The exchange *)

Section Exchange.
Variable content : string.
Variable reply : ThreadMessage -> outcome string.
Variable thread : string.

Lemma finish_addressed run o t :
  finish reply thread run o t -> Forall (addressed_to thread) t.
Proof. destruct 1; repeat constructor. Qed.

Lemma finish_orderly run o t :
  finish reply thread run o t -> orderly (raised o) t.
Proof.
  destruct 1; try solve [left; repeat constructor].
  right. exists [], (MessagesList thread "desc" 1 (inl e)), e.
  repeat split. constructor.
Qed.

Lemma finish_quiet run o t :
  finish reply thread run o t ->
  pushed_contents t = [] /\ sleeps_paired t = true.
Proof. destruct 1; auto. Qed.

Lemma sleeps_paired_app (a b : list event) :
  sleeps_paired a = true -> sleeps_paired b = true ->
  sleeps_paired (a ++ b) = true.
Proof.
  intros Ha Hb. revert Ha.
  assert (H : forall n a, length a <= n ->
                sleeps_paired a = true -> sleeps_paired (a ++ b) = true).
  { induction n as [|n IH]; intros l Hl Ha.
    - destruct l; [assumption|simpl in Hl; lia].
    - destruct l as [|e l]; [assumption|].
      destruct e; simpl in *; try discriminate;
        try (apply IH; [lia|assumption]).
      destruct l as [|e' l]; [discriminate|].
      destruct e'; try discriminate.
      simpl in *. apply IH; [lia|assumption]. }
  apply (H (length a)). lia.
Qed.

Lemma pushed_contents_app (a b : list event) :
  pushed_contents (a ++ b) = pushed_contents a ++ pushed_contents b.
Proof.
  induction a as [|e a IH]; [reflexivity|].
  destruct e; simpl; rewrite IH; reflexivity.
Qed.

Lemma exchange_addressed o tr :
  exchange_run content reply thread o tr -> Forall (addressed_to thread) tr.
Proof.
  destruct 1 as [x|x|run0 t_poll x Hp|run0 t_poll Hp|run0 run t_poll o t_fin Hp Hf];
    repeat (constructor; [reflexivity|]); try constructor.
  - now apply poll_addressed in Hp.
  - now apply poll_addressed in Hp.
  - apply Forall_app. split.
    + now apply poll_addressed in Hp.
    + now apply finish_addressed in Hf.
Qed.

Lemma exchange_orderly o tr :
  exchange_run content reply thread o tr -> orderly (raised o) tr.
Proof.
  destruct 1 as [x|x|run0 t_poll x Hp|run0 t_poll Hp|run0 run t_poll o t_fin Hp Hf].
  - right. exists [], (MessagesCreate thread "user" content (inl x)), x.
    repeat split. constructor.
  - right. exists [MessagesCreate thread "user" content (inr tt)],
      (RunsCreate thread assistant_id (inl x)), x.
    repeat split. repeat constructor.
  - apply (orderly_after_clean _
             [MessagesCreate thread "user" content (inr tt);
              RunsCreate thread assistant_id (inr run0)]);
      [repeat constructor|]. now apply poll_orderly in Hp.
  - apply (orderly_after_clean _
             [MessagesCreate thread "user" content (inr tt);
              RunsCreate thread assistant_id (inr run0)]);
      [repeat constructor|]. now apply poll_orderly in Hp.
  - apply (orderly_after_clean _
             [MessagesCreate thread "user" content (inr tt);
              RunsCreate thread assistant_id (inr run0)]);
      [repeat constructor|].
    apply orderly_after_clean.
    + apply poll_orderly in Hp. now apply orderly_ret_clean.
    + now apply finish_orderly in Hf.
Qed.

Lemma exchange_pushed o tr :
  exchange_run content reply thread o tr -> pushed_contents tr = [content].
Proof.
  destruct 1 as [x|x|run0 t_poll x Hp|run0 t_poll Hp|run0 run t_poll o t_fin Hp Hf];
    try reflexivity; cbn [pushed_contents]; f_equal.
  - now apply poll_no_push in Hp.
  - now apply poll_no_push in Hp.
  - rewrite pushed_contents_app. apply poll_no_push in Hp.
    apply finish_quiet in Hf. destruct Hf as (Hf & _). now rewrite Hp, Hf.
Qed.

Lemma exchange_paired o tr :
  exchange_run content reply thread o tr -> sleeps_paired tr = true.
Proof.
  destruct 1 as [x|x|run0 t_poll x Hp|run0 t_poll Hp|run0 run t_poll o t_fin Hp Hf];
    try reflexivity; cbn [sleeps_paired].
  - now apply poll_paired in Hp.
  - now apply poll_paired in Hp.
  - apply sleeps_paired_app.
    + now apply poll_paired in Hp.
    + now apply finish_quiet in Hf.
Qed.

Lemma exchange_stops o tr :
  exchange_run content reply thread o tr ->
  stops_at_terminal (observed_statuses tr) = true.
Proof.
  destruct 1 as [x|x|run0 t_poll x Hp|run0 t_poll Hp|run0 run t_poll o t_fin Hp Hf];
    try reflexivity; cbn [observed_statuses].
  - now apply poll_stops in Hp.
  - now apply poll_stops in Hp.
  - rewrite observed_statuses_app, (finish_no_status _ _ _ _ _ Hf), app_nil_r.
    now apply poll_stops in Hp.
Qed.
End Exchange.

(** *** Thread set-up *)

Section Setup.
Context {R : Type}.
Variable client : OpenAI R.

Lemma setup_paired (tr : list event) :
  Forall setup_event tr -> sleeps_paired tr = true.
Proof.
  induction 1 as [|e tr He _ IH]; [reflexivity|].
  destruct e; simpl in *; try contradiction; assumption.
Qed.

Lemma replay_anatomy (thread : string) (ms : list Message) (w : World R) o w' tr :
  for_each (replay client thread) ms w = (o, w', tr) ->
  Forall (addressed_to thread) tr /\ orderly (raised o) tr.
Proof.
  revert w o w' tr. induction ms as [|m ms IH]; intros w o w' tr H.
  - run_inv H. split; [constructor|left; constructor].
  - cbn [for_each] in H. unfold replay at 1 in H.
    destruct (String.eqb (role m) "user").
    + bind_cases H H1 H2;
        apply call_inv in H1; destruct H1 as (res & -> & Hs & Hk & Ho).
      * destruct res as [ex|[]]; [discriminate|].
        apply IH in H2. destruct H2 as (Ha & Hord).
        split; [constructor; [reflexivity|assumption]|].
        apply (orderly_after_clean _ [_]); [repeat constructor|assumption].
      * destruct res as [ex|[]]; [injection Ho as ->|discriminate].
        split; [repeat constructor|].
        right. exists [], (MessagesCreate thread "user" (content m) (inl ex)), ex.
        repeat split. constructor.
      * destruct res; discriminate.
    + bind_cases H H1 H2; run_inv H1. now apply IH in H2.
Qed.

(** Without a handle, [ensure_thread] asks for a thread first.  If that
    fails nothing else happens; if it succeeds the session holds the new
    handle from then on, whatever happens to the replay. *)
Lemma ensure_thread_anatomy (aid : string) (w : World R) o w' tr :
  thread_id (session_state w) = None ->
  ensure_thread client aid w = (o, w', tr) ->
  exists res rest,
    tr = ThreadsCreate res :: rest /\
    match res with
    | inl x => rest = [] /\ o = Raise x /\ session_state w' = session_state w
    | inr t =>
        session_state w' = Session (Some t) (messages (session_state w)) /\
        Forall (addressed_to t) rest /\
        orderly (raised o) rest /\
        (forall t', o = Ret t' -> t' = t)
    end.
Proof.
  intros Hnone H. unfold ensure_thread in H.
  bind_cases H H1 H2; [|discriminate|discriminate].
  run_inv H1. cbn [app]. rewrite Hnone in H2.
  bind_cases H2 H1 H3;
    apply call_inv in H1; destruct H1 as (res & -> & Hs & Hk & Ho).
  2:{ destruct res as [ex|t]; [injection Ho as ->|discriminate].
      exists (inl ex), []. auto. }
  2:{ destruct res; discriminate. }
  destruct res as [ex|t]; [discriminate|]. injection Ho as ->.
  exists (inr t). cbn [app].
  bind_cases H3 H1 H4; [|discriminate|discriminate].
  run_inv H1. cbn [app].
  bind_cases H4 H1 H5; [|discriminate|discriminate].
  run_inv H1. cbn [session_state messages app] in H5 |- *.
  destruct (messages (session_state w)) as [ms|] eqn:Hm.
  - bind_cases H5 H1 H6.
    + pose proof (replay_anatomy _ _ _ _ _ _ H1) as (Ha & Hord).
      apply replay_inv in H1. destruct H1 as (Hs1 & _).
      run_inv H6. rewrite app_nil_r. eexists. split; [reflexivity|].
      cbn in Hs1. rewrite Hs1. repeat split; auto.
      intros t' E. now injection E.
    + pose proof (replay_anatomy _ _ _ _ _ _ H1) as (Ha & Hord).
      apply replay_inv in H1. destruct H1 as (Hs1 & _).
      eexists. split; [reflexivity|].
      cbn in Hs1. rewrite Hs1. repeat split; auto. discriminate.
    + pose proof (replay_anatomy _ _ _ _ _ _ H1) as (Ha & Hord).
      apply replay_inv in H1. destruct H1 as (Hs1 & _).
      eexists. split; [reflexivity|].
      cbn in Hs1. rewrite Hs1. repeat split; auto. discriminate.
  - bind_cases H5 H1 H6; [|discriminate|discriminate].
    run_inv H1. run_inv H6. exists []. split; [reflexivity|].
    cbn. repeat split; auto.
    + left. constructor.
    + intros t' E. now injection E.
Qed.

Lemma ensure_thread_orderly (aid : string) (w : World R) o w' tr :
  ensure_thread client aid w = (o, w', tr) -> orderly (raised o) tr.
Proof.
  intro H. destruct (thread_id (session_state w)) as [t|] eqn:Ht.
  - rewrite (ensure_thread_present client aid t w Ht) in H.
    injection H as <- <- <-. left. constructor.
  - destruct (ensure_thread_anatomy _ _ _ _ _ Ht H) as (res & rest & -> & Hres).
    destruct res as [x|t].
    + destruct Hres as (-> & -> & _). right.
      exists [], (ThreadsCreate (inl x)), x. repeat split. constructor.
    + destruct Hres as (_ & _ & Hord & _).
      apply (orderly_after_clean _ [_]); [repeat constructor|assumption].
Qed.
End Setup.

(** *** The submission *)

Section Submission.
Context {R : Type}.
Variable call_assistant : string -> M R string.
Variable show : string -> M R unit.

(** On a non-empty input the script is: the call, in a world whose history
    already has the user's message, then the appending of the reply and its
    display. *)
Lemma script_with_submission (text : string) (w : World R) :
  text <> "" ->
  script_with call_assistant show (Some text) w
    = (assistant_reply <- call_assistant text ;;
       append_message "assistant" assistant_reply ;;
       show assistant_reply) (with_user_message text w).
Proof.
  intro Hne. destruct text as [|ch text]; [congruence|].
  destruct w as [key [tid ms] rm].
  unfold script_with, with_user_message, history.
  set (K := (assistant_reply <- call_assistant (String ch text) ;;
             append_message "assistant" assistant_reply ;;
             show assistant_reply)).
  clearbody K.
  destruct ms as [ms|]; cbn;
    match goal with
    | |- context [K ?w0] => destruct (K w0) as [[o1 w1] t1]
    end; reflexivity.
Qed.
End Submission.

End TraceProps.

(** ** More about the gateway and the scripts *)

Module GatewayExtras.
Import MonadFacts GatewayFacts ProgramFacts Anatomy TraceProps Scripted Fixtures Cases.

(** *** Calls, whatever the prompt and the way the reply is read *)

Section Calls.
Context {R : Type}.
Variable OpenAI_new : string -> OpenAI R.
Variable prompt : string -> string.
Variable reply_of : ThreadMessage -> M R string.
Variable reply : ThreadMessage -> outcome string.
Hypothesis reply_of_pure : forall m w, reply_of m w = (reply m, w, []).

Let call_assistant := call_assistant_with OpenAI_new prompt reply_of.

Lemma call_orderly fuel text (w : World R) o w' tr :
  call_assistant fuel text w = (o, w', tr) -> orderly (raised o) tr.
Proof.
  intro H. apply call_assistant_anatomy in H.
  destruct H as [(_ & -> & _ & ->)|(key & o_e & w1 & t_ens & _ & _ & He & H)].
  - left. repeat constructor.
  - pose proof (ensure_thread_orderly _ _ _ _ _ _ He) as Hord.
    destruct o_e as [thread|x|].
    + destruct H as (t_x & Hx & ->).
      apply (exchange_inv _ _ reply reply_of_pure) in Hx.
      destruct Hx as (Hx & _).
      apply orderly_after_clean; [now apply orderly_ret_clean|].
      now apply exchange_orderly in Hx.
    + destruct H as (-> & _ & ->). exact Hord.
    + destruct H as (-> & _ & ->). exact Hord.
Qed.

Lemma call_polling fuel text (w : World R) o w' tr :
  call_assistant fuel text w = (o, w', tr) ->
  sleeps_paired tr = true /\
  stops_at_terminal (observed_statuses tr) = true.
Proof.
  intro H. apply call_assistant_anatomy in H.
  destruct H as [(_ & -> & _ & ->)|(key & o_e & w1 & t_ens & _ & _ & He & H)].
  - split; reflexivity.
  - apply ensure_thread_inv in He. destruct He as (_ & _ & Hf & _).
    destruct o_e as [thread|x|].
    + destruct H as (t_x & Hx & ->).
      apply (exchange_inv _ _ reply reply_of_pure) in Hx.
      destruct Hx as (Hx & _). split.
      * apply sleeps_paired_app; [now apply setup_paired|].
        now apply exchange_paired in Hx.
      * rewrite observed_statuses_app, (setup_no_status _ Hf).
        now apply exchange_stops in Hx.
    + destruct H as (_ & _ & ->). split; [now apply setup_paired|].
      now rewrite (setup_no_status _ Hf).
    + destruct H as (_ & _ & ->). split; [now apply setup_paired|].
      now rewrite (setup_no_status _ Hf).
Qed.

(** With a handle in the session a call leaves the session as it is and
    talks to that thread only, pushing just the prompt. *)
Lemma call_with_handle fuel text (w : World R) o w' tr t :
  thread_id (session_state w) = Some t ->
  call_assistant fuel text w = (o, w', tr) ->
  session_state w' = session_state w /\
  Forall (addressed_to t) tr /\
  (no_key w \/ pushed_contents tr = [prompt text]).
Proof.
  intros Ht H. apply call_assistant_anatomy in H.
  destruct H as [(Hnk & -> & -> & ->)|(key & o_e & w1 & t_ens & _ & _ & He & H)].
  - split; [reflexivity|]. split; [repeat constructor|now left].
  - rewrite (ensure_thread_present _ _ t w Ht) in He.
    injection He as <- <- <-. destruct H as (t_x & Hx & ->).
    apply (exchange_inv _ _ reply reply_of_pure) in Hx.
    destruct Hx as (Hx & Hs & _). cbn [app].
    split; [assumption|]. split; [now apply exchange_addressed in Hx|].
    right. now apply exchange_pushed in Hx.
Qed.

Lemma pushed_contents_replayed (t : string) (cs : list string) :
  pushed_contents (map (fun c => MessagesCreate t "user" c (inr tt)) cs) = cs.
Proof. induction cs as [|c cs IH]; simpl; congruence. Qed.

Lemma setup_no_run (tr : list event) e :
  Forall setup_event tr -> In e tr -> is_runs_create e = false.
Proof.
  intros H Hin. rewrite Forall_forall in H. specialize (H _ Hin).
  now destruct e.
Qed.

(** Without a handle, a call that gets as far as starting a run has pushed
    every stored user message and then the prompt. *)
Lemma call_without_handle fuel text (w : World R) o w' tr e :
  thread_id (session_state w) = None ->
  call_assistant fuel text w = (o, w', tr) ->
  In e tr -> is_runs_create e = true ->
  pushed_contents tr
    = user_contents (history (session_state w)) ++ [prompt text].
Proof.
  intros Ht H Hin Hrc. apply call_assistant_anatomy in H.
  destruct H as [(_ & _ & _ & ->)|(key & o_e & w1 & t_ens & _ & _ & He & H)].
  - destruct Hin as [<-|[]]. discriminate.
  - apply ensure_thread_inv in He.
    destruct He as (_ & _ & Hf & _ & Hnew).
    destruct (Hnew Ht) as (_ & Hall).
    destruct o_e as [thread|x|].
    + destruct H as (t_x & Hx & ->).
      apply (exchange_inv _ _ reply reply_of_pure) in Hx.
      destruct Hx as (Hx & _).
      rewrite pushed_contents_app, (Hall thread eq_refl).
      cbn [pushed_contents]. rewrite pushed_contents_replayed.
      now rewrite (exchange_pushed _ _ _ _ _ Hx).
    + destruct H as (_ & _ & ->).
      rewrite (setup_no_run _ _ Hf Hin) in Hrc. discriminate.
    + destruct H as (_ & _ & ->).
      rewrite (setup_no_run _ _ Hf Hin) in Hrc. discriminate.
Qed.

Lemma exchange_shows_nothing content thread o tr :
  exchange_run content reply thread o tr -> Forall shows_nothing tr.
Proof.
  assert (Hpoll : forall run t o', poll_trace thread run t o' ->
                                   Forall shows_nothing t).
  { induction 1; repeat constructor; assumption. }
  destruct 1 as [x|x|run0 t_poll x Hp|run0 t_poll Hp|run0 run t_poll o t_fin Hp Hf];
    repeat (constructor; [exact I|]); try constructor; eauto.
  apply Forall_app. split; [eauto|]. destruct Hf; repeat constructor.
Qed.

Lemma setup_shows_nothing (tr : list event) :
  Forall setup_event tr -> Forall shows_nothing tr.
Proof.
  apply Forall_impl. intros e He. now destruct e.
Qed.

(** A call shows the user something exactly when the key is missing, and
    then it is the configuration error. *)
Lemma call_shows fuel text (w : World R) o w' tr :
  call_assistant fuel text w = (o, w', tr) ->
  (no_key w /\ tr = [config_error]) \/
  (~ no_key w /\ Forall shows_nothing tr).
Proof.
  intro H. apply call_assistant_anatomy in H.
  destruct H as [(Hnk & _ & _ & ->)|(key & o_e & w1 & t_ens & Hk & Hne & He & H)].
  - now left.
  - right. split.
    { intros [N|N]; rewrite Hk in N; [discriminate|]. now injection N. }
    apply ensure_thread_inv in He. destruct He as (_ & _ & Hf & _).
    apply setup_shows_nothing in Hf.
    destruct o_e as [thread|x|].
    + destruct H as (t_x & Hx & ->).
      apply (exchange_inv _ _ reply reply_of_pure) in Hx.
      destruct Hx as (Hx & _).
      apply Forall_app. split; [assumption|].
      now apply exchange_shows_nothing in Hx.
    + now destruct H as (_ & _ & ->).
    + now destruct H as (_ & _ & ->).
Qed.
End Calls.

(** *** Scripts, whatever the call and the display *)

Section Scripts.
Context {R : Type}.
Variable call_assistant : string -> M R string.
Variable show : string -> M R unit.
Hypothesis call_kept : forall text w o w' tr,
  call_assistant text w = (o, w', tr) ->
  messages (session_state w') = messages (session_state w).
Hypothesis show_only : forall reply w o w' tr,
  show reply w = (o, w', tr) ->
  o = Ret tt /\ w' = w /\ (tr = [] \/ exists df, tr = [StBarChart df]).

(** A submission is the call in the world that already has the user's
    message; if the call returns, the reply is appended and shown, and if it
    does not, the rerun ends there. *)
Lemma script_submission_inv (text : string) (w : World R) o w' tr :
  text <> "" ->
  script_with call_assistant show (Some text) w = (o, w', tr) ->
  exists o_c w_c t_c,
    call_assistant text (with_user_message text w) = (o_c, w_c, t_c) /\
    match o_c with
    | Ret reply =>
        o = Ret tt /\ w' = with_reply reply w_c /\
        exists t_s,
          show reply (with_reply reply w_c) = (Ret tt, w', t_s) /\
          tr = t_c ++ t_s
    | Raise x => o = Raise x /\ w' = w_c /\ tr = t_c
    | StillPolling => o = StillPolling /\ w' = w_c /\ tr = t_c
    end.
Proof.
  intros Hne H. rewrite script_with_submission in H by assumption.
  destruct (call_assistant text (with_user_message text w))
    as [[o_c w_c] t_c] eqn:Hc.
  exists o_c, w_c, t_c. split; [reflexivity|].
  pose proof (call_kept _ _ _ _ _ Hc) as Hm. cbn in Hm.
  unfold bind in H at 1. rewrite Hc in H.
  destruct o_c as [reply|x|]; try (injection H as <- <- <-; auto).
  assert (Ha : append_message "assistant" reply w_c
               = (Ret tt, with_reply reply w_c, [])).
  { unfold append_message, bind, get_session, with_reply, history.
    rewrite Hm. reflexivity. }
  unfold bind in H. rewrite Ha in H.
  destruct (show reply (with_reply reply w_c)) as [[o_s w_s] t_s] eqn:Hs.
  destruct (show_only _ _ _ _ _ Hs) as (-> & -> & _).
  cbn [app] in H. injection H as <- <- <-.
  split; [reflexivity|]. split; [reflexivity|]. now exists t_s.
Qed.

Lemma history_with_user_message (text : string) (w : World R) :
  history (session_state (with_user_message text w))
    = history (session_state w) ++ [Msg "user" text].
Proof. reflexivity. Qed.

(** A submission whose call does not return leaves the user's message in
    the history, without a reply. *)
Lemma script_failed_submission (text : string) (w : World R) o w' tr :
  text <> "" ->
  script_with call_assistant show (Some text) w = (o, w', tr) ->
  is_failure o ->
  history (session_state w') = history (session_state w) ++ [Msg "user" text].
Proof.
  intros Hne H Hf.
  destruct (script_submission_inv _ _ _ _ _ Hne H) as (o_c & w_c & t_c & Hc & Hrest).
  pose proof (call_kept _ _ _ _ _ Hc) as Hm.
  destruct o_c as [reply|x|].
  - destruct Hrest as (-> & _). contradiction.
  - destruct Hrest as (_ & -> & _). unfold history at 1. now rewrite Hm.
  - destruct Hrest as (_ & -> & _). unfold history at 1. now rewrite Hm.
Qed.

Hypothesis call_orderly' : forall text w o w' tr,
  call_assistant text w = (o, w', tr) -> orderly (raised o) tr.

Lemma shown_is_clean reply (w : World R) o w' tr :
  show reply w = (o, w', tr) -> clean tr.
Proof.
  intro H. destruct (show_only _ _ _ _ _ H) as (_ & _ & [->|(df & ->)]);
    repeat constructor.
Qed.

Lemma script_orderly (i : option string) (w : World R) o w' tr :
  script_with call_assistant show i w = (o, w', tr) -> orderly (raised o) tr.
Proof.
  intro H.
  assert (Hi : (i = None \/ i = Some "") \/ exists text, i = Some text /\ text <> "").
  { destruct i as [[|c t]|]; auto. right. eexists. split; [reflexivity|discriminate]. }
  destruct Hi as [Hi|(text & -> & Hne)].
  - destruct (script_idle _ _ _ _ _ _ _ Hi H) as (_ & -> & _). left. constructor.
  - destruct (script_submission_inv _ _ _ _ _ Hne H) as (o_c & w_c & t_c & Hc & Hrest).
    apply call_orderly' in Hc.
    destruct o_c as [reply|x|].
    + destruct Hrest as (-> & _ & t_s & Hs & ->).
      left. apply clean_app. split; [now apply orderly_ret_clean|].
      now apply shown_is_clean in Hs.
    + now destruct Hrest as (-> & _ & ->).
    + now destruct Hrest as (-> & _ & ->).
Qed.

(** With a handle in the session, a rerun keeps it and talks to that thread
    only. *)
Variable t : string.
Hypothesis call_handle : forall text w o w' tr,
  thread_id (session_state w) = Some t ->
  call_assistant text w = (o, w', tr) ->
  session_state w' = session_state w /\ Forall (addressed_to t) tr.

Lemma script_with_handle (i : option string) (w : World R) o w' tr :
  thread_id (session_state w) = Some t ->
  script_with call_assistant show i w = (o, w', tr) ->
  thread_id (session_state w') = Some t /\ Forall (addressed_to t) tr.
Proof.
  intros Ht H.
  assert (Hi : (i = None \/ i = Some "") \/ exists text, i = Some text /\ text <> "").
  { destruct i as [[|c x]|]; auto. right. eexists. split; [reflexivity|discriminate]. }
  destruct Hi as [Hi|(text & -> & Hne)].
  - clear call_handle. revert H. unfold script_with, bind, get_session, put_session, ret.
    destruct Hi as [-> | ->]; destruct (messages (session_state w));
      intro H; injection H as <- <- <-; cbn; auto.
  - destruct (script_submission_inv _ _ _ _ _ Hne H) as (o_c & w_c & t_c & Hc & Hrest).
    apply call_handle in Hc; [|exact Ht]. destruct Hc as (Hs & Ha). cbn in Hs.
    destruct o_c as [reply|x|].
    + destruct Hrest as (_ & -> & t_s & Hsh & ->).
      split; [cbn; now rewrite Hs|].
      apply Forall_app. split; [assumption|].
      destruct (show_only _ _ _ _ _ Hsh) as (_ & _ & [->|(df & ->)]);
        repeat constructor.
    + destruct Hrest as (_ & -> & ->). split; [now rewrite Hs|assumption].
    + destruct Hrest as (_ & -> & ->). split; [now rewrite Hs|assumption].
Qed.

Lemma session_with_handle (inputs : list (option string)) (w : World R) o w' tr :
  thread_id (session_state w) = Some t ->
  session_with (script_with call_assistant show) inputs w = (o, w', tr) ->
  thread_id (session_state w') = Some t /\ Forall (addressed_to t) tr.
Proof.
  revert w o w' tr. induction inputs as [|i inputs IH]; intros w o w' tr Ht H.
  - run_inv H. split; [assumption|constructor].
  - cbn [session_with] in H. bind_cases H H1 H2.
    + apply script_with_handle in H1; [|assumption]. destruct H1 as (Ht1 & Ha1).
      apply IH in H2; [|assumption]. destruct H2 as (Ht2 & Ha2).
      split; [assumption|]. apply Forall_app. now split.
    + now apply script_with_handle in H1.
    + now apply script_with_handle in H1.
Qed.
End Scripts.

(** *** The two programs *)

Section Both.
Context {R : Type}.
Variable OpenAI_new : string -> OpenAI R.

Lemma app_call_kept fuel text (w : World R) o w' tr :
  App.call_assistant OpenAI_new fuel text w = (o, w', tr) ->
  messages (session_state w') = messages (session_state w).
Proof. intro H. now apply app_call_inv in H. Qed.

Lemma chart_call_kept fuel text (w : World R) o w' tr :
  ChartApp.call_assistant OpenAI_new fuel text w = (o, w', tr) ->
  messages (session_state w') = messages (session_state w).
Proof. intro H. now apply chart_call_inv in H. Qed.

Lemma show_nothing_only (reply : string) (w : World R) o w' tr :
  (fun _ : string => ret tt) reply w = (o, w', tr) ->
  o = Ret tt /\ w' = w /\ (tr = [] \/ exists df, tr = [StBarChart df]).
Proof. intro H. injection H as <- <- <-. auto. Qed.

Lemma show_chart_only (reply : string) (w : World R) o w' tr :
  ChartApp.show_chart reply w = (o, w', tr) ->
  o = Ret tt /\ w' = w /\ (tr = [] \/ exists df, tr = [StBarChart df]).
Proof.
  unfold ChartApp.show_chart.
  destruct (extract_chart_data reply) as [df|]; intro H;
    injection H as <- <- <-; eauto.
Qed.

Lemma scripts_orderly fuel (i : option string) (w : World R) o w' tr :
  App.script OpenAI_new fuel i w = (o, w', tr) \/
  ChartApp.script OpenAI_new fuel i w = (o, w', tr) ->
  orderly (raised o) tr.
Proof.
  intros [H|H].
  - eapply (script_orderly (App.call_assistant OpenAI_new fuel) (fun _ => ret tt));
      [apply app_call_kept | apply show_nothing_only | | exact H].
    intros text w0 o0 w0' tr0.
    exact (call_orderly OpenAI_new (fun x => x) App.first_text
             App.first_text_value (fun _ _ => eq_refl) fuel text w0 o0 w0' tr0).
  - eapply (script_orderly (ChartApp.call_assistant OpenAI_new fuel)
              ChartApp.show_chart);
      [apply chart_call_kept | apply show_chart_only | | exact H].
    intros text w0 o0 w0' tr0.
    exact (call_orderly OpenAI_new ChartApp.enhanced_prompt ChartApp.joined_parts
             (fun m => Ret (ChartApp.joined_value m)) (fun _ _ => eq_refl)
             fuel text w0 o0 w0' tr0).
Qed.

Lemma sessions_with_handle fuel t (inputs : list (option string))
    (w : World R) o w' tr :
  thread_id (session_state w) = Some t ->
  session_with (App.script OpenAI_new fuel) inputs w = (o, w', tr) \/
  session_with (ChartApp.script OpenAI_new fuel) inputs w = (o, w', tr) ->
  thread_id (session_state w') = Some t /\ Forall (addressed_to t) tr.
Proof.
  intros Ht [H|H].
  - eapply (session_with_handle (App.call_assistant OpenAI_new fuel)
              (fun _ => ret tt));
      [apply app_call_kept | apply show_nothing_only | | exact Ht | exact H].
    intros text w0 o0 w0' tr0 Ht0 H0.
    destruct (call_with_handle OpenAI_new (fun x => x) App.first_text
                App.first_text_value (fun _ _ => eq_refl)
                fuel text w0 o0 w0' tr0 t Ht0 H0) as (A & B & _). auto.
  - eapply (session_with_handle (ChartApp.call_assistant OpenAI_new fuel)
              ChartApp.show_chart);
      [apply chart_call_kept | apply show_chart_only | | exact Ht | exact H].
    intros text w0 o0 w0' tr0 Ht0 H0.
    destruct (call_with_handle OpenAI_new ChartApp.enhanced_prompt
                ChartApp.joined_parts (fun m => Ret (ChartApp.joined_value m))
                (fun _ _ => eq_refl)
                fuel text w0 o0 w0' tr0 t Ht0 H0) as (A & B & _). auto.
Qed.
End Both.

(** X5.  Once the session holds a conversation handle, every rerun of the
    script keeps that handle: no further thread is created, and every call of
    the whole session names that thread. *)
Theorem X5_handle_is_kept
    {R : Type} (OpenAI_new : string -> OpenAI R)
    (fuel : nat) (t : string) (inputs : list (option string))
    (w : World R) o w' tr :
  thread_id (session_state w) = Some t ->
  session_with (App.script OpenAI_new fuel) inputs w = (o, w', tr) \/
  session_with (ChartApp.script OpenAI_new fuel) inputs w = (o, w', tr) ->
  thread_id (session_state w') = Some t /\ Forall (addressed_to t) tr.
Proof. apply sessions_with_handle. Qed.

Lemma X5_handle_is_kept_witness :
  let run := session_with (App.script client 3)
               [Some "hi"; None; Some "more"] (ready ["failed"] []) in
  thread_id (session_state (snd (fst run))) = Some "thread_0" /\
  Forall (addressed_to "thread_0") (snd run).
Proof.
  intro run.
  assert (Hrun : run = (fst (fst run), snd (fst run), snd run))
    by (vm_compute; reflexivity).
  exact (X5_handle_is_kept client 3 "thread_0" [Some "hi"; None; Some "more"]
           (ready ["failed"] []) _ _ _ eq_refl (or_introl Hrun)).
Defined.

(** X6.  When [ensure_thread] gets a new thread, the session holds its
    handle from then on, also when the replay of the history then raises; the
    next [ensure_thread] returns that handle without pushing anything, so
    what the failed replay left out is never pushed. *)
Theorem X6_handle_is_stored_before_replay
    {R : Type} (client : OpenAI R) (aid : string) (w : World R) o w' tr t :
  thread_id (session_state w) = None ->
  ensure_thread client aid w = (o, w', tr) ->
  hd_error tr = Some (ThreadsCreate (inr t)) ->
  thread_id (session_state w') = Some t /\
  messages (session_state w') = messages (session_state w) /\
  forall aid', ensure_thread client aid' w' = (Ret t, w', []).
Proof.
  intros Hnone H Hhd.
  destruct (ensure_thread_anatomy _ _ _ _ _ _ Hnone H) as (res & rest & -> & Hres).
  injection Hhd as ->. destruct Hres as (Hs & _).
  assert (Ht : thread_id (session_state w') = Some t) by now rewrite Hs.
  split; [assumption|]. split; [now rewrite Hs|].
  intro aid'. now apply ensure_thread_present.
Qed.

Lemma X6_handle_is_stored_witness :
  let run := ensure_thread (Flaky.client "sk-test") assistant_id interrupted in
  fst (fst run) = Raise (APIError "connection lost") /\
  snd run = [ThreadsCreate (inr "thread_1");
             MessagesCreate "thread_1" "user" "a" (inr tt);
             MessagesCreate "thread_1" "user" "b"
               (inl (APIError "connection lost"))] /\
  thread_id (session_state (snd (fst run))) = Some "thread_1" /\
  messages (session_state (snd (fst run))) = messages (session_state interrupted) /\
  forall aid',
    ensure_thread (Flaky.client "sk-test") aid' (snd (fst run))
      = (Ret "thread_1", snd (fst run), []).
Proof.
  intro run. split; [reflexivity|]. split; [reflexivity|].
  exact (X6_handle_is_stored_before_replay (Flaky.client "sk-test") assistant_id
           interrupted (fst (fst run)) (snd (fst run)) (snd run) "thread_1"
           eq_refl eq_refl eq_refl).
Defined.

Lemma user_contents_app (a b : list Message) :
  user_contents (a ++ b) = user_contents a ++ user_contents b.
Proof. unfold user_contents. now rewrite filter_app, map_app. Qed.

Lemma shown_pushes_nothing (tr : list event) :
  tr = [] \/ (exists df, tr = [StBarChart df]) ->
  pushed_contents tr = [] /\ forall e, In e tr -> is_runs_create e = false.
Proof.
  intros [->|(df & ->)]; split; try reflexivity; intros e [].
  - now subst.
  - contradiction.
Qed.

Section FirstSubmission.
Context {R : Type}.
Variable OpenAI_new : string -> OpenAI R.
Variable prompt : string -> string.
Variable reply_of : ThreadMessage -> M R string.
Variable reply : ThreadMessage -> outcome string.
Hypothesis reply_of_pure : forall m w, reply_of m w = (reply m, w, []).
Variable show : string -> M R unit.
Hypothesis show_only : forall r w o w' tr,
  show r w = (o, w', tr) ->
  o = Ret tt /\ w' = w /\ (tr = [] \/ exists df, tr = [StBarChart df]).

Let call_assistant := call_assistant_with OpenAI_new prompt reply_of.

Lemma call_kept_generic fuel text (w : World R) o w' tr :
  call_assistant fuel text w = (o, w', tr) ->
  messages (session_state w') = messages (session_state w).
Proof.
  intro H.
  now apply (call_assistant_inv OpenAI_new prompt reply_of reply reply_of_pure) in H.
Qed.

Lemma first_submission_pushes fuel (text : string) (w : World R) o w' tr e :
  text <> "" ->
  script_with (call_assistant fuel) show (Some text) w = (o, w', tr) ->
  In e tr -> is_runs_create e = true ->
  (thread_id (session_state w) = None ->
   pushed_contents tr
     = user_contents (history (session_state w)) ++ [text; prompt text]) /\
  (thread_id (session_state w) <> None ->
   pushed_contents tr = [prompt text]).
Proof.
  intros Hne H Hin Hrc.
  destruct (script_submission_inv (call_assistant fuel) show
              (call_kept_generic fuel) show_only _ _ _ _ _ Hne H)
    as (o_c & w_c & t_c & Hc & Hrest).
  assert (Hpart : exists t_s,
             tr = t_c ++ t_s /\ pushed_contents t_s = [] /\
             forall e', In e' t_s -> is_runs_create e' = false).
  { destruct o_c as [r|x|].
    - destruct Hrest as (_ & _ & t_s & Hs & ->).
      destruct (show_only _ _ _ _ _ Hs) as (_ & _ & Hshape).
      apply shown_pushes_nothing in Hshape. exists t_s. tauto.
    - destruct Hrest as (_ & _ & ->). exists []. rewrite app_nil_r.
      repeat split. intros e' [].
    - destruct Hrest as (_ & _ & ->). exists []. rewrite app_nil_r.
      repeat split. intros e' []. }
  destruct Hpart as (t_s & -> & Hps & Hnr).
  assert (Hin_c : In e t_c).
  { apply in_app_or in Hin. destruct Hin as [Hin|Hin]; [assumption|].
    rewrite (Hnr _ Hin) in Hrc. discriminate. }
  rewrite pushed_contents_app, Hps, app_nil_r.
  split.
  - intro Hnone.
    rewrite (call_without_handle OpenAI_new prompt reply_of reply reply_of_pure
               fuel text (with_user_message text w) _ _ _ e Hnone Hc Hin_c Hrc).
    rewrite history_with_user_message, user_contents_app, <- app_assoc.
    reflexivity.
  - intro Hsome.
    destruct (thread_id (session_state w)) as [t|] eqn:Ht; [|congruence].
    destruct (call_with_handle OpenAI_new prompt reply_of reply reply_of_pure
                fuel text (with_user_message text w) _ _ _ t Ht Hc)
      as (_ & _ & [Hnk|Hp]);
      [|assumption].
    exfalso.
    destruct (call_shows OpenAI_new prompt reply_of reply reply_of_pure
                fuel text _ _ _ _ Hc) as [(_ & ->)|(Hk & _)];
      [|contradiction].
    destruct Hin_c as [<-|[]]. discriminate.
Qed.
End FirstSubmission.

(** X7.  The first submission of a session that has no handle yet pushes
    the user's text twice: the script has already stored it when
    [ensure_thread] replays the stored user messages, and [call_assistant]
    pushes it again (as it is in the plain program, inside the prompt
    template in the chart program).  With a handle in place the text is
    pushed once. *)
Theorem X7_first_submission_pushes_twice
    {R : Type} (OpenAI_new : string -> OpenAI R)
    (fuel : nat) (text : string) (w : World R) o w' tr e :
  text <> "" -> In e tr -> is_runs_create e = true ->
  (App.script OpenAI_new fuel (Some text) w = (o, w', tr) ->
   (thread_id (session_state w) = None ->
    pushed_contents tr
      = user_contents (history (session_state w)) ++ [text; text]) /\
   (thread_id (session_state w) <> None -> pushed_contents tr = [text])) /\
  (ChartApp.script OpenAI_new fuel (Some text) w = (o, w', tr) ->
   (thread_id (session_state w) = None ->
    pushed_contents tr
      = user_contents (history (session_state w))
          ++ [text; ChartApp.enhanced_prompt text]) /\
   (thread_id (session_state w) <> None ->
    pushed_contents tr = [ChartApp.enhanced_prompt text])).
Proof.
  intros Hne Hin Hrc. split; intro H.
  - exact (first_submission_pushes OpenAI_new (fun x => x) App.first_text
             App.first_text_value (fun _ _ => eq_refl) (fun _ => ret tt)
             show_nothing_only fuel text w o w' tr e Hne H Hin Hrc).
  - exact (first_submission_pushes OpenAI_new ChartApp.enhanced_prompt
             ChartApp.joined_parts (fun m => Ret (ChartApp.joined_value m))
             (fun _ _ => eq_refl) ChartApp.show_chart
             show_chart_only fuel text w o w' tr e Hne H Hin Hrc).
Qed.

Lemma X7_first_submission_witness :
  let run := App.script client 3 (Some "hi") first_visit in
  pushed_contents (snd run) = ["hi"; "hi"] /\
  history (session_state (snd (fst run)))
    = [Msg "user" "hi"; Msg "assistant" "Hello"].
Proof.
  intro run. split; [|reflexivity].
  assert (Hrun : run = (fst (fst run), snd (fst run), snd run))
    by (vm_compute; reflexivity).
  assert (Hin : In (RunsCreate "thread_1" assistant_id
                      (inr (mkRun "run_1" "completed"))) (snd run))
    by (vm_compute; auto 10).
  assert (Hne : "hi" <> "") by discriminate.
  exact (proj1 (proj1 (X7_first_submission_pushes_twice client 3 "hi"
                         first_visit _ _ _ _ Hne Hin eq_refl) Hrun) eq_refl).
Defined.

(** X8.  A call to the service that raises is never retried or followed by
    another call: in the trace of a rerun it is the last event, and the rerun
    ends raising what that call raised. *)
Theorem X8_failed_call_ends_the_rerun
    {R : Type} (OpenAI_new : string -> OpenAI R)
    (fuel : nat) (i : option string) (w : World R) o w' tr :
  App.script OpenAI_new fuel i w = (o, w', tr) \/
  ChartApp.script OpenAI_new fuel i w = (o, w', tr) ->
  forall pre ev post x,
    tr = pre ++ ev :: post -> failure_of ev = Some x ->
    post = [] /\ o = Raise x.
Proof.
  intros H pre ev post x E Hx.
  apply scripts_orderly in H.
  destruct (orderly_failure_is_last _ _ H _ _ _ _ E Hx) as (Hp & Hr).
  split; [assumption|]. destruct o; simpl in Hr; congruence.
Qed.

Lemma X8_failed_call_witness :
  let run := ChartApp.script Flaky.client 3 (Some "hi") short_lived in
  snd run
    = [ThreadsCreate (inr "thread_1");
       MessagesCreate "thread_1" "user" "hi" (inr tt)]
      ++ MessagesCreate "thread_1" "user" (ChartApp.enhanced_prompt "hi")
           (inl (APIError "connection lost")) :: [] /\
  fst (fst run) = Raise (APIError "connection lost").
Proof.
  intro run.
  assert (Hrun : run = (fst (fst run), snd (fst run), snd run))
    by (vm_compute; reflexivity).
  assert (Htr : snd run
                = [ThreadsCreate (inr "thread_1");
                   MessagesCreate "thread_1" "user" "hi" (inr tt)]
                  ++ MessagesCreate "thread_1" "user" (ChartApp.enhanced_prompt "hi")
                       (inl (APIError "connection lost")) :: [])
    by (vm_compute; reflexivity).
  split; [exact Htr|].
  exact (proj2 (X8_failed_call_ends_the_rerun Flaky.client 3 (Some "hi")
                  short_lived _ _ _ (or_intror Hrun) _ _ _ _ Htr eq_refl)).
Defined.

(** X9.  A submission whose call does not return (it raises, or is still
    polling) leaves the user's message in the history without any reply
    after it; the earlier entries are kept. *)
Theorem X9_unanswered_message_stays
    {R : Type} (OpenAI_new : string -> OpenAI R)
    (fuel : nat) (text : string) (w : World R) o w' tr :
  text <> "" -> is_failure o ->
  App.script OpenAI_new fuel (Some text) w = (o, w', tr) \/
  ChartApp.script OpenAI_new fuel (Some text) w = (o, w', tr) ->
  history (session_state w') = history (session_state w) ++ [Msg "user" text].
Proof.
  intros Hne Hf [H|H].
  - eapply (script_failed_submission (App.call_assistant OpenAI_new fuel)
              (fun _ => ret tt));
      [apply app_call_kept | apply show_nothing_only | exact Hne | exact H | exact Hf].
  - eapply (script_failed_submission (ChartApp.call_assistant OpenAI_new fuel)
              ChartApp.show_chart);
      [apply chart_call_kept | apply show_chart_only | exact Hne | exact H | exact Hf].
Qed.

Lemma X9_unanswered_message_witness :
  let run := App.script Flaky.client 3 (Some "hi") short_lived in
  fst (fst run) = Raise (APIError "connection lost") /\
  history (session_state (snd (fst run))) = [Msg "user" "hi"].
Proof.
  intro run. split; [reflexivity|].
  assert (Hrun : run = (Raise (APIError "connection lost"), snd (fst run), snd run))
    by (vm_compute; reflexivity).
  assert (Hne : "hi" <> "") by discriminate.
  exact (X9_unanswered_message_stays Flaky.client 3 "hi" short_lived
           (Raise (APIError "connection lost")) (snd (fst run)) (snd run)
           Hne I (or_introl Hrun)).
Defined.

(** When the listing of the thread came back empty, the call returns the
    placeholder. *)
Lemma listed_nothing_is_placeholder content reply handle o tr thread ord lim :
  gateway_run content reply handle o tr ->
  In (MessagesList thread ord lim (inr [])) tr ->
  o = Ret no_response.
Proof.
  destruct 1 as [| o t_ens Hf _ | t_ens th e Hf Hh | t_ens th r0 o t_tail Hf Hh Hrun];
    intro Hin.
  - destruct Hin as [Hin|[]]. discriminate.
  - exfalso. revert Hin. now apply setup_not_list.
  - exfalso. apply in_app_or in Hin. destruct Hin as [Hin|[Hin|[]]].
    + revert Hin. now apply setup_not_list.
    + discriminate.
  - apply in_app_or in Hin. destruct Hin as [Hin|[Hin|[Hin|Hin]]].
    + exfalso. revert Hin. now apply setup_not_list.
    + discriminate.
    + discriminate.
    + destruct Hrun as [e | run0 o t_poll Hp _ _
                        | run0 run o t_poll t_fin Hp _ _ Hfin].
      * destruct Hin.
      * exfalso. revert Hin. now apply poll_not_list.
      * apply in_app_or in Hin. destruct Hin as [Hin|Hin].
        -- exfalso. revert Hin. now apply poll_not_list.
        -- destruct Hfin; simpl in Hin; try contradiction;
             destruct Hin as [Hin|[]]; try discriminate. reflexivity.
Qed.

(** X10.  When the run completed and the listing of the thread comes back
    empty, [call_assistant] returns the text "(No assistant response)"; it
    does not raise and does not return an empty string. *)
Theorem X10_empty_listing_gives_placeholder
    {R : Type} (OpenAI_new : string -> OpenAI R)
    (fuel : nat) (text : string) (w : World R) o w' tr thread ord lim :
  In (MessagesList thread ord lim (inr [])) tr ->
  App.call_assistant OpenAI_new fuel text w = (o, w', tr) \/
  ChartApp.call_assistant OpenAI_new fuel text w = (o, w', tr) ->
  o = Ret "(No assistant response)".
Proof.
  intros Hin [H|H].
  - apply app_call_inv in H. destruct H as (Hrun & _).
    eapply listed_nothing_is_placeholder; eassumption.
  - apply chart_call_inv in H. destruct H as (Hrun & _).
    eapply listed_nothing_is_placeholder; eassumption.
Qed.

Lemma X10_empty_listing_witness :
  let run := ChartApp.call_assistant client 3 "hi" silent in
  In (MessagesList "thread_0" "desc" 1 (inr [])) (snd run) /\
  fst (fst run) = Ret "(No assistant response)".
Proof.
  intro run.
  assert (Hin : In (MessagesList "thread_0" "desc" 1 (inr [])) (snd run))
    by (vm_compute; auto 10).
  assert (Hrun : run = (fst (fst run), snd (fst run), snd run))
    by (vm_compute; reflexivity).
  split; [exact Hin|].
  exact (X10_empty_listing_gives_placeholder client 3 "hi" silent
           _ _ _ _ _ _ Hin (or_intror Hrun)).
Defined.

(** X11.  The plain program reads the reply from the first content segment
    of the newest message only: its text when it is a text segment, whatever
    follows it; [IndexError] when the message has no segment; and
    [AttributeError] when the first segment is not text. *)
Theorem X11_plain_reply_is_first_segment
    {R : Type} (OpenAI_new : string -> OpenAI R)
    (fuel : nat) (text : string) (w : World R) o w' tr
    thread ord lim message rest :
  In (MessagesList thread ord lim (inr (message :: rest))) tr ->
  App.call_assistant OpenAI_new fuel text w = (o, w', tr) ->
  (forall value more,
     tm_content message = TextContentBlock value :: more -> o = Ret value) /\
  (tm_content message = [] -> o = Raise IndexError) /\
  (forall c more,
     tm_content message = c :: more ->
     (forall value, c <> TextContentBlock value) ->
     o = Raise AttributeError).
Proof.
  intros Hin H. apply app_call_inv in H. destruct H as (Hrun & _).
  apply (listed_message_is_reply _ _ _ _ _ _ _ _ _ _ Hrun) in Hin.
  unfold App.first_text_value in Hin. subst o.
  split; [|split].
  - intros value more ->. reflexivity.
  - intros ->. reflexivity.
  - intros c more -> Hc. destruct c; try reflexivity. now destruct (Hc value).
Qed.

Lemma X11_plain_reply_witness :
  let run := App.call_assistant client 3 "hi" two_parts in
  fst (fst run) = Ret "a".
Proof.
  intro run.
  assert (Hin : In (MessagesList "thread_0" "desc" 1
                      (inr [mkThreadMessage "assistant"
                              [TextContentBlock "a"; TextContentBlock "b"]]))
                   (snd run))
    by (vm_compute; auto 10).
  assert (Hrun : run = (fst (fst run), snd (fst run), snd run))
    by (vm_compute; reflexivity).
  exact (proj1 (X11_plain_reply_is_first_segment client 3 "hi" two_parts
                  _ _ _ _ _ _ _ _ Hin Hrun) "a" [TextContentBlock "b"] eq_refl).
Defined.

(** X12.  In every call the waiting is regular: each half-second sleep is
    directly followed by one status request and no status is requested
    without a sleep before it; and the loop stops at the first terminal
    status, so no status the service reported before the last one is
    terminal (a run created in a terminal state is never polled). *)
Theorem X12_polling_is_regular
    {R : Type} (OpenAI_new : string -> OpenAI R)
    (fuel : nat) (text : string) (w : World R) o w' tr :
  App.call_assistant OpenAI_new fuel text w = (o, w', tr) \/
  ChartApp.call_assistant OpenAI_new fuel text w = (o, w', tr) ->
  sleeps_paired tr = true /\
  stops_at_terminal (observed_statuses tr) = true.
Proof.
  intros [H|H].
  - exact (call_polling OpenAI_new (fun x => x) App.first_text
             App.first_text_value (fun _ _ => eq_refl) fuel text w o w' tr H).
  - exact (call_polling OpenAI_new ChartApp.enhanced_prompt ChartApp.joined_parts
             (fun m => Ret (ChartApp.joined_value m)) (fun _ _ => eq_refl)
             fuel text w o w' tr H).
Qed.

Lemma X12_polling_witness :
  let run := App.call_assistant client 5 "hi" slow in
  observed_statuses (snd run) = ["queued"; "in_progress"; "completed"] /\
  length (filter is_sleep (snd run)) = 2 /\
  sleeps_paired (snd run) = true /\
  stops_at_terminal (observed_statuses (snd run)) = true.
Proof.
  intro run. split; [reflexivity|]. split; [reflexivity|].
  assert (Hrun : run = (fst (fst run), snd (fst run), snd run))
    by (vm_compute; reflexivity).
  exact (X12_polling_is_regular client 5 "hi" slow _ _ _ (or_introl Hrun)).
Defined.

(** *** Runs that never end *)

Section NeverDone.
Context {R : Type}.
Variable client : OpenAI R.
Hypothesis stuck : never_done client.

Lemma poll_never_returns (fuel : nat) (thread : string) (run : Run) (w : World R) :
  is_terminal (run_status run) = false ->
  exists w' tr,
    poll fuel client thread run w = (StillPolling, w', tr) /\
    length (filter is_sleep tr) = fuel /\
    Forall poll_event tr.
Proof.
  revert run w. induction fuel as [|fuel IH]; intros run w Hterm;
    cbn [poll]; rewrite Hterm.
  - exists w, []. repeat split. constructor.
  - destruct (proj2 stuck thread (run_id run) (remote w))
      as (run' & r' & Eop & Ht').
    destruct (IH run' (mkWorld (OPENAI_API_KEY w) (session_state w) r') Ht')
      as (w' & tr & Ep & Hlen & Hf).
    exists w', (Sleep :: RunsRetrieve thread (run_id run) (inr run') :: tr).
    split; [|split].
    + unfold bind at 1, emit. unfold bind at 1, call. rewrite Eop, Ep.
      reflexivity.
    + simpl. now rewrite Hlen.
    + repeat (constructor; [exact I|]). assumption.
Qed.

Lemma exchange_never_returns (content : string)
    (reply_of : ThreadMessage -> M R string) (fuel : nat) (thread : string)
    (w : World R) o w' tr :
  exchange client content reply_of fuel thread w = (o, w', tr) ->
  (forall r, o <> Ret r) /\
  (o = StillPolling -> length (filter is_sleep tr) = fuel).
Proof.
  unfold exchange. unfold bind at 1, call.
  destruct (threads_messages_create client thread "user" content (remote w))
    as [[x|[]] r1].
  - intro H. injection H as <- <- <-. split; [discriminate|discriminate].
  - unfold bind at 1.
    destruct (proj1 stuck thread assistant_id r1) as (run0 & r2 & Eop & Ht0).
    cbn [remote]. rewrite Eop.
    destruct (poll_never_returns fuel thread run0
                (mkWorld (OPENAI_API_KEY w) (session_state w) r2) Ht0)
      as (w2 & t_poll & Ep & Hlen & _).
    unfold bind at 1. cbn [OPENAI_API_KEY session_state]. rewrite Ep.
    intro H. injection H as <- <- <-. split; [discriminate|].
    intros _. simpl. exact Hlen.
Qed.
End NeverDone.

Lemma setup_never_sleeps (tr : list event) :
  Forall setup_event tr -> filter is_sleep tr = [].
Proof.
  induction 1 as [|e tr He _ IH]; [reflexivity|].
  destruct e; simpl in *; try contradiction; assumption.
Qed.

(** Setting up the thread involves no polling. *)
Lemma replay_never_polls {R} (client : OpenAI R) (thread : string)
    (ms : list Message) (w : World R) o w' tr :
  for_each (replay client thread) ms w = (o, w', tr) -> o <> StillPolling.
Proof.
  revert w o w' tr. induction ms as [|m ms IH]; intros w o w' tr H.
  - run_inv H. discriminate.
  - cbn [for_each] in H. unfold replay at 1 in H.
    destruct (String.eqb (role m) "user").
    + bind_cases H H1 H2.
      * now apply IH in H2.
      * discriminate.
      * apply call_inv in H1. destruct H1 as (res & _ & _ & _ & Ho).
        destruct res; discriminate.
    + bind_cases H H1 H2; run_inv H1. now apply IH in H2.
Qed.

Lemma ensure_thread_never_polls {R} (client : OpenAI R) (aid : string)
    (w : World R) o w' tr :
  ensure_thread client aid w = (o, w', tr) -> o <> StillPolling.
Proof.
  intro H. unfold ensure_thread in H.
  bind_cases H H1 H2; [|discriminate|discriminate].
  run_inv H1. destruct (thread_id (session_state w)).
  { run_inv H2. discriminate. }
  bind_cases H2 H1 H3.
  - bind_cases H3 H2 H4; [|discriminate|discriminate]. run_inv H2.
    bind_cases H4 H2 H5; [|discriminate|discriminate]. run_inv H2.
    cbn [session_state messages] in H5.
    destruct (messages (session_state w)).
    + bind_cases H5 H2 H6.
      * run_inv H6. discriminate.
      * discriminate.
      * now apply replay_never_polls in H2.
    + bind_cases H5 H2 H6; [|discriminate|discriminate].
      run_inv H2. run_inv H6. discriminate.
  - discriminate.
  - apply call_inv in H1. destruct H1 as (res & _ & _ & _ & Ho).
    destruct res; discriminate.
Qed.

Section NeverDoneCall.
Context {R : Type}.
Variable OpenAI_new : string -> OpenAI R.
Hypothesis stuck : forall key, never_done (OpenAI_new key).
Variable prompt : string -> string.
Variable reply_of : ThreadMessage -> M R string.

Lemma call_never_returns fuel text (w : World R) o w' tr :
  ~ no_key w ->
  call_assistant_with OpenAI_new prompt reply_of fuel text w = (o, w', tr) ->
  (forall r, o <> Ret r) /\
  (o = StillPolling -> length (filter is_sleep tr) = fuel).
Proof.
  intros Hk H. apply call_assistant_anatomy in H.
  destruct H as [(Hnk & _)|(key & o_e & w1 & t_ens & _ & _ & He & H)];
    [contradiction|].
  pose proof (ensure_thread_never_polls _ _ _ _ _ _ He) as Hnp.
  apply ensure_thread_inv in He. destruct He as (_ & _ & Hf & _).
  destruct o_e as [thread|x|].
  - destruct H as (t_x & Hx & ->).
    apply (exchange_never_returns _ (stuck key)) in Hx.
    destruct Hx as (Hnr & Hlen). split; [assumption|].
    intro Ho. rewrite filter_app, (setup_never_sleeps _ Hf). now apply Hlen.
  - destruct H as (-> & _). split; discriminate.
  - congruence.
Qed.
End NeverDoneCall.

(** X13.  Nothing bounds the waiting: on a service whose runs never reach a
    terminal status, a call with a key never returns a reply, whatever the
    polling budget; when it is still polling it has slept once for every unit
    of the budget. *)
Theorem X13_no_bound_on_waiting
    {R : Type} (OpenAI_new : string -> OpenAI R)
    (fuel : nat) (text : string) (w : World R) o w' tr :
  (forall key, never_done (OpenAI_new key)) ->
  ~ no_key w ->
  App.call_assistant OpenAI_new fuel text w = (o, w', tr) \/
  ChartApp.call_assistant OpenAI_new fuel text w = (o, w', tr) ->
  (forall r, o <> Ret r) /\
  (o = StillPolling -> length (filter is_sleep tr) = fuel).
Proof.
  intros Hstuck Hk [H|H].
  - exact (call_never_returns OpenAI_new Hstuck (fun x => x) App.first_text
             fuel text w o w' tr Hk H).
  - exact (call_never_returns OpenAI_new Hstuck ChartApp.enhanced_prompt
             ChartApp.joined_parts fuel text w o w' tr Hk H).
Qed.

Lemma stuck_never_done (key : string) : never_done (Stuck.client key).
Proof. split; intros; eexists; eexists; split; reflexivity. Qed.

Lemma X13_no_bound_witness :
  let run := App.call_assistant Stuck.client 7 "hi" waiting in
  fst (fst run) = StillPolling /\
  (forall r, fst (fst run) <> Ret r) /\
  (fst (fst run) = StillPolling -> length (filter is_sleep (snd run)) = 7).
Proof.
  intro run. split; [reflexivity|].
  assert (Hrun : run = (fst (fst run), snd (fst run), snd run))
    by (vm_compute; reflexivity).
  assert (Hk : ~ no_key waiting) by (intros [N|N]; discriminate N).
  exact (X13_no_bound_on_waiting Stuck.client 7 "hi" waiting _ _ _
           stuck_never_done Hk (or_introl Hrun)).
Defined.

(** X14.  A call shows the configuration error exactly when the key is
    missing, and it never shows any other message: with a key, nothing of
    what the call does is shown to the user. *)
Theorem X14_error_shown_iff_no_key
    {R : Type} (OpenAI_new : string -> OpenAI R)
    (fuel : nat) (text : string) (w : World R) o w' tr :
  App.call_assistant OpenAI_new fuel text w = (o, w', tr) \/
  ChartApp.call_assistant OpenAI_new fuel text w = (o, w', tr) ->
  (In config_error tr <-> no_key w) /\
  (forall e, In e tr -> shows_nothing e \/ e = config_error).
Proof.
  intro H.
  assert (Hs : (no_key w /\ tr = [config_error]) \/
               (~ no_key w /\ Forall shows_nothing tr)).
  { destruct H as [H|H].
    - exact (call_shows OpenAI_new (fun x => x) App.first_text
               App.first_text_value (fun _ _ => eq_refl) fuel text w o w' tr H).
    - exact (call_shows OpenAI_new ChartApp.enhanced_prompt ChartApp.joined_parts
               (fun m => Ret (ChartApp.joined_value m)) (fun _ _ => eq_refl)
               fuel text w o w' tr H). }
  destruct Hs as [(Hk & ->)|(Hk & Hf)].
  - split; [split; [auto|intros _; now left]|].
    intros e [<-|[]]. now right.
  - rewrite Forall_forall in Hf. split.
    + split; [|contradiction]. intro Hin. exfalso. exact (Hf _ Hin).
    + intros e Hin. left. now apply Hf.
Qed.

Lemma X14_error_shown_witness :
  let run := App.call_assistant Scripted.client 3 "hi" Fixtures.keyless in
  let run' := ChartApp.call_assistant Scripted.client 3 "hi" (Fixtures.ready ["completed"] [TextContentBlock "Rice: 3"]) in
  (In config_error (snd run) <-> no_key Fixtures.keyless) /\
  (In config_error (snd run') <-> no_key (Fixtures.ready ["completed"] [TextContentBlock "Rice: 3"])) /\
  In config_error (snd run) /\ ~ In config_error (snd run').
Proof.
  intros run run'.
  assert (Hrun : run = (fst (fst run), snd (fst run), snd run))
    by (vm_compute; reflexivity).
  assert (Hrun' : run' = (fst (fst run'), snd (fst run'), snd run'))
    by (vm_compute; reflexivity).
  split; [|split; [|split]].
  - exact (proj1 (X14_error_shown_iff_no_key Scripted.client 3 "hi"
                    Fixtures.keyless _ _ _ (or_introl Hrun))).
  - exact (proj1 (X14_error_shown_iff_no_key Scripted.client 3 "hi"
                    (Fixtures.ready ["completed"] [TextContentBlock "Rice: 3"]) _ _ _ (or_intror Hrun'))).
  - vm_compute. now left.
  - vm_compute. intro N. repeat (destruct N as [N|N]; [discriminate N|]). exact N.
Defined.

Lemma idle_script_run
    {R : Type} (OpenAI_new : string -> OpenAI R) (fuel : nat) (w : World R) :
  App.script OpenAI_new fuel None w = (Ret tt, rested w, []) /\
  ChartApp.script OpenAI_new fuel None w = (Ret tt, rested w, []).
Proof.
  destruct w as [key [tid ms] rm]. unfold rested, history.
  destruct ms as [ms|]; split; reflexivity.
Qed.

Lemma idle_script_pair
    {R : Type} (OpenAI_new : string -> OpenAI R) (fuel : nat)
    (i : option string) (w : World R) :
  i = None \/ i = Some "" ->
  App.script OpenAI_new fuel i w = (Ret tt, rested w, []) /\
  ChartApp.script OpenAI_new fuel i w = (Ret tt, rested w, []).
Proof.
  intro Hi. destruct w as [key [tid ms] rm]. unfold rested, history.
  destruct Hi as [-> | ->]; destruct ms as [ms|]; split; reflexivity.
Qed.

(** X15.  A rerun with nothing submitted, or with an empty input, makes no
    call to the service, does not sleep and reports no error; it leaves the
    handle, the service and the history as they were, a history that was
    absent becoming the empty one. *)
Theorem X15_idle_rerun
    {R : Type} (OpenAI_new : string -> OpenAI R)
    (fuel : nat) (i : option string) (w : World R) :
  i = None \/ i = Some "" ->
  App.script OpenAI_new fuel i w = (Ret tt, rested w, []) /\
  ChartApp.script OpenAI_new fuel i w = (Ret tt, rested w, []) /\
  history (session_state (rested w)) = history (session_state w).
Proof.
  intro Hi. destruct w as [key [tid ms] rm]. unfold rested, history.
  destruct Hi as [-> | ->]; destruct ms as [ms|]; repeat split.
Qed.

Lemma X15_idle_rerun_witness :
  App.script client 3 (Some "") first_visit = (Ret tt, rested first_visit, []) /\
  ChartApp.script client 3 (Some "") first_visit
    = (Ret tt, rested first_visit, []) /\
  history (session_state (rested first_visit))
    = history (session_state first_visit).
Proof.
  exact (X15_idle_rerun client 3 (Some "") first_visit (or_intror eq_refl)).
Defined.

End GatewayExtras.

(** ** The whole page *)

Module PageExtras.
Import MonadFacts GatewayFacts ProgramFacts Anatomy TraceProps GatewayExtras
       Scripted Fixtures Cases.

Section Pages.
Context {R : Type}.
Variable OpenAI_new : string -> OpenAI R.

Lemma init_messages_run (w : World R) :
  init_messages w = (Ret tt, rested w, []).
Proof.
  destruct w as [key [tid ms] rm]. unfold init_messages, rested, history.
  now destruct ms.
Qed.

(** The script of the claims is the initialisation followed by the handling
    of the input. *)
Lemma script_is_init_then_submission
    (call_assistant : string -> M R string) (show : string -> M R unit)
    (i : option string) (w : World R) :
  script_with call_assistant show i w
    = submission call_assistant show i (rested w).
Proof.
  destruct w as [key [tid ms] rm]. unfold script_with, rested, history.
  set (K := match i with
            | None | Some EmptyString => ret tt
            | Some user_input =>
                append_message "user" user_input ;;
                assistant_reply <- call_assistant user_input ;;
                append_message "assistant" assistant_reply ;;
                show assistant_reply
            end).
  change (submission call_assistant show i) with K. clearbody K.
  destruct ms as [ms|]; cbn;
    match goal with
    | |- context [K ?w0] => destruct (K w0) as [[o1 w1] t1]
    end; reflexivity.
Qed.

Lemma charts_of_app (a b : list Message) :
  charts_of (a ++ b) = charts_of a ++ charts_of b.
Proof. unfold charts_of. apply flat_map_app. Qed.

Lemma redraw_run (w : World R) (ms : list Message) :
  messages (session_state w) = Some ms ->
  redraw_charts w = (Ret tt, w, map StBarChart (charts_of ms)).
Proof.
  intro Hm. unfold redraw_charts, bind at 1, get_session. rewrite Hm.
  assert (H : forall l,
    for_each (fun msg : Message =>
                if String.eqb (role msg) "assistant"
                then ChartApp.show_chart (content msg) else ret tt) l w
      = (Ret tt, w, map StBarChart (charts_of l))).
  { induction l as [|m l IH]; [reflexivity|].
    cbn [for_each].
    assert (Hbody : (if String.eqb (role m) "assistant"
                     then ChartApp.show_chart (content m) else ret tt) w
                    = (Ret tt, w, map StBarChart (charts_of [m]))).
    { unfold charts_of, ChartApp.show_chart. cbn [flat_map].
      destruct (String.eqb (role m) "assistant");
        [destruct (extract_chart_data (content m))|]; reflexivity. }
    rewrite (bind_ret _ _ _ _ _ _ Hbody), IH.
    change (m :: l) with ([m] ++ l).
    now rewrite charts_of_app, map_app. }
  rewrite H. reflexivity.
Qed.

Lemma shown_charts_app (a b : list event) :
  shown_charts (a ++ b) = shown_charts a ++ shown_charts b.
Proof.
  induction a as [|e a IH]; [reflexivity|].
  destruct e; simpl; rewrite IH; reflexivity.
Qed.

Lemma shown_charts_drawn (dfs : list (list ChartRow)) :
  shown_charts (map StBarChart dfs) = dfs.
Proof. induction dfs as [|df dfs IH]; simpl; congruence. Qed.

Lemma shown_charts_nothing (tr : list event) :
  Forall shows_nothing tr -> shown_charts tr = [].
Proof.
  induction 1 as [|e tr He _ IH]; [reflexivity|].
  destruct e; simpl in *; try contradiction; assumption.
Qed.

Lemma history_rested (w : World R) :
  history (session_state (rested w)) = history (session_state w).
Proof. reflexivity. Qed.
Variable utcnow : string.

Lemma app_page_run fuel (i : option string) (w : World R) :
  app_page OpenAI_new utcnow fuel i w
    = (let '(o, w', tr) := App.script OpenAI_new fuel i w in
       (page_outcome (export_of utcnow w) o, w', tr)).
Proof.
  change (App.script OpenAI_new fuel i w)
    with (script_with (App.call_assistant OpenAI_new fuel) (fun _ => ret tt) i w).
  rewrite script_is_init_then_submission.
  unfold app_page.
  rewrite (bind_ret _ _ w (export_of utcnow w) w [] eq_refl).
  rewrite (bind_ret _ _ w tt (rested w) [] (init_messages_run w)).
  unfold bind at 1.
  destruct (submission (App.call_assistant OpenAI_new fuel) (fun _ => ret tt) i
              (rested w)) as [[[[]|x|] w1] t1]; cbn; rewrite ?app_nil_r;
    reflexivity.
Qed.

Lemma chart_page_run fuel (i : option string) (w : World R) :
  chart_page OpenAI_new utcnow fuel i w
    = (let '(o, w', tr) := ChartApp.script OpenAI_new fuel i w in
       (page_outcome (export_of utcnow w) o, w',
        map StBarChart (charts_of (history (session_state w))) ++ tr)).
Proof.
  change (ChartApp.script OpenAI_new fuel i w)
    with (script_with (ChartApp.call_assistant OpenAI_new fuel)
            ChartApp.show_chart i w).
  rewrite script_is_init_then_submission.
  unfold chart_page.
  rewrite (bind_ret _ _ w (export_of utcnow w) w [] eq_refl).
  rewrite (bind_ret _ _ w tt (rested w) [] (init_messages_run w)).
  rewrite (bind_ret _ _ (rested w) tt (rested w) _
             (redraw_run (rested w) (history (session_state w)) eq_refl)).
  unfold bind at 1.
  destruct (submission (ChartApp.call_assistant OpenAI_new fuel)
              ChartApp.show_chart i (rested w)) as [[[[]|x|] w1] t1];
    cbn; rewrite ?app_nil_r; reflexivity.
Qed.

(** What either page does, read off its script. *)
Lemma page_inv fuel (i : option string) (w : World R) o w' tr :
  app_page OpenAI_new utcnow fuel i w = (o, w', tr) \/
  chart_page OpenAI_new utcnow fuel i w = (o, w', tr) ->
  exists o_s tr_s,
    (App.script OpenAI_new fuel i w = (o_s, w', tr_s) \/
     ChartApp.script OpenAI_new fuel i w = (o_s, w', tr_s)) /\
    o = page_outcome (export_of utcnow w) o_s.
Proof.
  intros [H|H].
  - rewrite app_page_run in H.
    destruct (App.script OpenAI_new fuel i w) as [[o_s w_s] tr_s].
    injection H as <- <- <-. exists o_s, tr_s. auto.
  - rewrite chart_page_run in H.
    destruct (ChartApp.script OpenAI_new fuel i w) as [[o_s w_s] tr_s].
    injection H as <- <- <-. exists o_s, tr_s. auto.
Qed.

Lemma script_step_either fuel (text : string) (w : World R) w' tr :
  text <> "" ->
  App.script OpenAI_new fuel (Some text) w = (Ret tt, w', tr) \/
  ChartApp.script OpenAI_new fuel (Some text) w = (Ret tt, w', tr) ->
  exists reply,
    history (session_state w')
      = history (session_state w) ++ [Msg "user" text; Msg "assistant" reply].
Proof.
  intros Hne [H|H].
  - eapply (script_step (App.call_assistant OpenAI_new fuel) (fun _ => ret tt));
      [apply app_call_kept | | exact Hne | exact H].
    intros r w0 o0 w0' tr0 H0. now inversion H0.
  - eapply (script_step (ChartApp.call_assistant OpenAI_new fuel)
              ChartApp.show_chart);
      [apply chart_call_kept | apply show_chart_kept | exact Hne | exact H].
Qed.
End Pages.

(** X16.  The export offered in the sidebar is taken at the top of the
    rerun: during the rerun that handles a submission it holds the history
    from before the submission, without the user's message and the reply; a
    later rerun with nothing submitted offers the whole history. *)
Theorem X16_export_lags_one_exchange
    {R : Type} (OpenAI_new : string -> OpenAI R)
    (utcnow : string) (fuel : nat) (text : string) (w : World R) data w' tr :
  text <> "" ->
  app_page OpenAI_new utcnow fuel (Some text) w = (Ret data, w', tr) \/
  chart_page OpenAI_new utcnow fuel (Some text) w = (Ret data, w', tr) ->
  export_messages data = history (session_state w) /\
  exported_at data = (utcnow ++ "Z")%string /\
  (exists reply,
     history (session_state w')
       = export_messages data ++ [Msg "user" text; Msg "assistant" reply]) /\
  (forall later fuel' o'' w'' tr'',
     app_page OpenAI_new later fuel' None w' = (o'', w'', tr'') \/
     chart_page OpenAI_new later fuel' None w' = (o'', w'', tr'') ->
     exists data',
       o'' = Ret data' /\
       export_messages data' = history (session_state w')).
Proof.
  intros Hne H.
  destruct (page_inv OpenAI_new utcnow fuel _ _ _ _ _ H) as (o_s & tr_s & Hs & Ho).
  destruct o_s as [[]|x|]; try discriminate Ho.
  injection Ho as ->.
  split; [reflexivity|]. split; [reflexivity|]. split.
  - exact (script_step_either OpenAI_new fuel text w w' tr_s Hne Hs).
  - intros later fuel' o'' w'' tr'' H'.
    destruct (page_inv OpenAI_new later fuel' _ _ _ _ _ H')
      as (o_s' & tr_s' & Hs' & ->).
    pose proof (idle_script_run OpenAI_new fuel' w') as (Ha & Hc).
    assert (o_s' = Ret tt) by (destruct Hs' as [E|E]; congruence).
    subst o_s'. eexists. split; reflexivity.
Qed.

Lemma X16_export_lags_witness :
  let run := chart_page client "2025-01-01T00:00:00" 3 (Some "and wheat?") charted in
  (exists data,
     fst (fst run) = Ret data /\
     export_messages data
       = [Msg "user" "Rice: 1"; Msg "assistant" "Rice: 40, Maize: 7"]) /\
  history (session_state (snd (fst run)))
    = [Msg "user" "Rice: 1"; Msg "assistant" "Rice: 40, Maize: 7";
       Msg "user" "and wheat?"; Msg "assistant" "Wheat: 12"].
Proof.
  intro run.
  assert (Hrun : run = (Ret (export_of "2025-01-01T00:00:00" charted),
                        snd (fst run), snd run))
    by (vm_compute; reflexivity).
  assert (Hne : "and wheat?" <> "") by discriminate.
  destruct (X16_export_lags_one_exchange client "2025-01-01T00:00:00" 3
              "and wheat?" charted _ _ _ Hne (or_intror Hrun))
    as (Hdata & _ & _ & _).
  split; [|vm_compute; reflexivity].
  exists (export_of "2025-01-01T00:00:00" charted).
  split; [vm_compute; reflexivity|exact Hdata].
Defined.

Section Charts.
Context {R : Type}.
Variable OpenAI_new : string -> OpenAI R.

Lemma chart_call_draws_nothing fuel text (w : World R) o w' tr :
  ChartApp.call_assistant OpenAI_new fuel text w = (o, w', tr) ->
  shown_charts tr = [].
Proof.
  intro H.
  destruct (call_shows OpenAI_new ChartApp.enhanced_prompt ChartApp.joined_parts
              (fun m => Ret (ChartApp.joined_value m)) (fun _ _ => eq_refl)
              fuel text w o w' tr H) as [(_ & ->)|(_ & Hf)].
  - reflexivity.
  - now apply shown_charts_nothing.
Qed.

Lemma show_chart_draws reply (w : World R) o w' tr :
  ChartApp.show_chart reply w = (o, w', tr) ->
  shown_charts tr = charts_of [Msg "assistant" reply].
Proof.
  unfold ChartApp.show_chart, charts_of. cbn.
  destruct (extract_chart_data reply); intro H; injection H as <- <- <-;
    reflexivity.
Qed.

(** The charts of the history after a rerun are those of the history before
    it followed by the charts the script drew. *)
Lemma chart_script_charts fuel (i : option string) (w : World R) o w' tr :
  ChartApp.script OpenAI_new fuel i w = (o, w', tr) ->
  charts_of (history (session_state w'))
    = charts_of (history (session_state w)) ++ shown_charts tr.
Proof.
  intro H.
  assert (Hi : (i = None \/ i = Some "") \/ exists text, i = Some text /\ text <> "").
  { destruct i as [[|c x]|]; auto. right. eexists. split; [reflexivity|discriminate]. }
  destruct Hi as [Hi|(text & -> & Hne)].
  - destruct (idle_script_pair OpenAI_new fuel i w Hi) as (_ & Hc).
    rewrite Hc in H. injection H as <- <- <-. cbn. now rewrite app_nil_r.
  - destruct (script_submission_inv (ChartApp.call_assistant OpenAI_new fuel)
                ChartApp.show_chart (chart_call_kept OpenAI_new fuel)
                show_chart_only _ _ _ _ _ Hne H)
      as (o_c & w_c & t_c & Hc & Hrest).
    pose proof (chart_call_draws_nothing _ _ _ _ _ _ Hc) as Hd.
    apply chart_call_kept in Hc. cbn in Hc.
    assert (Hh : history (session_state w_c)
                 = history (session_state w) ++ [Msg "user" text])
      by (unfold history at 1; now rewrite Hc).
    destruct o_c as [reply|x|].
    + destruct Hrest as (_ & -> & t_s & Hs & ->).
      apply show_chart_draws in Hs.
      rewrite shown_charts_app, Hd, Hs. cbn [app].
      change (history (session_state (with_reply reply w_c)))
        with (history (session_state w_c) ++ [Msg "assistant" reply]).
      rewrite Hh, !charts_of_app. cbn. now rewrite app_nil_r.
    + destruct Hrest as (_ & -> & ->).
      rewrite Hd, Hh, charts_of_app. cbn. reflexivity.
    + destruct Hrest as (_ & -> & ->).
      rewrite Hd, Hh, charts_of_app. cbn. reflexivity.
Qed.
End Charts.

(** X17.  The charts the chart page draws in a rerun are exactly the
    charts of the assistant messages the history holds when the rerun ends,
    in their order, whether the rerun returns or raises: user messages are
    never charted, and the chart of a new reply is the one every later rerun
    draws again. *)
Theorem X17_charts_follow_the_history
    {R : Type} (OpenAI_new : string -> OpenAI R)
    (utcnow : string) (fuel : nat) (i : option string) (w : World R) o w' tr :
  chart_page OpenAI_new utcnow fuel i w = (o, w', tr) ->
  shown_charts tr = charts_of (history (session_state w')).
Proof.
  intro H. rewrite chart_page_run in H.
  destruct (ChartApp.script OpenAI_new fuel i w) as [[o_s w_s] tr_s] eqn:Hs.
  injection H as <- <- <-.
  rewrite shown_charts_app, shown_charts_drawn.
  symmetry. eapply chart_script_charts. exact Hs.
Qed.

Lemma X17_charts_witness :
  let run := chart_page client "2025-01-01T00:00:00" 3 (Some "and wheat?") charted in
  shown_charts (snd run)
    = [[Row "Rice" 40; Row ", Maize" 7]; [Row "Wheat" 12]] /\
  shown_charts (snd run) = charts_of (history (session_state (snd (fst run)))).
Proof.
  intro run. split; [vm_compute; reflexivity|].
  assert (Hrun : run = (fst (fst run), snd (fst run), snd run))
    by (vm_compute; reflexivity).
  exact (X17_charts_follow_the_history client "2025-01-01T00:00:00" 3
           (Some "and wheat?") charted _ _ _ Hrun).
Defined.

End PageExtras.
